(** * ParamFinder: the request synthesis engine ([Requester])

    A shallow embedding of [class Requester] (requester.ts): body-format
    detection, the JSON, URL-encoded and multipart body encoders, the query
    and header injection strategies, the Content-Length mutator and the
    dispatcher [sendRequestWithParams].

    JavaScript strings are sequences of UTF-16 code units, objects live in a
    store and are reached through references, and a [throw] leaves the store
    as it was at the point of the throw.  The embedding keeps all three. *)

From Stdlib Require Import NArith ZArith List Ascii String Bool Lia.
From Stdlib Require Import DecimalString.
From stdpp Require Import gmap list fin_maps.

Set Warnings "-register-all".

(** ** JavaScript strings *)

(** A string is its list of UTF-16 code units ([s.length] is the length of
    the list). *)
Abbreviation jsstring := (list N).

(** The code units of an ASCII literal. *)
Definition js (s : String.string) : jsstring :=
  List.map N_of_ascii (list_ascii_of_string s).
Arguments js : simpl never.

Module JS.

Local Open Scope N_scope.

Definition eqb (a b : jsstring) : bool := bool_decide (a = b).

(** [s.startsWith(p)] *)
Fixpoint startsWith (s p : jsstring) : bool :=
  match p, s with
  | [], _ => true
  | _ :: _, [] => false
  | a :: p', b :: s' => (a =? b) && startsWith s' p'
  end.

(** [s.indexOf(p)], scanning from position [i]; [None] stands for [-1]. *)
Fixpoint indexOf_from (s p : jsstring) (i : nat) : option nat :=
  if startsWith s p then Some i
  else match s with
       | [] => None
       | _ :: s' => indexOf_from s' p (S i)
       end.

Definition indexOf (s p : jsstring) : option nat := indexOf_from s p 0.

(** [s.includes(p)] *)
Definition includes (s p : jsstring) : bool :=
  match indexOf s p with Some _ => true | None => false end.

(** [s.endsWith(p)] *)
Definition endsWith (s p : jsstring) : bool :=
  startsWith (rev s) (rev p).

(** [s.slice(0, n)] *)
Definition slice0 (s : jsstring) (n : nat) : jsstring := take n s.

(** ECMAScript WhiteSpace and LineTerminator code points, the ones
    [String.prototype.trim] strips (all lie in the Basic Multilingual Plane). *)
Definition isWhiteSpace (c : N) : bool :=
  ((9 <=? c) && (c <=? 13)) || (c =? 32) || (c =? 160) || (c =? 5760)
  || ((8192 <=? c) && (c <=? 8202)) || (c =? 8232) || (c =? 8233)
  || (c =? 8239) || (c =? 8287) || (c =? 12288) || (c =? 65279).

Fixpoint trimStart (s : jsstring) : jsstring :=
  match s with
  | c :: s' => if isWhiteSpace c then trimStart s' else s
  | [] => []
  end.

(** [s.trim()] *)
Definition trim (s : jsstring) : jsstring :=
  rev (trimStart (rev (trimStart s))).

(** [s.toLowerCase()].  The embedding lowers the letters A to Z and leaves
    every other code unit alone.  The code only asks of a lower-cased string
    whether it includes one of five ASCII patterns; outside ASCII, Unicode
    lower-casing yields an ASCII character only for U+212A (k, a letter of
    none of the patterns) and U+0130 (i followed by U+0307, and no pattern
    ends in i), so those answers are the ones JavaScript gives. *)
Definition lowerUnit (c : N) : N :=
  if (65 <=? c) && (c <=? 90) then c + 32 else c.

Definition toLowerCase (s : jsstring) : jsstring := List.map lowerUnit s.

(** [n.toString()] for a non-negative integer (a length). *)
Definition Number_toString (n : N) : jsstring :=
  js (NilEmpty.string_of_uint (N.to_uint n)).

(** *** encodeURIComponent *)

Definition hexDigit (n : N) : N :=
  if n <? 10 then 48 + n else 55 + n.

(** [%XX], upper-case hexadecimal. *)
Definition percent (byte : N) : jsstring :=
  [37; hexDigit (byte / 16); hexDigit (byte mod 16)].

(** A to Z, a to z, 0 to 9 and [- _ . ! ~ * ' ( )] pass unescaped. *)
Definition isUnreserved (c : N) : bool :=
  ((65 <=? c) && (c <=? 90)) || ((97 <=? c) && (c <=? 122))
  || ((48 <=? c) && (c <=? 57))
  || (c =? 45) || (c =? 95) || (c =? 46) || (c =? 33) || (c =? 126)
  || (c =? 42) || (c =? 39) || (c =? 40) || (c =? 41).

(** The UTF-8 bytes of a code point. *)
Definition utf8 (cp : N) : list N :=
  if cp <? 128 then [cp]
  else if cp <? 2048 then [192 + cp / 64; 128 + cp mod 64]
  else if cp <? 65536 then
    [224 + cp / 4096; 128 + (cp / 64) mod 64; 128 + cp mod 64]
  else
    [240 + cp / 262144; 128 + (cp / 4096) mod 64;
     128 + (cp / 64) mod 64; 128 + cp mod 64].

Definition isHighSurrogate (c : N) : bool := (55296 <=? c) && (c <=? 56319).
Definition isLowSurrogate (c : N) : bool := (56320 <=? c) && (c <=? 57343).

Definition codePoint (hi lo : N) : N :=
  65536 + (hi - 55296) * 1024 + (lo - 56320).

(** [encodeURIComponent(s)]; [None] is the URIError thrown at a lone
    surrogate. *)
Fixpoint encodeURIComponent (s : jsstring) : option jsstring :=
  match s with
  | [] => Some []
  | c :: rest =>
      if isUnreserved c then (c ::.) <$> encodeURIComponent rest
      else if isLowSurrogate c then None
      else if isHighSurrogate c then
        match rest with
        | d :: rest' =>
            if isLowSurrogate d then
              (fun r => List.concat (List.map percent (utf8 (codePoint c d))) ++ r)
                <$> encodeURIComponent rest'
            else None
        | [] => None
        end
      else (fun r => List.concat (List.map percent (utf8 c)) ++ r)
             <$> encodeURIComponent rest
  end.

(** The number of bytes of the UTF-8 encoding of a string, the encoding in
    which a JavaScript string goes on the wire (a lone surrogate is sent as
    U+FFFD, three bytes). *)
Fixpoint utf8_length (s : jsstring) : nat :=
  match s with
  | [] => 0%nat
  | c :: rest =>
      if isHighSurrogate c then
        match rest with
        | d :: rest' =>
            if isLowSurrogate d then (4 + utf8_length rest')%nat
            else (3 + utf8_length rest)%nat
        | [] => 3%nat
        end
      else ((if N.ltb c 128 then 1 else if N.ltb c 2048 then 2 else 3)
            + utf8_length rest)%nat
  end.

(** [parts.join("&")] *)
Fixpoint join (sep : jsstring) (parts : list jsstring) : jsstring :=
  match parts with
  | [] => []
  | [p] => p
  | p :: ps => p ++ sep ++ join sep ps
  end.

End JS.

(** ** Regular expressions

    The two anchored patterns of the code are run by a matcher on
    derivatives; [Lang] says what a pattern denotes. *)

Module Regex.

Local Open Scope N_scope.

Inductive re : Type :=
| Void                      (* matches nothing *)
| Eps                       (* the empty string *)
| Chr (c : N)               (* one given code unit *)
| NotIn (cs : list N)       (* a negated class: any code unit not in [cs] *)
| Cat (r1 r2 : re)
| Alt (r1 r2 : re)
| Star (r : re).

(** [r?] *)
Definition Opt (r : re) : re := Alt r Eps.

Fixpoint mem (c : N) (cs : list N) : bool :=
  match cs with
  | [] => false
  | d :: cs' => (c =? d) || mem c cs'
  end.

Fixpoint nullable (r : re) : bool :=
  match r with
  | Void => false
  | Eps => true
  | Chr _ => false
  | NotIn _ => false
  | Cat r1 r2 => nullable r1 && nullable r2
  | Alt r1 r2 => nullable r1 || nullable r2
  | Star _ => true
  end.

Fixpoint deriv (c : N) (r : re) : re :=
  match r with
  | Void => Void
  | Eps => Void
  | Chr d => if c =? d then Eps else Void
  | NotIn cs => if mem c cs then Void else Eps
  | Cat r1 r2 =>
      if nullable r1 then Alt (Cat (deriv c r1) r2) (deriv c r2)
      else Cat (deriv c r1) r2
  | Alt r1 r2 => Alt (deriv c r1) (deriv c r2)
  | Star r1 => Cat (deriv c r1) (Star r1)
  end.

(** [/^r$/.test(s)] *)
Fixpoint test (r : re) (s : jsstring) : bool :=
  match s with
  | [] => nullable r
  | c :: s' => test (deriv c r) s'
  end.

(** [/^r/.test(s)]: some prefix of [s] matches. *)
Fixpoint test_prefix (r : re) (s : jsstring) : bool :=
  nullable r ||
  match s with
  | [] => false
  | c :: s' => test_prefix (deriv c r) s'
  end.

(** The strings a pattern denotes. *)
Inductive Lang : re -> jsstring -> Prop :=
| LEps : Lang Eps []
| LChr c : Lang (Chr c) [c]
| LNotIn c cs : mem c cs = false -> Lang (NotIn cs) [c]
| LCat r1 r2 s1 s2 : Lang r1 s1 -> Lang r2 s2 -> Lang (Cat r1 r2) (s1 ++ s2)
| LAltL r1 r2 s : Lang r1 s -> Lang (Alt r1 r2) s
| LAltR r1 r2 s : Lang r2 s -> Lang (Alt r1 r2) s
| LStarNil r : Lang (Star r) []
| LStarApp r s1 s2 : Lang r s1 -> Lang (Star r) s2 -> Lang (Star r) (s1 ++ s2).

#[local] Hint Constructors Lang : core.

Lemma Lang_cat_inv r1 r2 s :
  Lang (Cat r1 r2) s -> exists s1 s2, s = s1 ++ s2 /\ Lang r1 s1 /\ Lang r2 s2.
Proof. intros H. inversion H; subst. eauto. Qed.

Lemma Lang_alt_inv r1 r2 s : Lang (Alt r1 r2) s -> Lang r1 s \/ Lang r2 s.
Proof. intros H. inversion H; subst; auto. Qed.

Lemma Lang_eps_inv s : Lang Eps s -> s = [].
Proof. intros H. inversion H; subst; auto. Qed.

Lemma Lang_chr_inv c s : Lang (Chr c) s -> s = [c].
Proof. intros H. inversion H; subst; auto. Qed.

Lemma Lang_notin_inv cs s :
  Lang (NotIn cs) s -> exists c, s = [c] /\ mem c cs = false.
Proof. intros H. inversion H; subst; eauto. Qed.

Lemma Lang_void_inv s : ~ Lang Void s.
Proof. intros H. inversion H. Qed.

Lemma nullable_Lang r : nullable r = true <-> Lang r [].
Proof.
  induction r; simpl; split; intros H; try discriminate; auto.
  - destruct (Lang_void_inv _ H).
  - apply Lang_chr_inv in H. discriminate.
  - apply Lang_notin_inv in H as (c & E & _). discriminate.
  - apply andb_true_iff in H as [H1 H2].
    change (@nil N) with (@nil N ++ @nil N). constructor; tauto.
  - apply Lang_cat_inv in H as (s1 & s2 & E & H1 & H2). symmetry in E.
    apply app_eq_nil in E as [-> ->]. apply andb_true_iff; tauto.
  - apply orb_true_iff in H as [H|H]; [apply LAltL|apply LAltR]; tauto.
  - apply orb_true_iff. apply Lang_alt_inv in H. tauto.
Qed.

Lemma Lang_star_cons r c s :
  Lang (Star r) (c :: s) ->
  exists s1 s2, s = s1 ++ s2 /\ Lang r (c :: s1) /\ Lang (Star r) s2.
Proof.
  intros H. remember (Star r) as q eqn:Eq. remember (c :: s) as t eqn:Et.
  revert s Et. induction H as [| | | | | | |q' u1 u2 H1 IH1 H2 IH2];
    intros s' Et; try discriminate.
  injection Eq as ->.
  destruct u1 as [|d u1].
  - simpl in Et. apply IH2; auto.
  - simpl in Et. injection Et as -> <-. eauto.
Qed.

Lemma deriv_Lang c r : forall s, Lang (deriv c r) s <-> Lang r (c :: s).
Proof.
  induction r; simpl; intros s; split; intros H.
  - destruct (Lang_void_inv _ H).
  - destruct (Lang_void_inv _ H).
  - destruct (Lang_void_inv _ H).
  - apply Lang_eps_inv in H. discriminate.
  - destruct (N.eqb_spec c c0) as [->|Hne].
    + apply Lang_eps_inv in H as ->. auto.
    + destruct (Lang_void_inv _ H).
  - apply Lang_chr_inv in H. injection H as -> ->. rewrite N.eqb_refl. auto.
  - destruct (mem c cs) eqn:E.
    + destruct (Lang_void_inv _ H).
    + apply Lang_eps_inv in H as ->. auto.
  - apply Lang_notin_inv in H as (d & E & Hd). injection E as -> ->.
    rewrite Hd. auto.
  - assert (Hcat : forall t, Lang (Cat (deriv c r1) r2) t -> Lang (Cat r1 r2) (c :: t)).
    { intros t Ht. apply Lang_cat_inv in Ht as (s1 & s2 & -> & H1 & H2).
      change (c :: s1 ++ s2) with ((c :: s1) ++ s2).
      constructor; auto. apply IHr1; auto. }
    destruct (nullable r1) eqn:E; auto.
    apply Lang_alt_inv in H as [H|H]; auto.
    change (c :: s) with ([] ++ c :: s). constructor.
    + apply nullable_Lang; auto.
    + apply IHr2; auto.
  - apply Lang_cat_inv in H as (s1 & s2 & Es & H1 & H2).
    destruct s1 as [|d s1]; simpl in Es.
    + subst s2. apply nullable_Lang in H1. rewrite H1.
      apply LAltR. apply IHr2; auto.
    + injection Es as -> ->.
      assert (Lang (Cat (deriv d r1) r2) (s1 ++ s2)).
      { constructor; auto. apply IHr1; auto. }
      destruct (nullable r1); auto.
  - apply Lang_alt_inv in H as [H|H];
      [apply LAltL; apply IHr1|apply LAltR; apply IHr2]; auto.
  - apply Lang_alt_inv in H as [H|H];
      [apply LAltL; apply IHr1|apply LAltR; apply IHr2]; auto.
  - apply Lang_cat_inv in H as (s1 & s2 & -> & H1 & H2).
    change (c :: s1 ++ s2) with ((c :: s1) ++ s2).
    constructor; auto. apply IHr; auto.
  - apply Lang_star_cons in H as (s1 & s2 & -> & H1 & H2).
    constructor; auto. apply IHr; auto.
Qed.

(** The matcher decides the language of the pattern. *)
Lemma test_Lang : forall s r, test r s = true <-> Lang r s.
Proof.
  induction s as [|c s IH]; intros r; simpl.
  - apply nullable_Lang.
  - rewrite IH. apply deriv_Lang.
Qed.

Lemma test_prefix_Lang : forall s r,
  test_prefix r s = true <-> exists p t, s = p ++ t /\ Lang r p.
Proof.
  induction s as [|c s IH]; intros r; simpl.
  - rewrite orb_false_r, nullable_Lang. split.
    + intros H. exists [], []. auto.
    + intros (p & t & E & H). symmetry in E.
      apply app_eq_nil in E as [-> _]. auto.
  - rewrite orb_true_iff, nullable_Lang, IH. split.
    + intros [H|(p & t & -> & H)].
      * exists [], (c :: s). auto.
      * exists (c :: p), t. split; auto. apply deriv_Lang; auto.
    + intros (p & t & E & H). destruct p as [|d p].
      * auto.
      * simpl in E. injection E as <- ->. right.
        exists p, t. split; auto. apply deriv_Lang; auto.
Qed.

End Regex.

(** ** JSON values, [JSON.parse] and [JSON.stringify] *)

(** A value as [JSON.parse] builds it.  An object keeps its own properties
    in JavaScript's property order; a number keeps the literal it was read
    from (JavaScript holds the double the literal denotes, and prints that
    double: the conversion is a parameter of [stringify]). *)
Inductive json : Type :=
| JNull
| JBool (b : bool)
| JNumber (literal : jsstring)
| JString (s : jsstring)
| JArray (elements : list json)
| JObject (properties : list (jsstring * json)).

(** What JavaScript itself throws. *)
Inductive Exception : Type :=
| SyntaxError     (* JSON.parse *)
| TypeError       (* a property set on null or on a primitive, in strict code *)
| RangeError      (* an invalid array length *)
| URIError        (* encodeURIComponent at a lone surrogate *)
| LibraryError.   (* thrown inside the jsonpath-plus library *)

Module JSON.

Local Open Scope N_scope.

Definition isDigit (c : N) : bool := (48 <=? c) && (c <=? 57).

(** *** Own properties of an ordinary object *)

Fixpoint digitsValue (acc : N) (s : jsstring) : option N :=
  match s with
  | [] => Some acc
  | c :: s' => if isDigit c then digitsValue (acc * 10 + (c - 48)) s' else None
  end.

(** An array index: a canonical numeric string below 2^32 - 1. *)
Definition isArrayIndex (k : jsstring) : option N :=
  match k with
  | [] => None
  | c :: rest =>
      if (c =? 48) && negb (JS.eqb rest []) then None
      else match digitsValue 0 k with
           | Some n => if n <? 4294967295 then Some n else None
           | None => None
           end
  end.

Fixpoint get (ps : list (jsstring * json)) (k : jsstring) : option json :=
  match ps with
  | [] => None
  | (k', v) :: ps' => if JS.eqb k' k then Some v else get ps' k
  end.

Definition hasOwn (ps : list (jsstring * json)) (k : jsstring) : bool :=
  match get ps k with Some _ => true | None => false end.

Fixpoint replace (k : jsstring) (v : json) (ps : list (jsstring * json))
  : list (jsstring * json) :=
  match ps with
  | [] => []
  | (k', v') :: ps' =>
      if JS.eqb k' k then (k', v) :: ps' else (k', v') :: replace k v ps'
  end.

(** A new index key goes among the index keys, in ascending order. *)
Fixpoint insertIndex (i : N) (k : jsstring) (v : json)
  (ps : list (jsstring * json)) : list (jsstring * json) :=
  match ps with
  | [] => [(k, v)]
  | (k', v') :: ps' =>
      match isArrayIndex k' with
      | Some j => if i <? j then (k, v) :: ps
                  else (k', v') :: insertIndex i k v ps'
      | None => (k, v) :: ps
      end
  end.

(** Writing an own data property: an existing key keeps its place, a new
    index key is sorted in, any other new key goes last. *)
Definition put (k : jsstring) (v : json) (ps : list (jsstring * json))
  : list (jsstring * json) :=
  if hasOwn ps k then replace k v ps
  else match isArrayIndex k with
       | Some i => insertIndex i k v ps
       | None => ps ++ [(k, v)]
       end.

(** *** The lexer: one pass over the code units *)

Inductive token : Type :=
| TLBrace | TRBrace | TLBracket | TRBracket | TColon | TComma
| TString (s : jsstring)
| TNumber (literal : jsstring)
| TTrue | TFalse | TNull.

(** Where the lexer stands inside a number literal: an optional minus, then
    0 or a digit string with no leading 0, then an optional fraction (a dot
    and digits), then an optional exponent (e or E, a sign, digits). *)
Inductive numstate : Type :=
| NMinus | NZero | NInt | NDot | NFrac | NE | NESign | NExp.

Inductive lstate : Type :=
| LStart                                   (* between tokens *)
| LStr (acc : jsstring)                    (* in a string; [acc] is reversed *)
| LEsc (acc : jsstring)                    (* after a backslash *)
| LUni (acc : jsstring) (digits : list N)  (* after backslash u *)
| LNum (st : numstate) (acc : jsstring)    (* in a number; [acc] is reversed *)
| LWord (rest : jsstring) (t : token).     (* in true, false or null *)

Definition isJSONSpace (c : N) : bool :=
  (c =? 32) || (c =? 9) || (c =? 10) || (c =? 13).

Definition hexValue (c : N) : option N :=
  if isDigit c then Some (c - 48)
  else if (97 <=? c) && (c <=? 102) then Some (c - 87)
  else if (65 <=? c) && (c <=? 70) then Some (c - 55)
  else None.

(** The character an escape stands for (the [u] escape apart). *)
Definition unescape (c : N) : option N :=
  if c =? 34 then Some 34 else if c =? 92 then Some 92
  else if c =? 47 then Some 47 else if c =? 98 then Some 8
  else if c =? 102 then Some 12 else if c =? 110 then Some 10
  else if c =? 114 then Some 13 else if c =? 116 then Some 9
  else None.

(** The first code unit of a token. *)
Definition lexStart (c : N) : option (lstate * list token) :=
  if isJSONSpace c then Some (LStart, [])
  else if c =? 123 then Some (LStart, [TLBrace])
  else if c =? 125 then Some (LStart, [TRBrace])
  else if c =? 91 then Some (LStart, [TLBracket])
  else if c =? 93 then Some (LStart, [TRBracket])
  else if c =? 58 then Some (LStart, [TColon])
  else if c =? 44 then Some (LStart, [TComma])
  else if c =? 34 then Some (LStr [], [])
  else if c =? 45 then Some (LNum NMinus [c], [])
  else if c =? 48 then Some (LNum NZero [c], [])
  else if isDigit c then Some (LNum NInt [c], [])
  else if c =? 116 then Some (LWord (js "rue") TTrue, [])
  else if c =? 102 then Some (LWord (js "alse") TFalse, [])
  else if c =? 110 then Some (LWord (js "ull") TNull, [])
  else None.

(** The literal is over: the code unit starts the next token. *)
Definition lexNumberEnd (acc : jsstring) (c : N) : option (lstate * list token) :=
  match lexStart c with
  | Some (st, toks) => Some (st, TNumber (rev acc) :: toks)
  | None => None
  end.

Definition isExponentMark (c : N) : bool := (c =? 101) || (c =? 69).
Definition isSign (c : N) : bool := (c =? 43) || (c =? 45).

Definition lexNumber (st : numstate) (acc : jsstring) (c : N)
  : option (lstate * list token) :=
  let go st' := Some (LNum st' (c :: acc), []) in
  match st with
  | NMinus => if c =? 48 then go NZero else if isDigit c then go NInt else None
  | NZero => if c =? 46 then go NDot else if isExponentMark c then go NE
             else lexNumberEnd acc c
  | NInt => if isDigit c then go NInt else if c =? 46 then go NDot
            else if isExponentMark c then go NE else lexNumberEnd acc c
  | NDot => if isDigit c then go NFrac else None
  | NFrac => if isDigit c then go NFrac else if isExponentMark c then go NE
             else lexNumberEnd acc c
  | NE => if isSign c then go NESign else if isDigit c then go NExp else None
  | NESign => if isDigit c then go NExp else None
  | NExp => if isDigit c then go NExp else lexNumberEnd acc c
  end.

Definition lexStep (st : lstate) (c : N) : option (lstate * list token) :=
  match st with
  | LStart => lexStart c
  | LStr acc =>
      if c =? 34 then Some (LStart, [TString (rev acc)])
      else if c =? 92 then Some (LEsc acc, [])
      else if c <? 32 then None
      else Some (LStr (c :: acc), [])
  | LEsc acc =>
      if c =? 117 then Some (LUni acc [], [])
      else match unescape c with
           | Some u => Some (LStr (u :: acc), [])
           | None => None
           end
  | LUni acc ds =>
      match hexValue c, ds with
      | Some d, [d1; d2; d3] =>
          Some (LStr (((d1 * 16 + d2) * 16 + d3) * 16 + d :: acc), [])
      | Some d, _ => Some (LUni acc (ds ++ [d]), [])
      | None, _ => None
      end
  | LNum ns acc => lexNumber ns acc c
  | LWord rest t =>
      match rest with
      | x :: rest' =>
          if c =? x then
            match rest' with
            | [] => Some (LStart, [t])
            | _ => Some (LWord rest' t, [])
            end
          else None
      | [] => None
      end
  end.

(** The end of the text: only between tokens, or after a complete number. *)
Definition lexEnd (st : lstate) : option (list token) :=
  match st with
  | LStart => Some []
  | LNum NZero acc | LNum NInt acc | LNum NFrac acc | LNum NExp acc =>
      Some [TNumber (rev acc)]
  | _ => None
  end.

Fixpoint lexFrom (st : lstate) (s : jsstring) : option (list token) :=
  match s with
  | [] => lexEnd st
  | c :: s' =>
      match lexStep st c with
      | Some (st', toks) => (toks ++.) <$> lexFrom st' s'
      | None => None
      end
  end.

Definition lex (s : jsstring) : option (list token) := lexFrom LStart s.

(** *** The parser: a stack of open containers *)

Inductive frame : Type :=
| FArray (done : list json)
| FObject (done : list (jsstring * json)) (key : jsstring).

Inductive pstate : Type :=
| PValue (stack : list frame)                 (* a value must come *)
| PArrayStart (stack : list frame)            (* after [[]: a value or []] *)
| PArrayNext (done : list json) (stack : list frame)
| PObjectStart (stack : list frame)           (* after an opening brace *)
| PObjectKey (done : list (jsstring * json)) (stack : list frame)
| PObjectColon (done : list (jsstring * json)) (key : jsstring)
    (stack : list frame)
| PObjectNext (done : list (jsstring * json)) (stack : list frame)
| PDone (v : json).

(** A value is complete: it goes into the innermost open container. *)
Definition reduce (v : json) (stack : list frame) : pstate :=
  match stack with
  | [] => PDone v
  | FArray done :: stack' => PArrayNext (done ++ [v]) stack'
  | FObject done k :: stack' => PObjectNext (put k v done) stack'
  end.

Definition beginValue (t : token) (stack : list frame) : option pstate :=
  match t with
  | TLBrace => Some (PObjectStart stack)
  | TLBracket => Some (PArrayStart stack)
  | TString s => Some (reduce (JString s) stack)
  | TNumber l => Some (reduce (JNumber l) stack)
  | TTrue => Some (reduce (JBool true) stack)
  | TFalse => Some (reduce (JBool false) stack)
  | TNull => Some (reduce JNull stack)
  | _ => None
  end.

Definition parseStep (st : pstate) (t : token) : option pstate :=
  match st, t with
  | PValue stack, _ => beginValue t stack
  | PArrayStart stack, TRBracket => Some (reduce (JArray []) stack)
  | PArrayStart stack, _ => beginValue t (FArray [] :: stack)
  | PArrayNext done stack, TComma => Some (PValue (FArray done :: stack))
  | PArrayNext done stack, TRBracket => Some (reduce (JArray done) stack)
  | PObjectStart stack, TRBrace => Some (reduce (JObject []) stack)
  | PObjectStart stack, TString k => Some (PObjectColon [] k stack)
  | PObjectKey done stack, TString k => Some (PObjectColon done k stack)
  | PObjectColon done k stack, TColon => Some (PValue (FObject done k :: stack))
  | PObjectNext done stack, TComma => Some (PObjectKey done stack)
  | PObjectNext done stack, TRBrace => Some (reduce (JObject done) stack)
  | _, _ => None
  end.

Fixpoint parseTokens (st : pstate) (ts : list token) : option json :=
  match ts with
  | [] => match st with PDone v => Some v | _ => None end
  | t :: ts' =>
      match parseStep st t with
      | Some st' => parseTokens st' ts'
      | None => None
      end
  end.

(** [JSON.parse(text)]; [None] is the SyntaxError. *)
Definition parse (text : jsstring) : option json :=
  match lex text with
  | Some ts => parseTokens (PValue []) ts
  | None => None
  end.

(** *** [JSON.stringify] *)

Definition lowerHex (n : N) : N := if n <? 10 then 48 + n else 87 + n.

(** [\uXXXX], lower-case hexadecimal. *)
Definition unicodeEscape (c : N) : jsstring :=
  [92; 117; lowerHex (c / 4096); lowerHex ((c / 256) mod 16);
   lowerHex ((c / 16) mod 16); lowerHex (c mod 16)].

Definition quoteUnit (c : N) : jsstring :=
  if c =? 34 then [92; 34] else if c =? 92 then [92; 92]
  else if c =? 8 then [92; 98] else if c =? 12 then [92; 102]
  else if c =? 10 then [92; 110] else if c =? 13 then [92; 114]
  else if c =? 9 then [92; 116]
  else if c <? 32 then unicodeEscape c
  else [c].

(** The inside of a quoted string: a surrogate pair stays, a lone surrogate
    is escaped. *)
Fixpoint quoteUnits (s : jsstring) : jsstring :=
  match s with
  | [] => []
  | c :: rest =>
      if JS.isHighSurrogate c then
        match rest with
        | d :: rest' =>
            if JS.isLowSurrogate d then c :: d :: quoteUnits rest'
            else unicodeEscape c ++ quoteUnits rest
        | [] => unicodeEscape c
        end
      else if JS.isLowSurrogate c then unicodeEscape c ++ quoteUnits rest
      else quoteUnit c ++ quoteUnits rest
  end.

Definition quote (s : jsstring) : jsstring := [34] ++ quoteUnits s ++ [34].

(** [JSON.stringify(v)], with [numberToString] the text JavaScript prints
    for the number a literal denotes. *)
Fixpoint stringify (numberToString : jsstring -> jsstring) (v : json)
  : jsstring :=
  match v with
  | JNull => js "null"
  | JBool true => js "true"
  | JBool false => js "false"
  | JNumber l => numberToString l
  | JString s => quote s
  | JArray vs =>
      js "[" ++ JS.join (js ",") (List.map (stringify numberToString) vs)
      ++ js "]"
  | JObject ps =>
      js "{"
      ++ JS.join (js ",")
           (List.map (fun kv => quote (fst kv) ++ js ":"
                                ++ stringify numberToString (snd kv)) ps)
      ++ js "}"
  end.

End JSON.

(** *** Property assignment, [target[k] = v] with [v] a string

    The code assigns string values only.  On an ordinary object an assignment
    writes an own property, except that [__proto__], when it is not an own
    property, reaches the setter of [Object.prototype], which ignores a
    string.  [null] has no properties (TypeError); a primitive takes none in
    strict code (TypeError), the inherited [__proto__] setter apart.  An array
    takes an index (growing with holes, which [JSON.stringify] prints as
    [null]) and its [length]; any other key becomes a property that
    [JSON.stringify] does not print. *)

Module Assign.

Local Open Scope N_scope.

Definition proto : jsstring := js "__proto__".

(** [elements[i] = v] *)
Definition setIndex (elements : list json) (i : N) (v : json) : list json :=
  let n := N.to_nat i in
  if (n <? length elements)%nat then <[n := v]> elements
  else elements ++ replicate (n - length elements) JNull ++ [v].

(** [elements.length = n] *)
Definition setLength (elements : list json) (n : N) : list json :=
  let n := N.to_nat n in
  take n elements ++ replicate (n - length elements) JNull.

(** [toArrayLength v] is the length the string [v] denotes for the [length]
    setter of an array: [Some n] when its number value is the integer [n]
    below 2^32, [None] when the setter throws RangeError. *)
Definition set (toArrayLength : jsstring -> option N)
  (target : json) (k v : jsstring) : Exception + json :=
  match target with
  | JNull => inl TypeError
  | JObject ps =>
      if JS.eqb k proto && negb (JSON.hasOwn ps k) then inr target
      else inr (JObject (JSON.put k (JString v) ps))
  | JArray es =>
      match JSON.isArrayIndex k with
      | Some i => inr (JArray (setIndex es i (JString v)))
      | None =>
          if JS.eqb k (js "length") then
            match toArrayLength v with
            | Some n => inr (JArray (setLength es n))
            | None => inl RangeError
            end
          else inr target
      end
  | JBool _ | JNumber _ | JString _ =>
      if JS.eqb k proto then inr target else inl TypeError
  end.

(** [Object.assign(target, source)]: the own properties of [source], in
    order, each assigned to [target]. *)
Fixpoint assign (toArrayLength : jsstring -> option N)
  (target : json) (source : list (jsstring * jsstring)) : Exception + json :=
  match source with
  | [] => inr target
  | (k, v) :: source' =>
      match set toArrayLength target k v with
      | inr target' => assign toArrayLength target' source'
      | inl e => inl e
      end
  end.

(** The value at a member path inside a value. *)
Fixpoint at_path (v : json) (path : list jsstring) : option json :=
  match path with
  | [] => Some v
  | k :: path' =>
      match v with
      | JObject ps =>
          match JSON.get ps k with
          | Some child => at_path child path'
          | None => None
          end
      | JArray es =>
          match JSON.isArrayIndex k with
          | Some i =>
              match es !! N.to_nat i with
              | Some child => at_path child path'
              | None => None
              end
          | None => None
          end
      | _ => None
      end
  end.

(** The value with the member at [path] replaced by [new]. *)
Fixpoint update_path (v : json) (path : list jsstring) (new : json) : json :=
  match path with
  | [] => new
  | k :: path' =>
      match v with
      | JObject ps =>
          match JSON.get ps k with
          | Some child =>
              JObject (JSON.replace k (update_path child path' new) ps)
          | None => v
          end
      | JArray es =>
          match JSON.isArrayIndex k with
          | Some i =>
              match es !! N.to_nat i with
              | Some child =>
                  JArray (<[N.to_nat i := update_path child path' new]> es)
              | None => v
              end
          | None => v
          end
      | _ => v
      end
  end.

End Assign.

(** ** The store, the engine instance and the world around it *)

(** A reference to an object of the store. *)
Abbreviation loc := positive.

(** The [Request] of the shared types: the fields the engine reads or
    writes, and the target URL.  [headers] is a reference: a request and its
    copy may point at the same header object, and two header objects at the
    same value array. *)
Module Request.
Record t : Type := mk {
  id : jsstring;
  context : option jsstring;
  url : jsstring;
  query : jsstring;
  body : jsstring;
  headers : loc;
}.
Definition set_query (q : jsstring) (r : t) : t :=
  mk (id r) (context r) (url r) q (body r) (headers r).
Definition set_body (b : jsstring) (r : t) : t :=
  mk (id r) (context r) (url r) (query r) b (headers r).
End Request.

(** The [Parameter] of the shared types, a candidate to inject. *)
Module Param.
Record t : Type := mk { name : jsstring; value : jsstring }.
End Param.

(** The [RequestContext] label the engine compares against. *)
Definition discovery : jsstring := js "discovery".

Module BodyType.
Inductive t : Type := json | query | multipart | xml.
#[global] Instance eq_dec : EqDecision t.
Proof. solve_decision. Defined.
(** The text of the tag, as the log message prints it. *)
Definition toString (b : t) : jsstring :=
  match b with
  | json => js "json"
  | query => js "query"
  | multipart => js "multipart"
  | xml => js "xml"
  end.
End BodyType.

Module AttackType.
(** [other] stands for any value of the configuration that the [switch] of
    the dispatcher has no case for. *)
Inductive t : Type := query | headers | body | other.
End AttackType.

(** [paramMiner.config], as far as the engine reads it. *)
Module Config.
Record t : Type := mk {
  attackType : AttackType.t;
  cacheBusterParameter : bool;
  addCacheBusterParameter : bool;
  updateContentLength : bool;
  autopilotEnabled : bool;
  jsonBodyPath : option jsstring;
}.
End Config.

Module ParamMiner.
Record t : Type := mk { config : Config.t; id : jsstring }.
End ParamMiner.

(** An object of the store. *)
Inductive Cell : Type :=
| RequestCell (r : Request.t)
| HeadersCell (h : gmap jsstring loc)     (* header name to value array *)
| ArrayCell (a : list jsstring).          (* a header value sequence *)

(** A request as the transport reads it when it is sent. *)
Record Snapshot : Type := {
  sent : Request.t;
  sentHeaders : gmap jsstring (list jsstring);
}.

(** What the transport answers; the engine passes it on unread. *)
Record Response : Type := { raw : jsstring }.

(** What the engine does to the world around it, in order. *)
Inductive Event : Type :=
| Debug (message : jsstring)                 (* eventEmitter.emit("debug", _) *)
| ApiSend (channel minerId message : jsstring)         (* sdk.api.send(_) *)
| GenerateID
| DateNow
| SendRequest (request : Snapshot)
| AutopilotCheckResponse (response : Response)
| ConsoleLog (message : jsstring).

(** The error a call ends with: an exception of JavaScript, or one of the
    [Error]s the engine throws, named after its message. *)
Inductive Error : Type :=
| Exn (e : Exception)
| UnsupportedBodyType                        (* "Unsupported body type." *)
| FailedToHandleJSONBody (cause : Error)     (* "Failed to handle JSON body: _" *)
| MissingContentTypeHeader                   (* "Missing Content-Type header" *)
| MissingMultipartBoundary                   (* "Missing multipart boundary" *)
| InvalidMultipartBody     (* "Invalid multipart body: cannot find final boundary" *)
| UnsupportedBodyTypeDetected.               (* "Unsupported body type detected." *)

(** What [JSONPath({path, json, wrap: false})] hands back. *)
Inductive Target : Type :=
| NoMatch                          (* [undefined] *)
| Node (path : list jsstring)      (* the one matched value itself, found at
                                      this member path inside the body *)
| Matches (values : list json).    (* a new array of the matched values *)

(** The state: the store, the two fields of the [Requester] instance, and
    the events so far. *)
Record World : Type := {
  store : gmap loc Cell;
  bodyType : option BodyType.t;
  multipartBoundary : option jsstring;
  events : list Event;
}.

(** The collaborators of the engine that requester.ts does not define.  Each
    answer may depend on everything that happened before. *)
Class Host : Type := {
  (* JavaScript: the text of the number a JSON literal denotes, and the
     length a string denotes for an array (see [Assign.set]) *)
  numberToString : jsstring -> jsstring;
  toArrayLength : jsstring -> option N;
  (* jsonpath-plus *)
  JSONPath : jsstring -> json -> Exception + Target;
  (* util/helper, the clock, requests/requests, features/autopilot *)
  generateID : list Event -> jsstring;
  Date_now : list Event -> N;
  sendRequest : Snapshot -> list Event -> Response;
  autopilotCheckResponse : Response -> list Event -> bool;
}.

(** ** Computations: state and exceptions *)

Inductive Result (A : Type) : Type :=
| Return (a : A)
| Throw (e : Error).
Arguments Return {A} a.
Arguments Throw {A} e.

Definition M (A : Type) : Type := World -> Result A * World.

Definition ret {A} (a : A) : M A := fun w => (Return a, w).

Definition bind {A B} (m : M A) (k : A -> M B) : M B :=
  fun w => match m w with
           | (Return a, w') => k a w'
           | (Throw e, w') => (Throw e, w')
           end.

Definition throw {A} (e : Error) : M A := fun w => (Throw e, w).

(** [try { m } catch (error) { handler error }] *)
Definition tryCatch {A} (m : M A) (handler : Error -> M A) : M A :=
  fun w => match m w with
           | (Throw e, w') => handler e w'
           | r => r
           end.

Declare Scope js_scope.
Delimit Scope js_scope with M.
Notation "x <- m ;; k" := (bind m (fun x => k))
  (at level 100, m at next level, right associativity) : js_scope.
Notation "m ;; k" := (bind m (fun _ => k))
  (at level 100, k at level 200, right associativity) : js_scope.
Local Open Scope js_scope.

(** An exception of JavaScript raised by a pure step. *)
Definition liftE {A} (r : Exception + A) : M A :=
  match r with inr a => ret a | inl e => throw (Exn e) end.

Definition getWorld : M World := fun w => (Return w, w).

Definition emit (e : Event) : M unit :=
  fun w => (Return tt, {| store := store w; bodyType := bodyType w;
                          multipartBoundary := multipartBoundary w;
                          events := events w ++ [e] |}).

Definition setStore (s : gmap loc Cell) : M unit :=
  fun w => (Return tt, {| store := s; bodyType := bodyType w;
                          multipartBoundary := multipartBoundary w;
                          events := events w |}).

(** [this.bodyType = b] *)
Definition setBodyType (b : BodyType.t) : M unit :=
  fun w => (Return tt, {| store := store w; bodyType := Some b;
                          multipartBoundary := multipartBoundary w;
                          events := events w |}).

(** [this.multipartBoundary = b] *)
Definition setMultipartBoundary (b : jsstring) : M unit :=
  fun w => (Return tt, {| store := store w; bodyType := bodyType w;
                          multipartBoundary := Some b;
                          events := events w |}).

(** A new object. *)
Definition alloc (c : Cell) : M loc :=
  fun w => let l := fresh (dom (store w)) in
           (Return l, {| store := <[l := c]> (store w); bodyType := bodyType w;
                         multipartBoundary := multipartBoundary w;
                         events := events w |}).

Definition write (l : loc) (c : Cell) : M unit :=
  w <- getWorld ;; setStore (<[l := c]> (store w)).

(** Reading through a reference; a reference that holds no such object is
    JavaScript's property access on [undefined]. *)
Definition readRequest (l : loc) : M Request.t :=
  w <- getWorld ;;
  match store w !! l with
  | Some (RequestCell r) => ret r
  | _ => throw (Exn TypeError)
  end.

Definition readHeaders (l : loc) : M (gmap jsstring loc) :=
  w <- getWorld ;;
  match store w !! l with
  | Some (HeadersCell h) => ret h
  | _ => throw (Exn TypeError)
  end.

Definition readArray (l : loc) : M (list jsstring) :=
  w <- getWorld ;;
  match store w !! l with
  | Some (ArrayCell a) => ret a
  | _ => throw (Exn TypeError)
  end.

(** [request.headers[name]?.[0]] *)
Definition headerFirst (request : loc) (name : jsstring) : M (option jsstring) :=
  r <- readRequest request ;;
  h <- readHeaders (Request.headers r) ;;
  match h !! name with
  | Some a => values <- readArray a ;; ret (head values)
  | None => ret None
  end.

(** [request.headers[name] = [value]]: a new array, written into the header
    object of the request.  Under the name [__proto__] the assignment
    replaces the own property of that name when the header object has one
    (an object made by [JSON.parse] or by a spread can); when it has none,
    the assignment reaches the prototype setter and the object gets no own
    property. *)
Definition setHeader (request : loc) (name value : jsstring) : M unit :=
  r <- readRequest request ;;
  a <- alloc (ArrayCell [value]) ;;
  h <- readHeaders (Request.headers r) ;;
  if JS.eqb name Assign.proto && negb (bool_decide (is_Some (h !! name)))
  then ret tt
  else write (Request.headers r) (HeadersCell (<[name := a]> h)).

(** [request.body = body] *)
Definition setBody (request : loc) (body : jsstring) : M unit :=
  r <- readRequest request ;;
  write request (RequestCell (Request.set_body body r)).

(** [request.query = query] *)
Definition setQuery (request : loc) (query : jsstring) : M unit :=
  r <- readRequest request ;;
  write request (RequestCell (Request.set_query query r)).

(** [delete request.headers[name]] *)
Definition deleteHeader (request : loc) (name : jsstring) : M unit :=
  r <- readRequest request ;;
  h <- readHeaders (Request.headers r) ;;
  write (Request.headers r) (HeadersCell (delete name h)).

(** [for (const x of xs) f x], and [xs.forEach(f)] *)
Fixpoint forEach {A} (xs : list A) (f : A -> M unit) : M unit :=
  match xs with
  | [] => ret tt
  | x :: xs' => f x ;; forEach xs' f
  end.

(** A non-empty string is truthy. *)
Definition truthy (s : jsstring) : bool := negb (JS.eqb s []).

(** ** [class Requester] *)

(** [/^(?:[^=&]*=[^=&]*&?)*$/] *)
Definition queryRegex : Regex.re :=
  let notEqAmp := Regex.Star (Regex.NotIn [61; 38]%N) in
  Regex.Star
    (Regex.Cat notEqAmp
       (Regex.Cat (Regex.Chr 61)
          (Regex.Cat notEqAmp (Regex.Opt (Regex.Chr 38))))).

(** [/^<[^?!]/] *)
Definition xmlRootRegex : Regex.re :=
  Regex.Cat (Regex.Chr 60) (Regex.NotIn [63; 33]%N).

(** The code units that [.] of a regular expression does not match. *)
Definition isLineTerminator (c : N) : bool :=
  (c =? 10)%N || (c =? 13)%N || (c =? 8232)%N || (c =? 8233)%N.

(** The longest run that [.+] can take at the head of [s]. *)
Fixpoint dotRun (s : jsstring) : jsstring :=
  match s with
  | [] => []
  | c :: s' => if isLineTerminator c then [] else c :: dotRun s'
  end.

(** [s.match(/boundary=(.+)/)]: group 1 of the leftmost match, [None] when
    there is no match. *)
Fixpoint boundaryMatch (s : jsstring) : option jsstring :=
  let here :=
    if JS.startsWith s (js "boundary=") then
      match dotRun (drop 9 s) with
      | [] => None
      | g => Some g
      end
    else None in
  match here with
  | Some g => Some g
  | None => match s with
            | [] => None
            | _ :: s' => boundaryMatch s'
            end
  end.

(** [parameters.map((p) => `${encodeURIComponent(p.name)}=${encodeURIComponent(p.value)}`)] *)
Fixpoint encodePairs (parameters : list Param.t) : option (list jsstring) :=
  match parameters with
  | [] => Some []
  | p :: rest =>
      match JS.encodeURIComponent (Param.name p),
            JS.encodeURIComponent (Param.value p) with
      | Some n, Some v =>
          match encodePairs rest with
          | Some pairs => Some ((n ++ js "=" ++ v) :: pairs)
          | None => None
          end
      | _, _ => None
      end
  end.

(** The same, joined with [&]; the URIError is thrown to the caller. *)
Definition encodeParams (parameters : list Param.t) : M jsstring :=
  match encodePairs parameters with
  | Some pairs => ret (JS.join (js "&") pairs)
  | None => throw (Exn URIError)
  end.

(** One part of a multipart body. *)
Definition multipartPart (boundary : jsstring) (p : Param.t) : jsstring :=
  js "--" ++ boundary ++ [13; 10]%N
  ++ js "Content-Disposition: form-data; name=" ++ [34%N] ++ Param.name p
  ++ [34%N] ++ [13; 10; 13; 10]%N ++ Param.value p ++ [13; 10]%N.

(** [parameters.reduce((acc, param) => ({...acc, [param.name]: param.value}), {})],
    as the list of its own properties. *)
Definition paramsToInject (parameters : list Param.t) : list (jsstring * jsstring) :=
  let props :=
    fold_left (fun acc p => JSON.put (Param.name p) (JString (Param.value p)) acc)
      parameters [] in
  omap (fun kv => match snd kv with
                  | JString v => Some (fst kv, v)
                  | _ => None
                  end) props.

Section Requester.

Context {host : Host}.

(** The [paramMiner] the instance was constructed with. *)
Variable paramMiner : ParamMiner.t.

Definition config : Config.t := ParamMiner.config paramMiner.

Definition isJSONBody (body : jsstring) : bool :=
  match JSON.parse body with
  | Some _ => true
  | None => false
  end.

Definition isQueryBody (body : jsstring) : bool :=
  Regex.test queryRegex body.

Definition isXMLBody (body : jsstring) : bool :=
  let trimmedBody := JS.trim body in
  (JS.startsWith trimmedBody (js "<?xml")
   || Regex.test_prefix xmlRootRegex trimmedBody)
  && JS.includes trimmedBody (js ">").

Definition handleQueryParameters (request : loc) (parameters : list Param.t)
  : M unit :=
  queryParams <- encodeParams parameters ;;
  r <- readRequest request ;;
  setQuery request
    (if truthy (Request.query r)
     then Request.query r ++ js "&" ++ queryParams
     else queryParams).

Definition now : M N :=
  w <- getWorld ;; emit DateNow ;; ret (Date_now (events w)).

Definition handleCacheBusterParameter (request : loc) : M unit :=
  t1 <- now ;;
  t2 <- now ;;
  let cacheBusterParam :=
    js "cb" ++ JS.Number_toString t1 ++ js "=" ++ JS.Number_toString t2 in
  r <- readRequest request ;;
  setQuery request
    (if truthy (Request.query r)
     then Request.query r ++ js "&" ++ cacheBusterParam
     else cacheBusterParam).

Definition handleHeaderParameters (request : loc) (parameters : list Param.t)
  : M unit :=
  forEach parameters
    (fun p => setHeader request (Param.name p) (Param.value p)).

Definition determineBodyType (body : jsstring) (contentType : option jsstring)
  : M unit :=
  (match contentType with
   | Some contentType =>
       if truthy contentType then
         if JS.includes contentType (js "application/json") then
           setBodyType BodyType.json
         else if JS.includes contentType (js "application/x-www-form-urlencoded") then
           setBodyType BodyType.query
         else if JS.includes contentType (js "multipart/form-data") then
           setBodyType BodyType.multipart
         else if JS.includes contentType (js "application/xml")
                 || JS.includes contentType (js "text/xml") then
           setBodyType BodyType.xml
         else ret tt
       else ret tt
   | None => ret tt
   end) ;;
  w <- getWorld ;;
  (match bodyType w with
   | None =>
       if isJSONBody body then setBodyType BodyType.json
       else if isQueryBody body then setBodyType BodyType.query
       else if isXMLBody body then setBodyType BodyType.xml
       else throw UnsupportedBodyTypeDetected
   | Some _ => ret tt
   end) ;;
  w <- getWorld ;;
  emit (ApiSend (js "paramfinder:log") (ParamMiner.id paramMiner)
          (js "Determined body format: "
           ++ match bodyType w with
              | Some b => BodyType.toString b
              | None => js "null"
              end)).

(** The value a [Target] stands for; [None] is [undefined]. *)
Definition targetValue (bodyObj : json) (target : Target) : option json :=
  match target with
  | NoMatch => None
  | Node path => Assign.at_path bodyObj path
  | Matches values => Some (JArray values)
  end.

(** [target && typeof target === "object"] *)
Definition isObject (target : option json) : bool :=
  match target with
  | Some (JObject _) | Some (JArray _) => true
  | _ => false
  end.

(** The body object once [target] was assigned to in place: a matched node
    is part of the body object, an array of matches is not. *)
Definition assigned (bodyObj : json) (target : Target) (new : json) : json :=
  match target with
  | Node path => Assign.update_path bodyObj path new
  | _ => bodyObj
  end.

(** The body object after the parameters went in: the [if (jsonPath)]
    statement of [handleJSONBody]. *)
Definition injectJSON (bodyObj : json) (parameters : list Param.t)
  : Exception + json :=
  let jsonPath := Config.jsonBodyPath config in
  if truthy (default [] jsonPath) then
    let jsonPath := default [] jsonPath in
    let jsonPath :=
      if JS.startsWith jsonPath (js "$") then jsonPath
      else js "$." ++ jsonPath in
    let paramsToInject := paramsToInject parameters in
    match JSONPath jsonPath bodyObj with
    | inl e => inl e
    | inr target =>
        if isObject (targetValue bodyObj target) then
          match Assign.assign toArrayLength
                  (default JNull (targetValue bodyObj target)) paramsToInject with
          | inr new => inr (assigned bodyObj target new)
          | inl e => inl e
          end
        else inr bodyObj
    end
  else
    (* If no path specified, add parameters to root *)
    Assign.assign toArrayLength bodyObj
      (List.map (fun p => (Param.name p, Param.value p)) parameters).

Definition handleJSONBody (request : loc) (parameters : list Param.t)
  (originalBody : jsstring) : M unit :=
  tryCatch
    (bodyObj <- (if truthy originalBody then
                   match JSON.parse originalBody with
                   | Some v => ret v
                   | None => throw (Exn SyntaxError)
                   end
                 else ret (JObject [])) ;;
     bodyObj <- liftE (injectJSON bodyObj parameters) ;;
     setBody request (JSON.stringify numberToString bodyObj) ;;
     setHeader request (js "content-type") (js "application/json"))
    (fun error => throw (FailedToHandleJSONBody error)).

Definition handleQueryBody (request : loc) (parameters : list Param.t)
  (originalBody : jsstring) : M unit :=
  let existingParams :=
    if truthy originalBody then originalBody ++ js "&" else [] in
  newParams <- encodeParams parameters ;;
  setBody request (existingParams ++ newParams) ;;
  setHeader request (js "content-type") (js "application/x-www-form-urlencoded").

Definition handleMultipartBody (request : loc) (parameters : list Param.t)
  (originalBody : jsstring) : M unit :=
  originalContentType <- headerFirst request (js "Content-Type") ;;
  match originalContentType with
  | None => throw MissingContentTypeHeader
  | Some originalContentType =>
      if negb (truthy originalContentType) then throw MissingContentTypeHeader
      else
        match boundaryMatch originalContentType with
        | None => throw MissingMultipartBoundary
        | Some boundary =>
            let finalBoundary := js "--" ++ boundary ++ js "--" in
            match JS.indexOf originalBody finalBoundary with
            | None => throw InvalidMultipartBody
            | Some finalIndex =>
                let bodyUpToFinalBoundary := JS.slice0 originalBody finalIndex in
                let bodyUpToFinalBoundary :=
                  if negb (JS.endsWith bodyUpToFinalBoundary [13; 10]%N)
                  then bodyUpToFinalBoundary ++ [13; 10]%N
                  else bodyUpToFinalBoundary in
                let bodyUpToFinalBoundary :=
                  fold_left (fun acc p => acc ++ multipartPart boundary p)
                    parameters bodyUpToFinalBoundary in
                let bodyUpToFinalBoundary :=
                  bodyUpToFinalBoundary ++ finalBoundary in
                setBody request bodyUpToFinalBoundary ;;
                setHeader request (js "Content-Type") originalContentType ;;
                setMultipartBoundary boundary
            end
        end
  end.

Definition handleBodyParameters (request : loc) (parameters : list Param.t)
  : M unit :=
  r <- readRequest request ;;
  let originalBody := Request.body r in
  contentType <- headerFirst request (js "Content-Type") ;;
  let contentType := JS.toLowerCase <$> contentType in
  w <- getWorld ;;
  (match bodyType w with
   | None => determineBodyType originalBody contentType
   | Some _ => ret tt
   end) ;;
  w <- getWorld ;;
  match bodyType w with
  | Some BodyType.json => handleJSONBody request parameters originalBody
  | Some BodyType.query => handleQueryBody request parameters originalBody
  | Some BodyType.multipart => handleMultipartBody request parameters originalBody
  | _ => throw UnsupportedBodyType
  end.

Definition updateContentLength (request : loc) : M unit :=
  r <- readRequest request ;;
  let contentLength := length (Request.body r) in
  if (contentLength =? 0)%nat then deleteHeader request (js "Content-Length")
  else setHeader request (js "Content-Length")
         (JS.Number_toString (N.of_nat contentLength)).

(** The request behind a reference, as the transport reads it. *)
Definition snapshot (request : loc) : M Snapshot :=
  r <- readRequest request ;;
  h <- readHeaders (Request.headers r) ;;
  w <- getWorld ;;
  ret {| sent := r;
         sentHeaders :=
           omap (fun a => match store w !! a with
                          | Some (ArrayCell values) => Some values
                          | _ => None
                          end) h |}.

(** [Object.keys(requestCopy).length]: the fields of [Request.t]. *)
Definition requestCopyKeys : N := 6.

Definition sendRequestWithParams (request : loc) (parameters : list Param.t)
  (context : option jsstring) : M Response :=
  let attackType := Config.attackType config in
  r <- readRequest request ;;
  w <- getWorld ;;
  emit GenerateID ;;
  let newId := generateID (events w) in
  headers <- readHeaders (Request.headers r) ;;
  headersCopy <- alloc (HeadersCell headers) ;;
  requestCopy <-
    alloc (RequestCell
             (Request.mk newId (Some (default discovery context))
                (Request.url r) (Request.query r) (Request.body r)
                headersCopy)) ;;
  emit (Debug (js "[requester.ts] Sending request with "
               ++ JS.Number_toString (N.of_nat (length parameters))
               ++ js " parameters... (requestCopy has "
               ++ JS.Number_toString requestCopyKeys ++ js " parameters)")) ;;
  (match attackType with
   | AttackType.query =>
       handleQueryParameters requestCopy parameters ;;
       if Config.cacheBusterParameter config
          || Config.addCacheBusterParameter config
       then handleCacheBusterParameter requestCopy
       else ret tt
   | AttackType.headers =>
       handleHeaderParameters requestCopy parameters ;;
       if Config.cacheBusterParameter config
          || Config.addCacheBusterParameter config
       then handleCacheBusterParameter requestCopy
       else ret tt
   | AttackType.body => handleBodyParameters requestCopy parameters
   | AttackType.other => ret tt
   end) ;;
  (if Config.updateContentLength config then updateContentLength requestCopy
   else ret tt) ;;
  outgoing <- snapshot requestCopy ;;
  w <- getWorld ;;
  emit (SendRequest outgoing) ;;
  let requestResponse := sendRequest outgoing (events w) in
  (if Config.autopilotEnabled config
      && bool_decide (context = Some discovery)
   then
     w <- getWorld ;;
     emit (AutopilotCheckResponse requestResponse) ;;
     let hasTakenAction := autopilotCheckResponse requestResponse (events w) in
     if hasTakenAction then emit (ConsoleLog (js "Autopilot has taken action."))
     else ret tt
   else ret tt) ;;
  ret requestResponse.

End Requester.

(** ** A host to run the engine in

    The theorems below hold for every [Host].  This one gives their examples
    something to run in: integer literals print as they are read, a string of
    digits is the length it spells, a path is the root marker followed by
    member names ([$], [$.a.b]), identifiers count up, the clock ticks with
    every event, and the transport answers every request alike.  On a number
    with a fraction or an exponent, and on any other path expression, it is
    not what JavaScript or jsonpath-plus do. *)

Module ExampleHost.

Fixpoint splitOn (sep : N) (s : jsstring) : list jsstring :=
  match s with
  | [] => [[]]
  | c :: s' =>
      if (c =? sep)%N then [] :: splitOn sep s'
      else match splitOn sep s' with
           | seg :: segs => (c :: seg) :: segs
           | [] => [[c]]
           end
  end.

Definition isNameUnit (c : N) : bool :=
  JS.isUnreserved c && negb ((c =? 46)%N || (c =? 42)%N || (c =? 40)%N
                             || (c =? 41)%N || (c =? 33)%N || (c =? 126)%N
                             || (c =? 39)%N).

Definition simplePath (path : jsstring) (bodyObj : json) : Exception + Target :=
  match path with
  | 36%N :: rest =>
      match rest with
      | [] => inr (Node [])
      | 46%N :: names =>
          let segments := splitOn 46 names in
          if forallb (fun seg => negb (JS.eqb seg []) && forallb isNameUnit seg)
               segments
          then match Assign.at_path bodyObj segments with
               | Some _ => inr (Node segments)
               | None => inr NoMatch
               end
          else inl LibraryError
      | _ => inl LibraryError
      end
  | _ => inl LibraryError
  end.

Definition digitsLength (v : jsstring) : option N :=
  match v with
  | [] => None
  | _ => match JSON.digitsValue 0 v with
         | Some n => if (n <? 4294967296)%N then Some n else None
         | None => None
         end
  end.

Definition countIDs (evs : list Event) : nat :=
  length (List.filter (fun e => match e with GenerateID => true | _ => false end) evs).

Definition host (didAct : bool) : Host := {|
  numberToString := fun literal => literal;
  toArrayLength := digitsLength;
  JSONPath := simplePath;
  generateID := fun evs => js "copy-" ++ JS.Number_toString (N.of_nat (countIDs evs));
  Date_now := fun evs => (1700000000000 + N.of_nat (length evs))%N;
  sendRequest := fun _ _ => {| raw := js "HTTP/1.1 200 OK" |};
  autopilotCheckResponse := fun _ _ => didAct;
|}.

End ExampleHost.

(** ** Reasoning about computations

    [frame R m]: every run of [m] takes a world to one related by [R];
    [frameT R m]: every run of [m] that throws does.  With [R] a preorder
    both go through sequencing. *)

Definition frame (R : World -> World -> Prop) {A} (m : M A) : Prop :=
  forall w, R w (snd (m w)).

Definition frameT (R : World -> World -> Prop) {A} (m : M A) : Prop :=
  forall w e w', m w = (Throw e, w') -> R w w'.

(** A computation that leaves the world as it is. *)
Definition readOnly {A} (m : M A) : Prop := forall w, snd (m w) = w.

Section Frames.

Context (R : World -> World -> Prop) `{!PreOrder R}.

Lemma frame_readOnly {A} (m : M A) : readOnly m -> frame R m.
Proof. intros H w. rewrite H. reflexivity. Qed.

Lemma frame_ret {A} (a : A) : frame R (ret a).
Proof. intros w. reflexivity. Qed.

Lemma frame_throw {A} (e : Error) : frame R (@throw A e).
Proof. intros w. reflexivity. Qed.

Lemma frame_bind {A B} (m : M A) (k : A -> M B) :
  frame R m -> (forall a, frame R (k a)) -> frame R (bind m k).
Proof.
  intros Hm Hk w. unfold bind. specialize (Hm w).
  destruct (m w) as [[a|e] w1]; simpl in *; auto.
  etransitivity; [exact Hm|apply Hk].
Qed.

(** After a look at the world, the rest may depend on what was seen. *)
Lemma frame_getWorld_bind {B} (k : World -> M B) :
  (forall w, R w (snd (k w w))) -> frame R (bind getWorld k).
Proof. intros Hk w. apply Hk. Qed.

Lemma frame_tryCatch {A} (m : M A) (handler : Error -> M A) :
  frame R m -> (forall e, frame R (handler e)) -> frame R (tryCatch m handler).
Proof.
  intros Hm Hh w. unfold tryCatch. specialize (Hm w).
  destruct (m w) as [[a|e] w1]; simpl in *; auto.
  etransitivity; [exact Hm|apply Hh].
Qed.

Lemma frame_forEach {A} (xs : list A) (f : A -> M unit) :
  (forall x, frame R (f x)) -> frame R (forEach xs f).
Proof.
  intros Hf. induction xs as [|x xs IH]; simpl.
  - apply frame_ret.
  - apply frame_bind; auto.
Qed.

Lemma frame_frameT {A} (m : M A) : frame R m -> frameT R m.
Proof. intros H w e w' E. specialize (H w). rewrite E in H. exact H. Qed.

Lemma frameT_bind {A B} (m : M A) (k : A -> M B) :
  frame R m -> (forall a, frameT R (k a)) -> frameT R (bind m k).
Proof.
  intros Hm Hk w e w' E. unfold bind in E. specialize (Hm w).
  destruct (m w) as [[a|e1] w1]; simpl in *.
  - etransitivity; [exact Hm|]. eapply Hk; eauto.
  - injection E as <- <-. exact Hm.
Qed.

Lemma frameT_getWorld_bind {B} (k : World -> M B) :
  (forall w e w', k w w = (Throw e, w') -> R w w') -> frameT R (bind getWorld k).
Proof. intros Hk w e w' E. eapply Hk. exact E. Qed.

End Frames.

(** *** Reads *)

Lemma readOnly_ret {A} (a : A) : readOnly (ret a).
Proof. intros w. reflexivity. Qed.

Lemma readOnly_throw {A} (e : Error) : readOnly (@throw A e).
Proof. intros w. reflexivity. Qed.

Lemma readOnly_bind {A B} (m : M A) (k : A -> M B) :
  readOnly m -> (forall a, readOnly (k a)) -> readOnly (bind m k).
Proof.
  intros Hm Hk w. unfold bind. specialize (Hm w).
  destruct (m w) as [[a|e] w1]; simpl in *.
  - rewrite Hk. exact Hm.
  - exact Hm.
Qed.

Lemma readOnly_getWorld : readOnly getWorld.
Proof. intros w. reflexivity. Qed.

Lemma readOnly_liftE {A} (r : Exception + A) : readOnly (liftE r).
Proof. destruct r; intros w; reflexivity. Qed.

Lemma readOnly_readRequest l : readOnly (readRequest l).
Proof.
  intros w. unfold readRequest, bind, getWorld.
  destruct (store w !! l) as [[]|]; reflexivity.
Qed.

Lemma readOnly_readHeaders l : readOnly (readHeaders l).
Proof.
  intros w. unfold readHeaders, bind, getWorld.
  destruct (store w !! l) as [[]|]; reflexivity.
Qed.

Lemma readOnly_readArray l : readOnly (readArray l).
Proof.
  intros w. unfold readArray, bind, getWorld.
  destruct (store w !! l) as [[]|]; reflexivity.
Qed.

Lemma readOnly_headerFirst l name : readOnly (headerFirst l name).
Proof.
  unfold headerFirst.
  apply readOnly_bind; [apply readOnly_readRequest|intros r].
  apply readOnly_bind; [apply readOnly_readHeaders|intros h].
  destruct (h !! name).
  - apply readOnly_bind; [apply readOnly_readArray|intros; apply readOnly_ret].
  - apply readOnly_ret.
Qed.

Lemma readOnly_encodeParams parameters : readOnly (encodeParams parameters).
Proof.
  unfold encodeParams. destruct (encodePairs parameters);
    [apply readOnly_ret|apply readOnly_throw].
Qed.

Lemma readOnly_snapshot l : readOnly (snapshot l).
Proof.
  unfold snapshot.
  apply readOnly_bind; [apply readOnly_readRequest|intros r].
  apply readOnly_bind; [apply readOnly_readHeaders|intros h].
  apply readOnly_bind; [apply readOnly_getWorld|intros w; apply readOnly_ret].
Qed.

Create HintDb frames.
#[global] Hint Resolve readOnly_ret readOnly_throw readOnly_getWorld
  readOnly_liftE readOnly_readRequest readOnly_readHeaders readOnly_readArray
  readOnly_headerFirst readOnly_encodeParams readOnly_snapshot : frames.

(** ** Facts about strings *)

Lemma startsWith_spec s p : JS.startsWith s p = true <-> exists t, s = p ++ t.
Proof.
  revert s. induction p as [|a p IH]; intros s; simpl.
  - split; [intros _; exists s; reflexivity|destruct s; reflexivity].
  - destruct s as [|b s]; simpl.
    + split; [discriminate|intros [t Ht]; discriminate].
    + rewrite andb_true_iff, N.eqb_eq, IH. split.
      * intros [-> [t ->]]. eauto.
      * intros [t Ht]. injection Ht as -> ->. eauto.
Qed.

Lemma startsWith_app p t : JS.startsWith (p ++ t) p = true.
Proof. apply startsWith_spec. eauto. Qed.

Lemma indexOf_from_eq s p i :
  JS.indexOf_from s p i =
  if JS.startsWith s p then Some i
  else match s with
       | [] => None
       | _ :: s' => JS.indexOf_from s' p (S i)
       end.
Proof. destruct s; reflexivity. Qed.

Lemma indexOf_from_Some s p i j :
  JS.indexOf_from s p i = Some j ->
  exists a b, s = a ++ p ++ b /\ j = (i + length a)%nat.
Proof.
  revert i. induction s as [|c s IH]; intros i; rewrite indexOf_from_eq;
    destruct (JS.startsWith _ p) eqn:E; try discriminate.
  - intros [= <-]. apply startsWith_spec in E as [t Ht].
    exists [], t. split; [auto|simpl; lia].
  - intros [= <-]. apply startsWith_spec in E as [t Ht].
    exists [], t. split; [auto|simpl; lia].
  - intros H. apply IH in H as (a & b & -> & ->).
    exists (c :: a), b. split; [auto|simpl; lia].
Qed.

Lemma indexOf_from_None s p i :
  JS.indexOf_from s p i = None -> forall a b, s <> a ++ p ++ b.
Proof.
  revert i. induction s as [|c s IH]; intros i; rewrite indexOf_from_eq;
    destruct (JS.startsWith _ p) eqn:E; try discriminate.
  - intros _ a b Hs. symmetry in Hs. apply app_eq_nil in Hs as [-> Hs].
    apply app_eq_nil in Hs as [-> ->]. discriminate.
  - intros H a b Hs. destruct a as [|d a]; simpl in Hs.
    + rewrite Hs, startsWith_app in E. discriminate.
    + injection Hs as -> Hs. eapply IH; eauto.
Qed.

Lemma includes_spec s p : JS.includes s p = true <-> exists a b, s = a ++ p ++ b.
Proof.
  unfold JS.includes, JS.indexOf.
  destruct (JS.indexOf_from s p 0) as [j|] eqn:E.
  - apply indexOf_from_Some in E as (a & b & -> & _). split; eauto.
  - split; [discriminate|]. intros (a & b & Hs).
    exfalso. eapply indexOf_from_None; eauto.
Qed.





Lemma endsWith_spec s p : JS.endsWith s p = true <-> exists t, s = t ++ p.
Proof.
  unfold JS.endsWith. rewrite startsWith_spec. split.
  - intros [t Ht]. exists (rev t).
    rewrite <- (rev_involutive s), Ht, rev_app_distr, rev_involutive. reflexivity.
  - intros [t ->]. exists (rev t). apply rev_app_distr.
Qed.

(** ** The format detector, in the words of its specification *)

(** A declared content-type mentions a pattern, whatever the letter case. *)
Definition mentions (declared pattern : jsstring) : Prop :=
  exists a m b, declared = a ++ m ++ b /\ JS.toLowerCase m = pattern.

Lemma includes_toLowerCase ct p :
  JS.includes (JS.toLowerCase ct) p = true <-> mentions ct p.
Proof.
  rewrite includes_spec. unfold mentions, JS.toLowerCase. split.
  - intros (a & b & H).
    apply map_eq_app in H as (a' & t & -> & Ha & H).
    apply map_eq_app in H as (m & b' & -> & Hm & Hb).
    exists a', m, b'. auto.
  - intros (a & m & b & -> & <-).
    exists (List.map JS.lowerUnit a), (List.map JS.lowerUnit b).
    rewrite !List.map_app. reflexivity.
Qed.

(** A key or a value: no [=], no [&]. *)
Definition plain (s : jsstring) : Prop :=
  Forall (fun c => c <> 61%N /\ c <> 38%N) s.

(** The grammar of [key=value] pairs, each followed by [&] or not (the
    pattern of the code makes the separator optional); the empty string is a
    sentence of it. *)
Inductive QueryGrammar : jsstring -> Prop :=
| QG_empty : QueryGrammar []
| QG_pair key value rest :
    plain key -> plain value -> QueryGrammar rest ->
    QueryGrammar (key ++ [61%N] ++ value ++ rest)
| QG_pair_amp key value rest :
    plain key -> plain value -> QueryGrammar rest ->
    QueryGrammar (key ++ [61%N] ++ value ++ [38%N] ++ rest).

(** [JSON.parse] accepts the body. *)
Definition StrictJSON (body : jsstring) : Prop :=
  exists v, JSON.parse body = Some v.

(** The trimmed body starts with [<?xml], or with [<] and a character that
    is neither [?] nor [!]; and it contains [>]. *)
Definition XMLShape (body : jsstring) : Prop :=
  let t := JS.trim body in
  ((exists rest, t = js "<?xml" ++ rest)
   \/ (exists c rest, t = 60%N :: c :: rest /\ c <> 63%N /\ c <> 33%N))
  /\ In 62%N t.

Section DetectorFacts.

Import Regex.

Lemma Lang_star_concat r s :
  Lang (Star r) s <-> exists chunks, s = concat chunks /\ Forall (Lang r) chunks.
Proof.
  split.
  - intros H. remember (Star r) as q eqn:Eq.
    induction H as [| | | | | | |q' u1 u2 H1 IH1 H2 IH2]; try discriminate.
    + exists []. split; auto.
    + injection Eq as ->. destruct (IH2 eq_refl) as (chunks & -> & Hc).
      exists (u1 :: chunks). split; auto.
  - intros (chunks & -> & Hc). induction Hc as [|c chunks Hc1 Hc IH]; simpl.
    + constructor.
    + constructor; auto.
Qed.

Lemma Lang_star_notin cs s :
  Lang (Star (NotIn cs)) s <-> Forall (fun c => mem c cs = false) s.
Proof.
  rewrite Lang_star_concat. split.
  - intros (chunks & -> & Hc). induction Hc as [|c chunks Hc1 Hc IH]; simpl.
    + constructor.
    + apply Lang_notin_inv in Hc1 as (d & -> & Hd). simpl. constructor; auto.
  - intros H. induction H as [|c s Hc Hs IH].
    + exists []. split; auto.
    + destruct IH as (chunks & -> & Hcs).
      exists ([c] :: chunks). split; auto.
      constructor; auto. constructor; auto.
Qed.

Lemma plain_mem s : plain s <-> Forall (fun c => mem c [61; 38]%N = false) s.
Proof.
  unfold plain. apply Forall_iff. intros c. simpl.
  rewrite !orb_false_iff, !N.eqb_neq. tauto.
Qed.

(** One pair of the pattern: [[^=&]*=[^=&]*&?]. *)
Definition pairRegex : Regex.re :=
  let notEqAmp := Star (NotIn [61; 38]%N) in
  Cat notEqAmp (Cat (Chr 61) (Cat notEqAmp (Opt (Chr 38)))).

Lemma Lang_pairRegex s :
  Lang pairRegex s <->
  exists key value, plain key /\ plain value /\
    (s = key ++ [61%N] ++ value \/ s = key ++ [61%N] ++ value ++ [38%N]).
Proof.
  unfold pairRegex, Opt. split.
  - intros H.
    apply Lang_cat_inv in H as (k & s1 & -> & Hk & H).
    apply Lang_cat_inv in H as (e & s2 & -> & He & H).
    apply Lang_cat_inv in H as (v & s3 & -> & Hv & H).
    apply Lang_chr_inv in He as ->.
    apply Lang_star_notin, plain_mem in Hk, Hv.
    exists k, v. split; [auto|split; [auto|]].
    apply Lang_alt_inv in H as [H|H].
    + apply Lang_chr_inv in H as ->. auto.
    + apply Lang_eps_inv in H as ->. rewrite app_nil_r. auto.
  - intros (k & v & Hk & Hv & H).
    apply plain_mem, Lang_star_notin in Hk, Hv.
    destruct H as [-> | ->].
    + constructor; auto. constructor; [constructor|].
      rewrite <- (app_nil_r v). constructor; auto. apply LAltR. constructor.
    + constructor; auto. constructor; [constructor|].
      constructor; auto. apply LAltL. constructor.
Qed.

Lemma QueryGrammar_chunks s :
  QueryGrammar s <->
  exists chunks, s = concat chunks /\ Forall (Lang pairRegex) chunks.
Proof.
  split.
  - intros H. induction H as [|k v rest Hk Hv H IH|k v rest Hk Hv H IH].
    + exists []. auto.
    + destruct IH as (chunks & -> & Hc).
      exists ((k ++ [61%N] ++ v) :: chunks). split.
      * simpl. rewrite <- !app_assoc. reflexivity.
      * constructor; auto. apply Lang_pairRegex. eauto 6.
    + destruct IH as (chunks & -> & Hc).
      exists ((k ++ [61%N] ++ v ++ [38%N]) :: chunks). split.
      * simpl. rewrite <- !app_assoc. simpl. rewrite <- !app_assoc. reflexivity.
      * constructor; auto. apply Lang_pairRegex. eauto 6.
  - intros (chunks & -> & Hc). induction Hc as [|c chunks Hc1 Hc IH]; simpl.
    + constructor.
    + apply Lang_pairRegex in Hc1 as (k & v & Hk & Hv & [-> | ->]).
      * rewrite <- !app_assoc. apply QG_pair; auto.
      * rewrite <- !app_assoc. apply QG_pair_amp; auto.
Qed.

(** The pattern of the code accepts exactly the grammar. *)
Lemma isQueryBody_spec body : isQueryBody body = true <-> QueryGrammar body.
Proof.
  unfold isQueryBody. rewrite test_Lang, QueryGrammar_chunks.
  apply Lang_star_concat.
Qed.

Lemma isJSONBody_spec body : isJSONBody body = true <-> StrictJSON body.
Proof.
  unfold isJSONBody, StrictJSON. destruct (JSON.parse body); split; eauto.
  - discriminate.
  - intros [v Hv]. discriminate.
Qed.

Lemma includes_unit s c : JS.includes s [c] = true <-> In c s.
Proof.
  rewrite includes_spec. split.
  - intros (a & b & ->). apply in_elt.
  - intros H. apply in_split in H as (a & b & ->). eauto.
Qed.

Lemma test_prefix_xmlRoot t :
  Regex.test_prefix xmlRootRegex t = true <->
  exists c rest, t = 60%N :: c :: rest /\ c <> 63%N /\ c <> 33%N.
Proof.
  rewrite test_prefix_Lang. unfold xmlRootRegex. split.
  - intros (p & rest & -> & H).
    apply Lang_cat_inv in H as (s1 & s2 & -> & H1 & H2).
    apply Lang_chr_inv in H1 as ->.
    apply Lang_notin_inv in H2 as (c & -> & Hc).
    exists c, rest. split; auto.
    simpl in Hc. rewrite !orb_false_iff, !N.eqb_neq in Hc. tauto.
  - intros (c & rest & -> & H1 & H2).
    exists [60%N; c], rest. split; auto.
    change [60%N; c] with ([60%N] ++ [c]). constructor; constructor.
    simpl. rewrite !orb_false_iff, !N.eqb_neq. tauto.
Qed.

Lemma isXMLBody_spec body : isXMLBody body = true <-> XMLShape body.
Proof.
  unfold isXMLBody, XMLShape. cbv zeta.
  rewrite andb_true_iff, orb_true_iff, startsWith_spec, test_prefix_xmlRoot.
  change (js ">") with [62%N]. rewrite includes_unit. reflexivity.
Qed.

End DetectorFacts.

(** What structural sniffing answers, in its fixed order. *)
Inductive Sniffs (body : jsstring) : option BodyType.t -> Prop :=
| Sniffs_json :
    StrictJSON body -> Sniffs body (Some BodyType.json)
| Sniffs_query :
    ~ StrictJSON body -> QueryGrammar body -> Sniffs body (Some BodyType.query)
| Sniffs_xml :
    ~ StrictJSON body -> ~ QueryGrammar body -> XMLShape body ->
    Sniffs body (Some BodyType.xml)
| Sniffs_unsupported :
    ~ StrictJSON body -> ~ QueryGrammar body -> ~ XMLShape body ->
    Sniffs body None.

(** No known pattern is mentioned: also when nothing is declared. *)
Definition undeclared (declared : option jsstring) : Prop :=
  forall ct, declared = Some ct ->
    ~ mentions ct (js "application/json")
    /\ ~ mentions ct (js "application/x-www-form-urlencoded")
    /\ ~ mentions ct (js "multipart/form-data")
    /\ ~ mentions ct (js "application/xml")
    /\ ~ mentions ct (js "text/xml").

(** What the detector answers for a body and a declared content-type:
    [None] is the failure UnsupportedFormat. *)
Inductive Detects (declared : option jsstring) (body : jsstring)
  : option BodyType.t -> Prop :=
| Detects_json ct :
    declared = Some ct -> mentions ct (js "application/json") ->
    Detects declared body (Some BodyType.json)
| Detects_urlencoded ct :
    declared = Some ct -> ~ mentions ct (js "application/json") ->
    mentions ct (js "application/x-www-form-urlencoded") ->
    Detects declared body (Some BodyType.query)
| Detects_multipart ct :
    declared = Some ct -> ~ mentions ct (js "application/json") ->
    ~ mentions ct (js "application/x-www-form-urlencoded") ->
    mentions ct (js "multipart/form-data") ->
    Detects declared body (Some BodyType.multipart)
| Detects_xml ct :
    declared = Some ct -> ~ mentions ct (js "application/json") ->
    ~ mentions ct (js "application/x-www-form-urlencoded") ->
    ~ mentions ct (js "multipart/form-data") ->
    mentions ct (js "application/xml") \/ mentions ct (js "text/xml") ->
    Detects declared body (Some BodyType.xml)
| Detects_sniffed r :
    undeclared declared -> Sniffs body r -> Detects declared body r.

(** The world once a detection stored [f] and logged it. *)
Definition determined (paramMiner : ParamMiner.t) (f : BodyType.t) (w : World)
  : World :=
  {| store := store w;
     bodyType := Some f;
     multipartBoundary := multipartBoundary w;
     events := events w ++
       [ApiSend (js "paramfinder:log") (ParamMiner.id paramMiner)
          (js "Determined body format: " ++ BodyType.toString f)] |}.

(** The outcome of a detection that answers [r]. *)
Definition detection (paramMiner : ParamMiner.t) (r : option BodyType.t)
  (w : World) : Result unit * World :=
  match r with
  | Some f => (Return tt, determined paramMiner f w)
  | None => (Throw UnsupportedBodyTypeDetected, w)
  end.

Lemma mentions_nil p : p <> [] -> ~ mentions [] p.
Proof.
  intros Hp (a & m & b & E & Hm). symmetry in E.
  apply app_eq_nil in E as [-> E]. apply app_eq_nil in E as [-> ->].
  apply Hp. symmetry. exact Hm.
Qed.

Lemma includes_false ct p :
  JS.includes (JS.toLowerCase ct) p = false <-> ~ mentions ct p.
Proof. rewrite <- includes_toLowerCase. destruct (JS.includes _ _); split; congruence. Qed.

Lemma sniff_spec body :
  exists r, Sniffs body r /\
    r = (if isJSONBody body then Some BodyType.json
         else if isQueryBody body then Some BodyType.query
         else if isXMLBody body then Some BodyType.xml
         else None).
Proof.
  destruct (isJSONBody body) eqn:Ej.
  { eexists. split; [|reflexivity]. apply Sniffs_json, isJSONBody_spec; auto. }
  assert (~ StrictJSON body) by (rewrite <- isJSONBody_spec; congruence).
  destruct (isQueryBody body) eqn:Eq.
  { eexists. split; [|reflexivity]. apply Sniffs_query; auto.
    apply isQueryBody_spec; auto. }
  assert (~ QueryGrammar body) by (rewrite <- isQueryBody_spec; congruence).
  destruct (isXMLBody body) eqn:Ex.
  { eexists. split; [|reflexivity]. apply Sniffs_xml; auto.
    apply isXMLBody_spec; auto. }
  assert (~ XMLShape body) by (rewrite <- isXMLBody_spec; congruence).
  eexists. split; [|reflexivity]. apply Sniffs_unsupported; auto.
Qed.

(** The detector of the code, run with nothing cached, on the declared
    content-type lower-cased as [handleBodyParameters] passes it. *)
Lemma determineBodyType_spec paramMiner w body declared :
  bodyType w = None ->
  exists r, Detects declared body r /\
    determineBodyType paramMiner body (JS.toLowerCase <$> declared) w
    = detection paramMiner r w.
Proof.
  intros Hw.
  assert (Hsniff : undeclared declared ->
    (forall ct, declared = Some ct ->
       (if truthy (JS.toLowerCase ct) then
          JS.includes (JS.toLowerCase ct) (js "application/json") = false
          /\ JS.includes (JS.toLowerCase ct) (js "application/x-www-form-urlencoded") = false
          /\ JS.includes (JS.toLowerCase ct) (js "multipart/form-data") = false
          /\ JS.includes (JS.toLowerCase ct) (js "application/xml") = false
          /\ JS.includes (JS.toLowerCase ct) (js "text/xml") = false
        else True)) ->
    exists r, Detects declared body r /\
      determineBodyType paramMiner body (JS.toLowerCase <$> declared) w
      = detection paramMiner r w).
  { intros Hu Hinc. destruct (sniff_spec body) as (r & Hr & Er).
    exists r. split; [apply Detects_sniffed; auto|].
    unfold determineBodyType, bind, getWorld, ret.
    destruct declared as [ct|]; simpl.
    - specialize (Hinc ct eq_refl).
      destruct (truthy (JS.toLowerCase ct)).
      + destruct Hinc as (-> & -> & -> & -> & ->). simpl. rewrite Hw.
        subst r. destruct (isJSONBody body); [reflexivity|].
        destruct (isQueryBody body); [reflexivity|].
        destruct (isXMLBody body); reflexivity.
      + simpl. rewrite Hw.
        subst r. destruct (isJSONBody body); [reflexivity|].
        destruct (isQueryBody body); [reflexivity|].
        destruct (isXMLBody body); reflexivity.
    - rewrite Hw.
      subst r. destruct (isJSONBody body); [reflexivity|].
      destruct (isQueryBody body); [reflexivity|].
      destruct (isXMLBody body); reflexivity. }
  destruct declared as [ct|]; [|apply Hsniff; intros ? [=]].
  destruct (truthy (JS.toLowerCase ct)) eqn:Et.
  2:{ apply Hsniff.
      - intros ? [= <-]. unfold truthy in Et. apply negb_false_iff in Et.
        apply bool_decide_eq_true in Et. destruct ct; [|discriminate].
        repeat split; apply mentions_nil; discriminate.
      - intros ? [= <-]. rewrite Et. exact I. }
  destruct (JS.includes (JS.toLowerCase ct) (js "application/json")) eqn:E1.
  { exists (Some BodyType.json). split.
    - eapply Detects_json; eauto. apply includes_toLowerCase; auto.
    - unfold determineBodyType, bind, getWorld, ret. simpl.
      rewrite Et, E1. reflexivity. }
  destruct (JS.includes (JS.toLowerCase ct) (js "application/x-www-form-urlencoded")) eqn:E2.
  { exists (Some BodyType.query). split.
    - eapply Detects_urlencoded; eauto.
      + apply includes_false; auto.
      + apply includes_toLowerCase; auto.
    - unfold determineBodyType, bind, getWorld, ret. simpl.
      rewrite Et, E1, E2. reflexivity. }
  destruct (JS.includes (JS.toLowerCase ct) (js "multipart/form-data")) eqn:E3.
  { exists (Some BodyType.multipart). split.
    - eapply Detects_multipart; eauto.
      + apply includes_false; auto.
      + apply includes_false; auto.
      + apply includes_toLowerCase; auto.
    - unfold determineBodyType, bind, getWorld, ret. simpl.
      rewrite Et, E1, E2, E3. reflexivity. }
  destruct (JS.includes (JS.toLowerCase ct) (js "application/xml")) eqn:E4.
  { exists (Some BodyType.xml). split.
    - eapply Detects_xml; eauto; try (apply includes_false; auto).
      left. apply includes_toLowerCase; auto.
    - unfold determineBodyType, bind, getWorld, ret. simpl.
      rewrite Et, E1, E2, E3, E4. reflexivity. }
  destruct (JS.includes (JS.toLowerCase ct) (js "text/xml")) eqn:E5.
  { exists (Some BodyType.xml). split.
    - eapply Detects_xml; eauto; try (apply includes_false; auto).
      right. apply includes_toLowerCase; auto.
    - unfold determineBodyType, bind, getWorld, ret. simpl.
      rewrite Et, E1, E2, E3, E4, E5. reflexivity. }
  apply Hsniff.
  - intros ? [= <-]. repeat split; apply includes_false; auto.
  - intros ? [= <-]. rewrite Et. auto.
Qed.

(** The answer is unique: the priorities leave no choice. *)
Lemma Sniffs_functional body r1 r2 : Sniffs body r1 -> Sniffs body r2 -> r1 = r2.
Proof. intros H1 H2. destruct H1; destruct H2; auto; contradiction. Qed.

Lemma Detects_functional declared body r1 r2 :
  Detects declared body r1 -> Detects declared body r2 -> r1 = r2.
Proof.
  intros H1 H2.
  destruct H1 as [ct E|ct E|ct E|ct E|r1 Hu Hs];
    destruct H2 as [ct' E'|ct' E'|ct' E'|ct' E'|r2 Hu' Hs'];
    try reflexivity;
    try (rewrite E in E'; injection E' as <-; tauto);
    try (destruct (Hu' ct E) as (? & ? & ? & ? & ?); tauto);
    try (destruct (Hu ct' E') as (? & ? & ? & ? & ?); tauto).
  eapply Sniffs_functional; eauto.
Qed.

(** ** Requests in the store *)

Definition withStore (s : gmap loc Cell) (w : World) : World :=
  {| store := s; bodyType := bodyType w;
     multipartBoundary := multipartBoundary w; events := events w |}.

(** The value sequence behind a reference. *)
Definition arrayAt (w : World) (a : loc) : option (list jsstring) :=
  match store w !! a with
  | Some (ArrayCell values) => Some values
  | _ => None
  end.

(** A header object read through its references: name to value sequence. *)
Definition headersOf (w : World) (h : gmap jsstring loc)
  : gmap jsstring (list jsstring) :=
  omap (arrayAt w) h.

(** [Holds w request r hs]: in [w] the reference [request] holds the request
    [r], whose header object has the own properties [hs], each a value
    sequence of the store. *)
Definition Holds (w : World) (request : loc) (r : Request.t)
  (hs : gmap jsstring (list jsstring)) : Prop :=
  exists h,
    store w !! request = Some (RequestCell r)
    /\ store w !! Request.headers r = Some (HeadersCell h)
    /\ map_Forall (fun _ a => is_Some (arrayAt w a)) h
    /\ hs = headersOf w h.

(** The engine's own fields and the events are as they were. *)
Definition sameEngine (w w' : World) : Prop :=
  bodyType w' = bodyType w
  /\ multipartBoundary w' = multipartBoundary w
  /\ events w' = events w.

Lemma sameEngine_refl w : sameEngine w w.
Proof. repeat split. Qed.

Lemma sameEngine_trans w1 w2 w3 :
  sameEngine w1 w2 -> sameEngine w2 w3 -> sameEngine w1 w3.
Proof. intros (?&?&?) (?&?&?). repeat split; congruence. Qed.

Lemma bind_Return {A B} (m : M A) (k : A -> M B) w a w' :
  m w = (Return a, w') -> bind m k w = k a w'.
Proof. intros H. unfold bind. rewrite H. reflexivity. Qed.

Lemma bind_Throw {A B} (m : M A) (k : A -> M B) w e w' :
  m w = (Throw e, w') -> bind m k w = (Throw e, w').
Proof. intros H. unfold bind. rewrite H. reflexivity. Qed.

Lemma readRequest_ok w l r :
  store w !! l = Some (RequestCell r) -> readRequest l w = (Return r, w).
Proof. intros H. unfold readRequest, bind, getWorld. rewrite H. reflexivity. Qed.

Lemma readHeaders_ok w l h :
  store w !! l = Some (HeadersCell h) -> readHeaders l w = (Return h, w).
Proof. intros H. unfold readHeaders, bind, getWorld. rewrite H. reflexivity. Qed.

Lemma readArray_ok w l a :
  store w !! l = Some (ArrayCell a) -> readArray l w = (Return a, w).
Proof. intros H. unfold readArray, bind, getWorld. rewrite H. reflexivity. Qed.

Lemma readRequest_Holds w request r hs :
  Holds w request r hs -> readRequest request w = (Return r, w).
Proof.
  intros (h & Hr & _). apply readRequest_ok. exact Hr.
Qed.

Lemma headerFirst_Holds w request r hs name :
  Holds w request r hs ->
  headerFirst request name w = (Return (hs !! name ≫= head), w).
Proof.
  intros (h & Hr & Hh & Hwf & ->).
  unfold headerFirst.
  rewrite (bind_Return _ _ _ _ _ (readRequest_ok _ _ _ Hr)).
  rewrite (bind_Return _ _ _ _ _ (readHeaders_ok _ _ _ Hh)).
  unfold headersOf. rewrite lookup_omap.
  destruct (h !! name) as [a|] eqn:Ea; simpl; [|reflexivity].
  destruct (Hwf _ _ Ea) as [vs Hvs]. rewrite Hvs. simpl.
  unfold arrayAt in Hvs. destruct (store w !! a) as [[]|] eqn:Es; try discriminate.
  injection Hvs as ->.
  rewrite (bind_Return _ _ _ _ _ (readArray_ok _ _ _ Es)). reflexivity.
Qed.

Lemma Holds_write_request w request r hs r' :
  Holds w request r hs -> Request.headers r' = Request.headers r ->
  Holds (withStore (<[request := RequestCell r']> (store w)) w) request r' hs.
Proof.
  intros (h & Hr & Hh & Hwf & ->) Hhead.
  assert (Hne : Request.headers r <> request) by congruence.
  assert (Harr : forall k a, h !! k = Some a ->
            arrayAt (withStore (<[request := RequestCell r']> (store w)) w) a
            = arrayAt w a).
  { intros k a Ha. destruct (Hwf _ _ Ha) as [vs Hvs]. unfold arrayAt in *. simpl.
    rewrite lookup_insert_ne; [reflexivity|].
    intros <-. rewrite Hr in Hvs. discriminate. }
  exists h. simpl. rewrite Hhead. repeat split.
  - apply lookup_insert_eq.
  - rewrite lookup_insert_ne; auto.
  - intros k a Ha. rewrite (Harr k a Ha). eapply Hwf; eauto.
  - unfold headersOf. apply map_eq. intros k. rewrite !lookup_omap.
    destruct (h !! k) as [a|] eqn:Ea; simpl; [|reflexivity].
    symmetry. eapply Harr; eauto.
Qed.

Lemma setBody_Holds w request r hs body :
  Holds w request r hs ->
  exists w', setBody request body w = (Return tt, w')
    /\ Holds w' request (Request.set_body body r) hs /\ sameEngine w w'.
Proof.
  intros H. eexists. split; [|split].
  - unfold setBody. rewrite (bind_Return _ _ _ _ _ (readRequest_Holds _ _ _ _ H)).
    reflexivity.
  - apply (Holds_write_request _ _ _ _ _ H). reflexivity.
  - repeat split.
Qed.

Lemma setQuery_Holds w request r hs query :
  Holds w request r hs ->
  exists w', setQuery request query w = (Return tt, w')
    /\ Holds w' request (Request.set_query query r) hs /\ sameEngine w w'.
Proof.
  intros H. eexists. split; [|split].
  - unfold setQuery. rewrite (bind_Return _ _ _ _ _ (readRequest_Holds _ _ _ _ H)).
    reflexivity.
  - apply (Holds_write_request _ _ _ _ _ H). reflexivity.
  - repeat split.
Qed.

(** Writing a header object of a request whose new references are arrays. *)
Lemma Holds_write_headers s w request r h h' :
  store w !! request = Some (RequestCell r) ->
  store w !! Request.headers r = Some (HeadersCell h) ->
  (forall l, l ∈ dom (store w) -> s !! l = store w !! l) ->
  map_Forall (fun _ a => is_Some (arrayAt (withStore s w) a)) h' ->
  Holds (withStore (<[Request.headers r := HeadersCell h']> s) w) request r
    (headersOf (withStore s w) h').
Proof.
  intros Hr Hh Hs Hwf.
  assert (Hne : Request.headers r <> request) by congruence.
  assert (Harr : forall k a, h' !! k = Some a ->
            arrayAt (withStore (<[Request.headers r := HeadersCell h']> s) w) a
            = arrayAt (withStore s w) a).
  { intros k a Ha. destruct (Hwf _ _ Ha) as [vs Hvs]. unfold arrayAt in *.
    simpl in *. rewrite lookup_insert_ne; [reflexivity|].
    intros <-. rewrite Hs, Hh in Hvs; [discriminate|].
    apply elem_of_dom. eauto. }
  exists h'. simpl. repeat split.
  - rewrite lookup_insert_ne; auto. rewrite Hs; auto. apply elem_of_dom; eauto.
  - apply lookup_insert_eq.
  - intros k a Ha. rewrite (Harr k a Ha). eapply Hwf; eauto.
  - unfold headersOf. apply map_eq. intros k. rewrite !lookup_omap.
    destruct (h' !! k) as [a|] eqn:Ea; simpl; [|reflexivity].
    symmetry. eapply Harr; eauto.
Qed.

(** An assignment that writes: the name is not [__proto__], or the header
    object has an own property of that name. *)
Lemma setHeader_written w request r hs name value :
  Holds w request r hs -> name <> Assign.proto \/ is_Some (hs !! name) ->
  exists w', setHeader request name value w = (Return tt, w')
    /\ Holds w' request r (<[name := [value]]> hs) /\ sameEngine w w'.
Proof.
  intros (h & Hr & Hh & Hwf & ->) Hname.
  assert (Hwrites : JS.eqb name Assign.proto
                    && negb (bool_decide (is_Some (h !! name))) = false).
  { destruct Hname as [Hname|[vs Hown]].
    - unfold JS.eqb. rewrite bool_decide_eq_false_2 by exact Hname. reflexivity.
    - unfold headersOf in Hown. rewrite lookup_omap in Hown.
      destruct (h !! name) as [l|]; [|discriminate Hown].
      rewrite bool_decide_eq_true_2 by eauto. apply andb_false_r. }
  set (a := fresh (dom (store w))).
  assert (Ha : store w !! a = None).
  { apply not_elem_of_dom. apply is_fresh. }
  set (s := <[a := ArrayCell [value]]> (store w)).
  assert (Hs : forall l, l ∈ dom (store w) -> s !! l = store w !! l).
  { intros l Hl. unfold s. rewrite lookup_insert_ne; auto.
    intros <-. apply elem_of_dom in Hl as [c Hc]. congruence. }
  exists (withStore (<[Request.headers r := HeadersCell (<[name := a]> h)]> s) w).
  split; [|split].
  - unfold setHeader.
    rewrite (bind_Return _ _ _ _ _ (readRequest_ok _ _ _ Hr)).
    unfold bind at 1. unfold alloc. fold a. fold s.
    assert (Hh' : store (withStore s w) !! Request.headers r = Some (HeadersCell h)).
    { simpl. rewrite Hs, Hh by (apply elem_of_dom; eauto). reflexivity. }
    rewrite (bind_Return _ _ _ _ _ (readHeaders_ok (withStore s w) _ _ Hh')).
    rewrite Hwrites. reflexivity.
  - assert (Harr : forall l, is_Some (arrayAt w l) ->
              arrayAt (withStore s w) l = arrayAt w l).
    { intros l [vs Hl]. unfold arrayAt in *. simpl. rewrite Hs; auto.
      apply elem_of_dom. destruct (store w !! l); [eauto|discriminate]. }
    assert (Hnew : arrayAt (withStore s w) a = Some [value]).
    { unfold arrayAt, s. simpl. rewrite lookup_insert_eq. reflexivity. }
    replace (<[name := [value]]> (headersOf w h))
      with (headersOf (withStore s w) (<[name := a]> h)).
    + eapply Holds_write_headers; eauto.
      apply map_Forall_insert_2.
      * rewrite Hnew. eauto.
      * intros k l Hl. rewrite Harr; eapply Hwf; eauto.
    + unfold headersOf. apply map_eq. intros k. rewrite lookup_omap.
      destruct (decide (name = k)) as [<-|Hk].
      * rewrite !lookup_insert_eq. simpl. exact Hnew.
      * rewrite !lookup_insert_ne by exact Hk. rewrite lookup_omap.
        destruct (h !! k) as [l|] eqn:El; simpl; [|reflexivity].
        apply Harr. eapply Hwf; eauto.
  - repeat split.
Qed.

Lemma setHeader_Holds w request r hs name value :
  Holds w request r hs -> name <> Assign.proto ->
  exists w', setHeader request name value w = (Return tt, w')
    /\ Holds w' request r (<[name := [value]]> hs) /\ sameEngine w w'.
Proof. intros H Hname. apply setHeader_written; auto. Qed.

Lemma deleteHeader_Holds w request r hs name :
  Holds w request r hs ->
  exists w', deleteHeader request name w = (Return tt, w')
    /\ Holds w' request r (delete name hs) /\ sameEngine w w'.
Proof.
  intros (h & Hr & Hh & Hwf & ->).
  exists (withStore (<[Request.headers r := HeadersCell (delete name h)]> (store w)) w).
  split; [|split].
  - unfold deleteHeader.
    rewrite (bind_Return _ _ _ _ _ (readRequest_ok _ _ _ Hr)).
    rewrite (bind_Return _ _ _ _ _ (readHeaders_ok _ _ _ Hh)). reflexivity.
  - replace (delete name (headersOf w h))
      with (headersOf (withStore (store w) w) (delete name h)).
    + eapply Holds_write_headers; eauto.
      intros k l Hl. apply lookup_delete_Some in Hl as [_ Hl].
      eapply Hwf; eauto.
    + unfold headersOf. apply map_eq. intros k. rewrite lookup_omap.
      destruct (decide (name = k)) as [<-|Hk].
      * rewrite !lookup_delete_eq. reflexivity.
      * rewrite !lookup_delete_ne by exact Hk. rewrite lookup_omap. reflexivity.
  - repeat split.
Qed.

(** ** The encoders on a request of the store *)

Lemma not_proto (name : jsstring) :
  JS.eqb name Assign.proto = false -> name <> Assign.proto.
Proof. unfold JS.eqb. intros H. apply bool_decide_eq_false in H. exact H. Qed.

Section Encoders.

Context {host : Host}.
Variable paramMiner : ParamMiner.t.

(** The body the URL-encoded encoder writes. *)
Definition queryBody (originalBody : jsstring) (pairs : list jsstring) : jsstring :=
  (if truthy originalBody then originalBody ++ js "&" else [])
  ++ JS.join (js "&") pairs.

Lemma handleQueryBody_Holds w request r hs parameters originalBody :
  Holds w request r hs ->
  match encodePairs parameters with
  | Some pairs =>
      exists w', handleQueryBody request parameters originalBody w = (Return tt, w')
        /\ Holds w' request (Request.set_body (queryBody originalBody pairs) r)
             (<[js "content-type" := [js "application/x-www-form-urlencoded"]]> hs)
        /\ sameEngine w w'
  | None =>
      handleQueryBody request parameters originalBody w = (Throw (Exn URIError), w)
  end.
Proof.
  intros H. unfold handleQueryBody, encodeParams.
  destruct (encodePairs parameters) as [pairs|]; [|reflexivity].
  rewrite (bind_Return _ _ w (JS.join (js "&") pairs) w) by reflexivity.
  destruct (setBody_Holds _ _ _ _ (queryBody originalBody pairs) H)
    as (w1 & E1 & H1 & S1).
  unfold queryBody in E1. rewrite (bind_Return _ _ _ _ _ E1).
  destruct (setHeader_Holds w1 request _ _ (js "content-type")
              (js "application/x-www-form-urlencoded") H1)
    as (w2 & E2 & H2 & S2); [apply not_proto; reflexivity|].
  exists w2. split; [exact E2|]. split; [exact H2|].
  eapply sameEngine_trans; eauto.
Qed.

(** The body object [handleJSONBody] starts from. *)
Definition parseBody (originalBody : jsstring) : option json :=
  if truthy originalBody then JSON.parse originalBody else Some (JObject []).

Lemma handleJSONBody_Holds w request r hs parameters originalBody :
  Holds w request r hs ->
  match parseBody originalBody with
  | None =>
      handleJSONBody paramMiner request parameters originalBody w
      = (Throw (FailedToHandleJSONBody (Exn SyntaxError)), w)
  | Some bodyObj =>
      match injectJSON paramMiner bodyObj parameters with
      | inl e =>
          handleJSONBody paramMiner request parameters originalBody w
          = (Throw (FailedToHandleJSONBody (Exn e)), w)
      | inr bodyObj' =>
          exists w',
            handleJSONBody paramMiner request parameters originalBody w
            = (Return tt, w')
            /\ Holds w' request
                 (Request.set_body (JSON.stringify numberToString bodyObj') r)
                 (<[js "content-type" := [js "application/json"]]> hs)
            /\ sameEngine w w'
      end
  end.
Proof.
  intros H. unfold handleJSONBody, parseBody, tryCatch.
  destruct (truthy originalBody).
  - destruct (JSON.parse originalBody) as [bodyObj|].
    2:{ reflexivity. }
    rewrite (bind_Return _ _ w bodyObj w) by reflexivity.
    destruct (injectJSON paramMiner bodyObj parameters) as [e|bodyObj'].
    { reflexivity. }
    rewrite (bind_Return _ _ w bodyObj' w) by reflexivity.
    destruct (setBody_Holds _ _ _ _ (JSON.stringify numberToString bodyObj') H)
      as (w1 & E1 & H1 & S1).
    rewrite (bind_Return _ _ _ _ _ E1).
    destruct (setHeader_Holds w1 request _ _ (js "content-type")
                (js "application/json") H1)
      as (w2 & E2 & H2 & S2); [apply not_proto; reflexivity|].
    rewrite E2. exists w2. split; [reflexivity|]. split; [exact H2|].
    eapply sameEngine_trans; eauto.
  - rewrite (bind_Return _ _ w (JObject []) w) by reflexivity.
    destruct (injectJSON paramMiner (JObject []) parameters) as [e|bodyObj'].
    { reflexivity. }
    rewrite (bind_Return _ _ w bodyObj' w) by reflexivity.
    destruct (setBody_Holds _ _ _ _ (JSON.stringify numberToString bodyObj') H)
      as (w1 & E1 & H1 & S1).
    rewrite (bind_Return _ _ _ _ _ E1).
    destruct (setHeader_Holds w1 request _ _ (js "content-type")
                (js "application/json") H1)
      as (w2 & E2 & H2 & S2); [apply not_proto; reflexivity|].
    rewrite E2. exists w2. split; [reflexivity|]. split; [exact H2|].
    eapply sameEngine_trans; eauto.
Qed.

(** The body the multipart encoder writes: the original up to the final
    marker, a CRLF unless it ends in one, the parts, the final marker. *)
Definition multipartBody (originalBody boundary : jsstring) (finalIndex : nat)
  (parameters : list Param.t) : jsstring :=
  let prefix := JS.slice0 originalBody finalIndex in
  (prefix ++ (if JS.endsWith prefix [13; 10]%N then [] else [13; 10]%N))
  ++ concat (List.map (multipartPart boundary) parameters)
  ++ (js "--" ++ boundary ++ js "--").

Lemma fold_left_parts boundary parameters acc :
  fold_left (fun acc p => acc ++ multipartPart boundary p) parameters acc
  = acc ++ concat (List.map (multipartPart boundary) parameters).
Proof.
  revert acc. induction parameters as [|p ps IH]; intros acc; simpl.
  - rewrite app_nil_r. reflexivity.
  - rewrite IH, <- app_assoc. reflexivity.
Qed.

(** The world with the boundary cached. *)
Definition withBoundary (b : jsstring) (w : World) : World :=
  {| store := store w; bodyType := bodyType w;
     multipartBoundary := Some b; events := events w |}.

Lemma handleMultipartBody_Holds w request r hs parameters originalBody :
  Holds w request r hs ->
  match hs !! js "Content-Type" ≫= head with
  | None =>
      handleMultipartBody request parameters originalBody w
      = (Throw MissingContentTypeHeader, w)
  | Some originalContentType =>
      if negb (truthy originalContentType) then
        handleMultipartBody request parameters originalBody w
        = (Throw MissingContentTypeHeader, w)
      else
        match boundaryMatch originalContentType with
        | None =>
            handleMultipartBody request parameters originalBody w
            = (Throw MissingMultipartBoundary, w)
        | Some boundary =>
            match JS.indexOf originalBody (js "--" ++ boundary ++ js "--") with
            | None =>
                handleMultipartBody request parameters originalBody w
                = (Throw InvalidMultipartBody, w)
            | Some finalIndex =>
                exists w',
                  handleMultipartBody request parameters originalBody w
                  = (Return tt, withBoundary boundary w')
                  /\ Holds w' request
                       (Request.set_body
                          (multipartBody originalBody boundary finalIndex parameters) r)
                       (<[js "Content-Type" := [originalContentType]]> hs)
                  /\ sameEngine w w'
            end
        end
  end.
Proof.
  intros H. unfold handleMultipartBody.
  rewrite (bind_Return _ _ _ _ _ (headerFirst_Holds _ _ _ _ (js "Content-Type") H)).
  destruct (hs !! js "Content-Type" ≫= head) as [ct|]; [|reflexivity].
  destruct (negb (truthy ct)); [reflexivity|].
  destruct (boundaryMatch ct) as [boundary|]; [|reflexivity].
  destruct (JS.indexOf originalBody (js "--" ++ boundary ++ js "--"))
    as [finalIndex|]; [|reflexivity].
  destruct (setBody_Holds _ _ _ _
              (multipartBody originalBody boundary finalIndex parameters) H)
    as (w1 & E1 & H1 & S1).
  assert (Eb :
    fold_left (fun acc p => acc ++ multipartPart boundary p) parameters
      (if negb (JS.endsWith (JS.slice0 originalBody finalIndex) [13; 10]%N)
       then JS.slice0 originalBody finalIndex ++ [13; 10]%N
       else JS.slice0 originalBody finalIndex)
    ++ js "--" ++ boundary ++ js "--"
    = multipartBody originalBody boundary finalIndex parameters).
  { unfold multipartBody. rewrite fold_left_parts.
    destruct (JS.endsWith (JS.slice0 originalBody finalIndex) [13; 10]%N); simpl;
      rewrite <- ?app_assoc, ?app_nil_r; reflexivity. }
  rewrite Eb, (bind_Return _ _ _ _ _ E1).
  destruct (setHeader_Holds w1 request _ _ (js "Content-Type") ct H1)
    as (w2 & E2 & H2 & S2); [apply not_proto; reflexivity|].
  rewrite (bind_Return _ _ _ _ _ E2).
  exists w2. split; [reflexivity|]. split; [exact H2|].
  eapply sameEngine_trans; eauto.
Qed.

Lemma updateContentLength_Holds w request r hs :
  Holds w request r hs ->
  exists w', updateContentLength request w = (Return tt, w')
    /\ Holds w' request r
         (if (length (Request.body r) =? 0)%nat
          then delete (js "Content-Length") hs
          else <[js "Content-Length" :=
                   [JS.Number_toString (N.of_nat (length (Request.body r)))]]> hs)
    /\ sameEngine w w'.
Proof.
  intros H. unfold updateContentLength.
  rewrite (bind_Return _ _ _ _ _ (readRequest_Holds _ _ _ _ H)).
  destruct (length (Request.body r) =? 0)%nat.
  - apply deleteHeader_Holds; auto.
  - apply setHeader_Holds; auto; apply not_proto; reflexivity.
Qed.

End Encoders.

(** ** What the methods leave alone *)

(** [keeps field]: the field of the world is as it was. *)
Definition keeps {X} (field : World -> X) (w w' : World) : Prop :=
  field w' = field w.

#[global] Instance keeps_preorder {X} (field : World -> X) : PreOrder (keeps field).
Proof.
  split.
  - intros w. reflexivity.
  - intros w1 w2 w3 H1 H2. unfold keeps in *. congruence.
Qed.

(** One step of a proof that a method keeps to a frame: through the
    sequencing, into the branches, down to the primitives. *)
Ltac frame_step :=
  lazymatch goal with
  | |- frame _ (bind _ _) => apply frame_bind; [typeclasses eauto| |intros ?]
  | |- frame _ (ret _) => apply frame_ret; typeclasses eauto
  | |- frame _ (throw _) => apply frame_throw; typeclasses eauto
  | |- frame _ (tryCatch _ _) =>
      apply frame_tryCatch; [typeclasses eauto| |intros ?]
  | |- frame _ (forEach _ _) =>
      apply frame_forEach; [typeclasses eauto|intros ?]
  | |- frame _ (match ?x with _ => _ end) => destruct x
  | |- frame _ _ =>
      first [ solve [apply frame_readOnly; [typeclasses eauto|auto with frames]]
            | solve [auto with frames] ]
  end.

Ltac frames := repeat frame_step.

Lemma keeps_bodyType_emit e : frame (keeps bodyType) (emit e).
Proof. intros w. reflexivity. Qed.
Lemma keeps_bodyType_setStore s : frame (keeps bodyType) (setStore s).
Proof. intros w. reflexivity. Qed.
Lemma keeps_bodyType_alloc c : frame (keeps bodyType) (alloc c).
Proof. intros w. reflexivity. Qed.
Lemma keeps_bodyType_setMultipartBoundary b :
  frame (keeps bodyType) (setMultipartBoundary b).
Proof. intros w. reflexivity. Qed.

Lemma keeps_boundary_emit e : frame (keeps multipartBoundary) (emit e).
Proof. intros w. reflexivity. Qed.
Lemma keeps_boundary_setStore s : frame (keeps multipartBoundary) (setStore s).
Proof. intros w. reflexivity. Qed.
Lemma keeps_boundary_alloc c : frame (keeps multipartBoundary) (alloc c).
Proof. intros w. reflexivity. Qed.
Lemma keeps_boundary_setBodyType b :
  frame (keeps multipartBoundary) (setBodyType b).
Proof. intros w. reflexivity. Qed.

#[global] Hint Resolve keeps_bodyType_emit keeps_bodyType_setStore keeps_bodyType_alloc
  keeps_bodyType_setMultipartBoundary keeps_boundary_emit
  keeps_boundary_setStore keeps_boundary_alloc keeps_boundary_setBodyType
  : frames.

(** The assignments to a request and its headers write the store only. *)
Lemma keeps_assignments {X} (field : World -> X) :
  (forall s, frame (keeps field) (setStore s)) ->
  (forall c, frame (keeps field) (alloc c)) ->
  (forall l b, frame (keeps field) (setBody l b))
  /\ (forall l q, frame (keeps field) (setQuery l q))
  /\ (forall l n v, frame (keeps field) (setHeader l n v))
  /\ (forall l n, frame (keeps field) (deleteHeader l n)).
Proof.
  intros Hs Ha. repeat split; intros;
    unfold setBody, setQuery, setHeader, deleteHeader, write; frames.
Qed.

Lemma keeps_bodyType_setBody l b : frame (keeps bodyType) (setBody l b).
Proof. apply keeps_assignments; auto with frames. Qed.
Lemma keeps_bodyType_setQuery l q : frame (keeps bodyType) (setQuery l q).
Proof. apply keeps_assignments; auto with frames. Qed.
Lemma keeps_bodyType_setHeader l n v : frame (keeps bodyType) (setHeader l n v).
Proof. apply keeps_assignments; auto with frames. Qed.
Lemma keeps_bodyType_deleteHeader l n : frame (keeps bodyType) (deleteHeader l n).
Proof. apply keeps_assignments; auto with frames. Qed.

Lemma keeps_boundary_setBody l b : frame (keeps multipartBoundary) (setBody l b).
Proof. apply keeps_assignments; auto with frames. Qed.
Lemma keeps_boundary_setQuery l q : frame (keeps multipartBoundary) (setQuery l q).
Proof. apply keeps_assignments; auto with frames. Qed.
Lemma keeps_boundary_setHeader l n v :
  frame (keeps multipartBoundary) (setHeader l n v).
Proof. apply keeps_assignments; auto with frames. Qed.
Lemma keeps_boundary_deleteHeader l n :
  frame (keeps multipartBoundary) (deleteHeader l n).
Proof. apply keeps_assignments; auto with frames. Qed.

#[global] Hint Resolve keeps_bodyType_setBody keeps_bodyType_setQuery
  keeps_bodyType_setHeader keeps_bodyType_deleteHeader keeps_boundary_setBody
  keeps_boundary_setQuery keeps_boundary_setHeader keeps_boundary_deleteHeader
  : frames.

Section Keeps.

Context {host : Host}.
Variable paramMiner : ParamMiner.t.

(** No encoder writes [this.bodyType]. *)
Lemma keeps_bodyType_handleJSONBody l ps b :
  frame (keeps bodyType) (handleJSONBody paramMiner l ps b).
Proof. unfold handleJSONBody. frames. Qed.

Lemma keeps_bodyType_handleQueryBody l ps b :
  frame (keeps bodyType) (handleQueryBody l ps b).
Proof. unfold handleQueryBody. frames. Qed.

Lemma keeps_bodyType_handleMultipartBody l ps b :
  frame (keeps bodyType) (handleMultipartBody l ps b).
Proof. unfold handleMultipartBody. frames. Qed.

(** Detection and the JSON and URL-encoded encoders do not write
    [this.multipartBoundary]. *)
Lemma keeps_boundary_determineBodyType b ct :
  frame (keeps multipartBoundary) (determineBodyType paramMiner b ct).
Proof. unfold determineBodyType. frames. Qed.

Lemma keeps_boundary_handleJSONBody l ps b :
  frame (keeps multipartBoundary) (handleJSONBody paramMiner l ps b).
Proof. unfold handleJSONBody. frames. Qed.

Lemma keeps_boundary_handleQueryBody l ps b :
  frame (keeps multipartBoundary) (handleQueryBody l ps b).
Proof. unfold handleQueryBody. frames. Qed.

End Keeps.

(** ** Body injection: detection once, then the encoder of the format *)

Lemma bind_getWorld {B} (k : World -> M B) w : bind getWorld k w = k w w.
Proof. reflexivity. Qed.

Lemma bind_ret {A B} (a : A) (k : A -> M B) w : bind (ret a) k w = k a w.
Proof. reflexivity. Qed.

Lemma Holds_store w w' request r hs :
  store w' = store w -> Holds w request r hs -> Holds w' request r hs.
Proof.
  intros E (h & Hr & Hh & Hwf & ->). exists h.
  unfold headersOf, arrayAt in *. rewrite E. auto.
Qed.

Section BodyInjection.

Context {host : Host}.
Variable paramMiner : ParamMiner.t.

(** The [switch (this.bodyType)] of [handleBodyParameters]. *)
Definition encodeAs (f : BodyType.t) (request : loc)
  (parameters : list Param.t) (originalBody : jsstring) : M unit :=
  match f with
  | BodyType.json => handleJSONBody paramMiner request parameters originalBody
  | BodyType.query => handleQueryBody request parameters originalBody
  | BodyType.multipart => handleMultipartBody request parameters originalBody
  | BodyType.xml => throw UnsupportedBodyType
  end.

(** The content-type a request declares, as the engine reads it: the first
    value under the key [Content-Type]. *)
Definition declaredContentType (hs : gmap jsstring (list jsstring))
  : option jsstring :=
  hs !! js "Content-Type" ≫= head.

Lemma handleBodyParameters_cached w request r hs parameters f :
  Holds w request r hs -> bodyType w = Some f ->
  handleBodyParameters paramMiner request parameters w
  = encodeAs f request parameters (Request.body r) w.
Proof.
  intros H Hf. unfold handleBodyParameters.
  rewrite (bind_Return _ _ _ _ _ (readRequest_Holds _ _ _ _ H)).
  rewrite (bind_Return _ _ _ _ _ (headerFirst_Holds _ _ _ _ (js "Content-Type") H)).
  rewrite bind_getWorld, Hf, bind_ret, bind_getWorld, Hf.
  destruct f; reflexivity.
Qed.

Lemma handleBodyParameters_uncached w request r hs parameters :
  Holds w request r hs -> bodyType w = None ->
  exists d, Detects (declaredContentType hs) (Request.body r) d /\
    handleBodyParameters paramMiner request parameters w
    = match d with
      | Some f =>
          encodeAs f request parameters (Request.body r) (determined paramMiner f w)
      | None => (Throw UnsupportedBodyTypeDetected, w)
      end.
Proof.
  intros H Hn.
  destruct (determineBodyType_spec paramMiner w (Request.body r)
              (declaredContentType hs) Hn) as (d & Hd & E).
  exists d. split; [exact Hd|]. unfold handleBodyParameters.
  rewrite (bind_Return _ _ _ _ _ (readRequest_Holds _ _ _ _ H)).
  rewrite (bind_Return _ _ _ _ _ (headerFirst_Holds _ _ _ _ (js "Content-Type") H)).
  rewrite bind_getWorld, Hn. fold (declaredContentType hs).
  destruct d as [f|]; unfold detection in E.
  - rewrite (bind_Return _ _ _ _ _ E), bind_getWorld. simpl.
    destruct f; reflexivity.
  - rewrite (bind_Throw _ _ _ _ _ E). reflexivity.
Qed.

Lemma keeps_bodyType_encodeAs f request parameters originalBody :
  frame (keeps bodyType) (encodeAs f request parameters originalBody).
Proof.
  destruct f; simpl.
  - apply keeps_bodyType_handleJSONBody.
  - apply keeps_bodyType_handleQueryBody.
  - apply keeps_bodyType_handleMultipartBody.
  - apply frame_throw. typeclasses eauto.
Qed.

(** Once a format is stored, no call of [handleBodyParameters] changes it,
    whatever the request, and whether the call returns or throws. *)
Lemma handleBodyParameters_keeps_format w request parameters f :
  bodyType w = Some f ->
  bodyType (snd (handleBodyParameters paramMiner request parameters w)) = Some f.
Proof.
  intros Hf.
  assert (Hframe : frame (fun w w' => bodyType w = Some f -> bodyType w' = Some f)
            (handleBodyParameters paramMiner request parameters)).
  { assert (PreOrder (fun w w' : World => bodyType w = Some f -> bodyType w' = Some f)).
    { split; [intros ? ?; auto|intros ? ? ? H1 H2 ?; auto]. }
    unfold handleBodyParameters.
    apply frame_bind; [auto| |intros r].
    { apply frame_readOnly; auto with frames. }
    apply frame_bind; [auto| |intros ct].
    { apply frame_readOnly; auto with frames. }
    apply frame_getWorld_bind. intros w0 H0.
    rewrite H0, bind_ret, bind_getWorld, H0.
    change (bodyType (snd (encodeAs f request parameters (Request.body r) w0)) = Some f).
    rewrite <- H0. apply keeps_bodyType_encodeAs. }
  apply Hframe. exact Hf.
Qed.

(** A call of [handleBodyParameters] that throws leaves the cached boundary
    as it was. *)
Lemma handleBodyParameters_throw_boundary w request parameters e w' :
  handleBodyParameters paramMiner request parameters w = (Throw e, w') ->
  multipartBoundary w' = multipartBoundary w.
Proof.
  revert w e w'. change (frameT (keeps multipartBoundary)
                           (handleBodyParameters paramMiner request parameters)).
  unfold handleBodyParameters.
  apply frameT_bind; [typeclasses eauto| |intros r].
  { apply frame_readOnly; [typeclasses eauto|auto with frames]. }
  apply frameT_bind; [typeclasses eauto| |intros ct].
  { apply frame_readOnly; [typeclasses eauto|auto with frames]. }
  apply frameT_bind; [typeclasses eauto|apply frame_readOnly; [typeclasses eauto|auto with frames]|intros w0].
  apply frameT_bind; [typeclasses eauto| |intros []].
  { destruct (bodyType w0).
    - apply frame_ret. typeclasses eauto.
    - apply keeps_boundary_determineBodyType. }
  apply frameT_bind; [typeclasses eauto|apply frame_readOnly; [typeclasses eauto|auto with frames]|intros w1].
  destruct (bodyType w1) as [[]|].
  - apply frame_frameT. apply keeps_boundary_handleJSONBody.
  - apply frame_frameT. apply keeps_boundary_handleQueryBody.
  - (* the multipart encoder sets the boundary last, after every throw *)
    unfold handleMultipartBody.
    apply frameT_bind; [typeclasses eauto| |intros oct].
    { apply frame_readOnly; [typeclasses eauto|auto with frames]. }
    destruct oct as [oct|]; [|apply frame_frameT, frame_throw; typeclasses eauto].
    destruct (negb (truthy oct)); [apply frame_frameT, frame_throw; typeclasses eauto|].
    destruct (boundaryMatch oct) as [b|];
      [|apply frame_frameT, frame_throw; typeclasses eauto].
    destruct (JS.indexOf _ _);
      [|apply frame_frameT, frame_throw; typeclasses eauto].
    apply frameT_bind; [typeclasses eauto|auto with frames|intros []].
    apply frameT_bind; [typeclasses eauto|auto with frames|intros []].
    intros w2 e w3 E. discriminate E.
  - apply frame_frameT, frame_throw; typeclasses eauto.
  - apply frame_frameT, frame_throw; typeclasses eauto.
Qed.

End BodyInjection.

(** ** What a call writes in the store

    [writesOnly l hl f]: as long as [l] holds a request whose header object
    is at [hl], a computation writes at [l], at [hl] and at new references,
    and nowhere else; and the request at [l] keeps its header object, its
    identifier, its context and its URL, which are [hl] and [f]. *)

Definition fixedFields (r : Request.t) : jsstring * option jsstring * jsstring :=
  (Request.id r, Request.context r, Request.url r).

Definition requestAt (l hl : loc) (f : jsstring * option jsstring * jsstring)
  (w : World) : Prop :=
  exists r, store w !! l = Some (RequestCell r)
            /\ Request.headers r = hl /\ fixedFields r = f.

Definition writesOnly (l hl : loc) (f : jsstring * option jsstring * jsstring)
  (w w' : World) : Prop :=
  requestAt l hl f w ->
  requestAt l hl f w'
  /\ dom (store w) ⊆ dom (store w')
  /\ forall x, x ∈ dom (store w) -> x <> l -> x <> hl ->
       store w' !! x = store w !! x.

#[global] Instance writesOnly_preorder l hl f : PreOrder (writesOnly l hl f).
Proof.
  split.
  - intros w H. auto.
  - intros w1 w2 w3 H12 H23 H1.
    destruct (H12 H1) as (H2 & D12 & F12).
    destruct (H23 H2) as (H3 & D23 & F23).
    split; [exact H3|]. split; [set_solver|].
    intros x Hx Hl Hhl. rewrite F23; auto.
Qed.

(** A computation that leaves the store as it is. *)
Lemma writesOnly_same_store {A} l hl f (m : M A) :
  (forall w, store (snd (m w)) = store w) -> frame (writesOnly l hl f) m.
Proof.
  intros H w Hw. unfold requestAt in *. rewrite H. auto.
Qed.

Lemma writesOnly_emit l hl f e : frame (writesOnly l hl f) (emit e).
Proof. apply writesOnly_same_store. reflexivity. Qed.

Lemma writesOnly_setBodyType l hl f b : frame (writesOnly l hl f) (setBodyType b).
Proof. apply writesOnly_same_store. reflexivity. Qed.

Lemma writesOnly_setMultipartBoundary l hl f b :
  frame (writesOnly l hl f) (setMultipartBoundary b).
Proof. apply writesOnly_same_store. reflexivity. Qed.

Lemma writesOnly_alloc l hl f c : frame (writesOnly l hl f) (alloc c).
Proof.
  intros w (r & Hr & Hh & Hf). unfold alloc. simpl.
  assert (Hfr : store w !! fresh (dom (store w)) = None).
  { apply not_elem_of_dom, is_fresh. }
  split; [|split].
  - exists r. simpl. split; auto. rewrite lookup_insert_ne; auto. congruence.
  - rewrite dom_insert_L. set_solver.
  - intros x Hx _ _. rewrite lookup_insert_ne; auto.
    intros <-. apply elem_of_dom in Hx as [? ?]. congruence.
Qed.

Lemma writesOnly_write_request l hl f r' :
  Request.headers r' = hl -> fixedFields r' = f -> frame (writesOnly l hl f) (write l (RequestCell r')).
Proof.
  intros Hh Hf' w (r & Hr & _ & Hf). unfold write, setStore, bind, getWorld. simpl.
  split; [|split].
  - exists r'. simpl. split; auto. apply lookup_insert_eq.
  - rewrite dom_insert_L. set_solver.
  - intros x _ Hx _. rewrite lookup_insert_ne; auto.
Qed.

Lemma writesOnly_setBody l hl f b : frame (writesOnly l hl f) (setBody l b).
Proof.
  intros w Hw. pose proof Hw as (r & Hr & Hh & Hf).
  unfold setBody. rewrite (bind_Return _ _ _ _ _ (readRequest_ok _ _ _ Hr)).
  apply (writesOnly_write_request l hl f (Request.set_body b r)); auto.
Qed.

Lemma writesOnly_setQuery l hl f q : frame (writesOnly l hl f) (setQuery l q).
Proof.
  intros w Hw. pose proof Hw as (r & Hr & Hh & Hf).
  unfold setQuery. rewrite (bind_Return _ _ _ _ _ (readRequest_ok _ _ _ Hr)).
  apply (writesOnly_write_request l hl f (Request.set_query q r)); auto.
Qed.

(** Writing the header object of the request. *)
Lemma writesOnly_write_headers l hl f h h' w :
  requestAt l hl f w -> store w !! hl = Some (HeadersCell h) ->
  writesOnly l hl f w (snd (write hl (HeadersCell h') w)).
Proof.
  intros (r & Hr & Hh & Hf) Hhl _. unfold write, setStore, bind, getWorld. simpl.
  split; [|split].
  - exists r. simpl. split; auto. rewrite lookup_insert_ne; auto. congruence.
  - rewrite dom_insert_L. set_solver.
  - intros x _ _ Hx. rewrite lookup_insert_ne; auto.
Qed.

Lemma readRequest_fail w l c :
  store w !! l = c ->
  match c with Some (RequestCell _) => False | _ => True end ->
  readRequest l w = (Throw (Exn TypeError), w).
Proof.
  intros <-. unfold readRequest. rewrite bind_getWorld.
  destruct (store w !! l) as [[| |]|]; simpl; intros []; reflexivity.
Qed.

Lemma readHeaders_fail w l c :
  store w !! l = c ->
  match c with Some (HeadersCell _) => False | _ => True end ->
  readHeaders l w = (Throw (Exn TypeError), w).
Proof.
  intros <-. unfold readHeaders. rewrite bind_getWorld.
  destruct (store w !! l) as [[| |]|]; simpl; intros []; reflexivity.
Qed.

Lemma emit_run e w :
  emit e w = (Return tt, {| store := store w; bodyType := bodyType w;
                            multipartBoundary := multipartBoundary w;
                            events := events w ++ [e] |}).
Proof. reflexivity. Qed.

Lemma alloc_run c w :
  alloc c w = (Return (fresh (dom (store w))),
               {| store := <[fresh (dom (store w)) := c]> (store w);
                  bodyType := bodyType w;
                  multipartBoundary := multipartBoundary w;
                  events := events w |}).
Proof. reflexivity. Qed.

Lemma readHeaders_inv w l h w' :
  readHeaders l w = (Return h, w') ->
  w' = w /\ store w !! l = Some (HeadersCell h).
Proof.
  unfold readHeaders. rewrite bind_getWorld.
  destruct (store w !! l) as [[| |]|]; simpl; intros [= <- <-] || intros [=]; auto.
Qed.

Lemma readOnly_world {A} (m : M A) w res w' :
  readOnly m -> m w = (res, w') -> w' = w.
Proof. intros H E. specialize (H w). rewrite E in H. exact H. Qed.

Lemma writesOnly_setHeader l hl f n v : frame (writesOnly l hl f) (setHeader l n v).
Proof.
  intros w Hw. pose proof Hw as (r & Hr & <- & Hf).
  pose proof (writesOnly_alloc l (Request.headers r) f (ArrayCell [v]) w) as Ha.
  unfold setHeader. rewrite (bind_Return _ _ _ _ _ (readRequest_ok _ _ _ Hr)).
  destruct (alloc (ArrayCell [v]) w) as [[a|e] w1] eqn:Ea; [|discriminate Ea].
  rewrite (bind_Return _ _ _ _ _ Ea). simpl in Ha.
  destruct (readHeaders (Request.headers r) w1) as [[h|e] w1'] eqn:Eh.
  - apply readHeaders_inv in Eh as Eh'. destruct Eh' as [-> Eh'].
    rewrite (bind_Return _ _ _ _ _ Eh).
    destruct (JS.eqb n Assign.proto && negb (bool_decide (is_Some (h !! n))));
      [exact (Ha Hw)|].
    revert Hw. change (writesOnly l (Request.headers r) f w
      (snd (write (Request.headers r) (HeadersCell (<[n:=a]> h)) w1))).
    etransitivity; [exact Ha|].
    intros Hw1. eapply writesOnly_write_headers; eauto.
  - rewrite (bind_Throw _ _ _ _ _ Eh).
    apply (readOnly_world _ _ _ _ (readOnly_readHeaders _)) in Eh as ->.
    exact (Ha Hw).
Qed.

Lemma writesOnly_deleteHeader l hl f n : frame (writesOnly l hl f) (deleteHeader l n).
Proof.
  intros w Hw. pose proof Hw as (r & Hr & <- & Hf).
  unfold deleteHeader. rewrite (bind_Return _ _ _ _ _ (readRequest_ok _ _ _ Hr)).
  destruct (readHeaders (Request.headers r) w) as [[h|e] w1'] eqn:Eh.
  - apply readHeaders_inv in Eh as Eh'. destruct Eh' as [-> Eh'].
    rewrite (bind_Return _ _ _ _ _ Eh).
    eapply writesOnly_write_headers; eauto.
  - rewrite (bind_Throw _ _ _ _ _ Eh).
    apply (readOnly_world _ _ _ _ (readOnly_readHeaders _)) in Eh as ->.
    simpl. auto.
Qed.

#[global] Hint Resolve writesOnly_emit writesOnly_setBodyType
  writesOnly_setMultipartBoundary writesOnly_alloc writesOnly_setBody
  writesOnly_setQuery writesOnly_setHeader writesOnly_deleteHeader : frames.

Section Writes.

Context {host : Host}.
Variable paramMiner : ParamMiner.t.

Lemma writesOnly_handleQueryParameters l hl f ps :
  frame (writesOnly l hl f) (handleQueryParameters l ps).
Proof. unfold handleQueryParameters. frames. Qed.

Lemma writesOnly_handleCacheBusterParameter l hl f :
  frame (writesOnly l hl f) (handleCacheBusterParameter l).
Proof. unfold handleCacheBusterParameter, now. frames. Qed.

Lemma writesOnly_handleHeaderParameters l hl f ps :
  frame (writesOnly l hl f) (handleHeaderParameters l ps).
Proof. unfold handleHeaderParameters. frames. Qed.

Lemma writesOnly_determineBodyType l hl f b ct :
  frame (writesOnly l hl f) (determineBodyType paramMiner b ct).
Proof. unfold determineBodyType. frames. Qed.

Lemma writesOnly_handleJSONBody l hl f ps b :
  frame (writesOnly l hl f) (handleJSONBody paramMiner l ps b).
Proof. unfold handleJSONBody. frames. Qed.

Lemma writesOnly_handleQueryBody l hl f ps b :
  frame (writesOnly l hl f) (handleQueryBody l ps b).
Proof. unfold handleQueryBody. frames. Qed.

Lemma writesOnly_handleMultipartBody l hl f ps b :
  frame (writesOnly l hl f) (handleMultipartBody l ps b).
Proof. unfold handleMultipartBody. frames. Qed.

Hint Resolve writesOnly_determineBodyType writesOnly_handleJSONBody
  writesOnly_handleQueryBody writesOnly_handleMultipartBody : frames.

Lemma writesOnly_handleBodyParameters l hl f ps :
  frame (writesOnly l hl f) (handleBodyParameters paramMiner l ps).
Proof. unfold handleBodyParameters. frames. Qed.

Lemma writesOnly_updateContentLength l hl f :
  frame (writesOnly l hl f) (updateContentLength l).
Proof. unfold updateContentLength. frames. Qed.

Hint Resolve writesOnly_handleQueryParameters
  writesOnly_handleCacheBusterParameter writesOnly_handleHeaderParameters
  writesOnly_handleBodyParameters writesOnly_updateContentLength : frames.

(** The parts of [sendRequestWithParams] once its copy is in the store:
    the debug event, the [switch], the Content-Length update; then the
    transport and the decision callback. *)
Definition prepare (requestCopy : loc) (parameters : list Param.t) : M unit :=
  emit (Debug (js "[requester.ts] Sending request with "
               ++ JS.Number_toString (N.of_nat (length parameters))
               ++ js " parameters... (requestCopy has "
               ++ JS.Number_toString requestCopyKeys ++ js " parameters)")) ;;
  (match Config.attackType (config paramMiner) with
   | AttackType.query =>
       handleQueryParameters requestCopy parameters ;;
       if Config.cacheBusterParameter (config paramMiner)
          || Config.addCacheBusterParameter (config paramMiner)
       then handleCacheBusterParameter requestCopy
       else ret tt
   | AttackType.headers =>
       handleHeaderParameters requestCopy parameters ;;
       if Config.cacheBusterParameter (config paramMiner)
          || Config.addCacheBusterParameter (config paramMiner)
       then handleCacheBusterParameter requestCopy
       else ret tt
   | AttackType.body => handleBodyParameters paramMiner requestCopy parameters
   | AttackType.other => ret tt
   end) ;;
  (if Config.updateContentLength (config paramMiner)
   then updateContentLength requestCopy
   else ret tt).

Definition sendAndDecide (requestCopy : loc) (context : option jsstring)
  : M Response :=
  outgoing <- snapshot requestCopy ;;
  w <- getWorld ;;
  emit (SendRequest outgoing) ;;
  let requestResponse := sendRequest outgoing (events w) in
  (if Config.autopilotEnabled (config paramMiner)
      && bool_decide (context = Some discovery)
   then
     w <- getWorld ;;
     emit (AutopilotCheckResponse requestResponse) ;;
     let hasTakenAction := autopilotCheckResponse requestResponse (events w) in
     if hasTakenAction then emit (ConsoleLog (js "Autopilot has taken action."))
     else ret tt
   else ret tt) ;;
  ret requestResponse.

Lemma bind_assoc3 {A B C D} (a : M A) (b : M B) (c : M C) (k : C -> M D) w :
  bind (bind a (fun _ => bind b (fun _ => c))) k w
  = bind a (fun _ => bind b (fun _ => bind c k)) w.
Proof.
  unfold bind. destruct (a w) as [[x|e] w1]; [|reflexivity].
  destruct (b w1) as [[y|e] w2]; reflexivity.
Qed.

(** The copy the dispatcher makes, and the world it leaves in the store. *)
Definition copyOf (w : World) (r : Request.t) (context : option jsstring)
  : Request.t :=
  Request.mk (generateID (events w)) (Some (default discovery context))
    (Request.url r) (Request.query r) (Request.body r)
    (fresh (dom (store w))).

Definition copied (w : World) (r : Request.t) (h : gmap jsstring loc)
  (context : option jsstring) : loc * World :=
  let s1 := <[fresh (dom (store w)) := HeadersCell h]> (store w) in
  (fresh (dom s1),
   {| store := <[fresh (dom s1) := RequestCell (copyOf w r context)]> s1;
      bodyType := bodyType w;
      multipartBoundary := multipartBoundary w;
      events := events w ++ [GenerateID] |}).

Lemma sendRequestWithParams_copy w request parameters context :
  match store w !! request with
  | Some (RequestCell r) =>
      match store w !! Request.headers r with
      | Some (HeadersCell h) =>
          let '(requestCopy, w1) := copied w r h context in
          sendRequestWithParams paramMiner request parameters context w
          = bind (prepare requestCopy parameters)
              (fun _ => sendAndDecide requestCopy context) w1
      | _ =>
          sendRequestWithParams paramMiner request parameters context w
          = (Throw (Exn TypeError),
             {| store := store w; bodyType := bodyType w;
                multipartBoundary := multipartBoundary w;
                events := events w ++ [GenerateID] |})
      end
  | _ =>
      sendRequestWithParams paramMiner request parameters context w
      = (Throw (Exn TypeError), w)
  end.
Proof.
  unfold sendRequestWithParams.
  destruct (store w !! request) as [[r|h0|a0]|] eqn:Er;
    try (rewrite (bind_Throw _ _ _ _ _ (readRequest_fail w request _ Er I));
         reflexivity).
  rewrite (bind_Return _ _ _ _ _ (readRequest_ok _ _ _ Er)), bind_getWorld.
  rewrite (bind_Return _ _ _ _ _ (emit_run GenerateID w)).
  destruct (store w !! Request.headers r) as [[r0|h|a0]|] eqn:Eh;
    lazymatch goal with
    | |- context [bind (readHeaders ?l) ?k ?W] =>
        first [ rewrite (bind_Return _ k W _ W (readHeaders_ok W l _ Eh))
              | rewrite (bind_Throw _ k W _ W (readHeaders_fail W l _ Eh I));
                reflexivity ]
    end.
  rewrite (bind_Return _ _ _ _ _ (alloc_run _ _)).
  rewrite (bind_Return _ _ _ _ _ (alloc_run _ _)).
  unfold copied, copyOf, prepare. cbn [store bodyType multipartBoundary events].
  rewrite bind_assoc3. reflexivity.
Qed.

Lemma requestAt_copied w r h context :
  let '(requestCopy, w1) := copied w r h context in
  requestAt requestCopy (fresh (dom (store w)))
    (generateID (events w), Some (default discovery context), Request.url r) w1.
Proof.
  unfold copied. eexists. split; [apply lookup_insert_eq|]. split; reflexivity.
Qed.

Lemma writesOnly_prepare l hl f parameters :
  frame (writesOnly l hl f) (prepare l parameters).
Proof. unfold prepare. frames. Qed.

Lemma writesOnly_sendAndDecide l hl f context :
  frame (writesOnly l hl f) (sendAndDecide l context).
Proof. unfold sendAndDecide. frames. Qed.

(** The dispatcher writes new references only: every object of the store
    is, after the call, what it was before. *)
Lemma sendRequestWithParams_preserves w request parameters context l c :
  store w !! l = Some c ->
  store (snd (sendRequestWithParams paramMiner request parameters context w)) !! l
  = Some c.
Proof.
  intros Hl.
  pose proof (sendRequestWithParams_copy w request parameters context) as H.
  destruct (store w !! request) as [[r| |]|] eqn:Er;
    try (rewrite H; exact Hl).
  destruct (store w !! Request.headers r) as [[|h|]|] eqn:Eh;
    try (rewrite H; exact Hl).
  pose proof (requestAt_copied w r h context) as Hat.
  unfold copied in H, Hat. rewrite H.
  set (hc := fresh (dom (store w))) in *.
  set (s1 := <[hc := HeadersCell h]> (store w)) in *.
  set (rc := fresh (dom s1)) in *.
  assert (Hhc : store w !! hc = None) by apply not_elem_of_dom, is_fresh.
  assert (Hrc : s1 !! rc = None) by apply not_elem_of_dom, is_fresh.
  assert (Hl1 : s1 !! l = Some c).
  { unfold s1. rewrite lookup_insert_ne; auto. congruence. }
  assert (Hrest : frame (writesOnly rc hc
            (generateID (events w), Some (default discovery context), Request.url r))
            (bind (prepare rc parameters) (fun _ => sendAndDecide rc context))).
  { apply frame_bind; [typeclasses eauto|apply writesOnly_prepare|].
    intros _. apply writesOnly_sendAndDecide. }
  destruct (Hrest _ Hat) as (_ & _ & F).
  rewrite F.
  - cbn [store]. rewrite lookup_insert_ne; auto. congruence.
  - cbn [store]. apply elem_of_dom. rewrite lookup_insert_ne; [eauto|congruence].
  - congruence.
  - congruence.
Qed.

End Writes.

(** ** The events of a call *)

(** The event of the decision callback. *)
Definition isDecision (e : Event) : bool :=
  match e with
  | AutopilotCheckResponse _ => true
  | _ => false
  end.

(** [addsQuietly]: the events grow at the end, by events other than the
    decision callback. *)
Definition addsQuietly (w w' : World) : Prop :=
  exists evs, events w' = events w ++ evs /\ existsb isDecision evs = false.

#[global] Instance addsQuietly_preorder : PreOrder addsQuietly.
Proof.
  split.
  - intros w. exists []. rewrite app_nil_r. auto.
  - intros w1 w2 w3 (e1 & E1 & Q1) (e2 & E2 & Q2). exists (e1 ++ e2).
    rewrite E2, E1, <- app_assoc, existsb_app, Q1, Q2. auto.
Qed.

Lemma addsQuietly_same_events {A} (m : M A) :
  (forall w, events (snd (m w)) = events w) -> frame addsQuietly m.
Proof. intros H w. exists []. rewrite H, app_nil_r. auto. Qed.

Lemma addsQuietly_emit e : isDecision e = false -> frame addsQuietly (emit e).
Proof. intros H w. exists [e]. simpl. rewrite H. auto. Qed.

Lemma addsQuietly_setStore s : frame addsQuietly (setStore s).
Proof. apply addsQuietly_same_events. reflexivity. Qed.
Lemma addsQuietly_alloc c : frame addsQuietly (alloc c).
Proof. apply addsQuietly_same_events. reflexivity. Qed.
Lemma addsQuietly_setBodyType b : frame addsQuietly (setBodyType b).
Proof. apply addsQuietly_same_events. reflexivity. Qed.
Lemma addsQuietly_setMultipartBoundary b : frame addsQuietly (setMultipartBoundary b).
Proof. apply addsQuietly_same_events. reflexivity. Qed.

#[global] Hint Resolve addsQuietly_emit addsQuietly_setStore addsQuietly_alloc
  addsQuietly_setBodyType addsQuietly_setMultipartBoundary : frames.

Lemma addsQuietly_setBody l b : frame addsQuietly (setBody l b).
Proof. unfold setBody, write. frames. Qed.
Lemma addsQuietly_setQuery l q : frame addsQuietly (setQuery l q).
Proof. unfold setQuery, write. frames. Qed.
Lemma addsQuietly_setHeader l n v : frame addsQuietly (setHeader l n v).
Proof. unfold setHeader, write. frames. Qed.
Lemma addsQuietly_deleteHeader l n : frame addsQuietly (deleteHeader l n).
Proof. unfold deleteHeader, write. frames. Qed.

#[global] Hint Resolve addsQuietly_setBody addsQuietly_setQuery
  addsQuietly_setHeader addsQuietly_deleteHeader : frames.

Section Events.

Context {host : Host}.
Variable paramMiner : ParamMiner.t.

(** Up to the transport, a call never reaches the decision callback. *)
Lemma addsQuietly_prepare l parameters :
  frame addsQuietly (prepare paramMiner l parameters).
Proof.
  unfold prepare, handleQueryParameters, handleCacheBusterParameter, now,
    handleHeaderParameters, handleBodyParameters, determineBodyType,
    handleJSONBody, handleQueryBody, handleMultipartBody, updateContentLength.
  frames.
Qed.

(** What the decision callback adds to the events, after the request went
    out: nothing, unless the toggle is on and the caller passed the
    discovery label. *)
Definition decisionEvents (context : option jsstring) (response : Response)
  (before : list Event) : list Event :=
  if Config.autopilotEnabled (config paramMiner)
     && bool_decide (context = Some discovery)
  then AutopilotCheckResponse response
       :: (if autopilotCheckResponse response before
           then [ConsoleLog (js "Autopilot has taken action.")]
           else [])
  else [].

Lemma sendAndDecide_run w requestCopy context :
  match snapshot requestCopy w with
  | (Return outgoing, _) =>
      let response := sendRequest outgoing (events w) in
      sendAndDecide paramMiner requestCopy context w
      = (Return response,
         {| store := store w; bodyType := bodyType w;
            multipartBoundary := multipartBoundary w;
            events := (events w ++ [SendRequest outgoing])
                      ++ decisionEvents context response
                           (events w ++ [SendRequest outgoing]) |})
  | (Throw e, _) =>
      sendAndDecide paramMiner requestCopy context w = (Throw e, w)
  end.
Proof.
  unfold sendAndDecide, decisionEvents.
  destruct (snapshot requestCopy w) as [[outgoing|e] w1] eqn:Es;
    pose proof (readOnly_world _ _ _ _ (readOnly_snapshot _) Es) as ->.
  - rewrite (bind_Return _ _ _ _ _ Es), bind_getWorld.
    rewrite (bind_Return _ _ _ _ _ (emit_run _ _)).
    destruct (Config.autopilotEnabled (config paramMiner)
              && bool_decide (context = Some discovery)).
    + cbv [bind getWorld emit ret].
      cbn [store bodyType multipartBoundary events].
      destruct (autopilotCheckResponse _ _);
        cbn [store bodyType multipartBoundary events];
        rewrite <- ?app_assoc; reflexivity.
    + rewrite bind_ret. unfold ret. rewrite app_nil_r. reflexivity.
  - apply bind_Throw. exact Es.
Qed.

Lemma snapshot_sent w requestCopy outgoing w' r :
  snapshot requestCopy w = (Return outgoing, w') ->
  store w !! requestCopy = Some (RequestCell r) -> sent outgoing = r.
Proof.
  intros E Hr. unfold snapshot in E.
  rewrite (bind_Return _ _ _ _ _ (readRequest_ok _ _ _ Hr)) in E.
  destruct (readHeaders (Request.headers r) w) as [[h|e] w1] eqn:Eh.
  - rewrite (bind_Return _ _ _ _ _ Eh) in E. rewrite bind_getWorld in E.
    injection E as <- _. reflexivity.
  - rewrite (bind_Throw _ _ _ _ _ Eh) in E. discriminate E.
Qed.

End Events.

(** ** Properties written into a JSON object *)

Lemma eqb_true (a b : jsstring) : JS.eqb a b = true <-> a = b.
Proof. unfold JS.eqb. apply bool_decide_eq_true. Qed.

Lemma eqb_false (a b : jsstring) : JS.eqb a b = false <-> a <> b.
Proof. unfold JS.eqb. apply bool_decide_eq_false. Qed.

Lemma eqb_refl (a : jsstring) : JS.eqb a a = true.
Proof. apply eqb_true. reflexivity. Qed.

Lemma eqb_sym (a b : jsstring) : JS.eqb a b = JS.eqb b a.
Proof.
  destruct (JS.eqb b a) eqn:E.
  - apply eqb_true in E. apply eqb_true. auto.
  - apply eqb_false in E. apply eqb_false. auto.
Qed.









(** The value of the last pair under a key, if any. *)
Fixpoint lastValue (source : list (jsstring * jsstring)) (k : jsstring)
  : option jsstring :=
  match source with
  | [] => None
  | (k', v) :: rest =>
      match lastValue rest k with
      | Some v' => Some v'
      | None => if JS.eqb k' k then Some v else None
      end
  end.

(** The value of the last parameter of a batch under a name, if any. *)
Definition lastParam (parameters : list Param.t) (name : jsstring)
  : option jsstring :=
  lastValue (List.map (fun p => (Param.name p, Param.value p)) parameters) name.



(** *** The object the parameters are gathered in *)

Lemma keys_replace k v ps :
  List.map fst (JSON.replace k v ps) = List.map fst ps.
Proof.
  induction ps as [|[k0 v0] ps IH]; simpl; [reflexivity|].
  destruct (JS.eqb k0 k); simpl; congruence.
Qed.

Lemma keys_insertIndex i k v ps :
  List.map fst (JSON.insertIndex i k v ps) ≡ₚ k :: List.map fst ps.
Proof.
  induction ps as [|[k0 v0] ps IH]; simpl; [reflexivity|].
  destruct (JSON.isArrayIndex k0) as [j|]; [destruct (i <? j)%N|]; simpl;
    try reflexivity.
  rewrite IH. apply Permutation_swap.
Qed.

Lemma keys_put k v ps :
  List.map fst (JSON.put k v ps)
  ≡ₚ if JSON.hasOwn ps k then List.map fst ps else k :: List.map fst ps.
Proof.
  unfold JSON.put. destruct (JSON.hasOwn ps k).
  - rewrite keys_replace. reflexivity.
  - destruct (JSON.isArrayIndex k).
    + apply keys_insertIndex.
    + rewrite List.map_app. simpl. symmetry. apply Permutation_cons_append.
Qed.




Definition gathered (parameters : list Param.t) (acc : list (jsstring * json))
  : list (jsstring * json) :=
  fold_left (fun acc p => JSON.put (Param.name p) (JString (Param.value p)) acc)
    parameters acc.







Section InjectJSON.

Context {host : Host}.
Variable paramMiner : ParamMiner.t.

(** The path the library is asked: the configured one, with the root marker
    and a dot put in front unless it starts with the root marker. *)
Definition effectivePath (jsonPath : jsstring) : jsstring :=
  if JS.startsWith jsonPath (js "$") then jsonPath else js "$." ++ jsonPath.

(** A target path is configured: [jsonBodyPath] is a non-empty string. *)
Definition configuredPath : option jsstring :=
  match Config.jsonBodyPath (config paramMiner) with
  | Some p => if truthy p then Some p else None
  | None => None
  end.




End InjectJSON.

(** ** The multipart boundary and the body the encoder builds *)

Lemma boundaryMatch_eq s :
  boundaryMatch s =
  match (if JS.startsWith s (js "boundary=") then
           match dotRun (drop 9 s) with
           | [] => None
           | g => Some g
           end
         else None) with
  | Some g => Some g
  | None => match s with
            | [] => None
            | _ :: s' => boundaryMatch s'
            end
  end.
Proof. destruct s; reflexivity. Qed.

(** A content-type without [boundary=] yields no boundary. *)
Lemma boundaryMatch_None s :
  (forall before rest, s <> before ++ js "boundary=" ++ rest) ->
  boundaryMatch s = None.
Proof.
  induction s as [|c s IH]; intros H; rewrite boundaryMatch_eq.
  - destruct (JS.startsWith [] (js "boundary=")) eqn:E; [|reflexivity].
    apply startsWith_spec in E as [t Ht]. discriminate Ht.
  - destruct (JS.startsWith (c :: s) (js "boundary=")) eqn:E.
    + apply startsWith_spec in E as [t Ht]. exfalso. apply (H [] t). exact Ht.
    + apply IH. intros before rest ->. apply (H (c :: before) rest). reflexivity.
Qed.

(** *** The boundary, in the words of a specification *)












(** *** The parts, in the words of a specification *)


Definition quote : jsstring := [34%N].




(** ** Example worlds *)

Module Example.

(** A world with one request, at reference 1; its header object, at 2,
    holds the given headers, whose value arrays are at 3, 4, ... *)
Definition request (body : jsstring) : Request.t :=
  Request.mk (js "original") None (js "https://target.example/api") [] body 2.

Definition headerObject (headers : list (jsstring * list jsstring))
  : gmap jsstring loc :=
  list_to_map (imap (fun i kv => (fst kv, Pos.of_nat (3 + i))) headers).

Definition world (body : jsstring) (headers : list (jsstring * list jsstring))
  (format : option BodyType.t) (boundary : option jsstring) : World :=
  {| store :=
       <[1%positive := RequestCell (request body)]>
         (<[2%positive := HeadersCell (headerObject headers)]>
            (list_to_map
               (imap (fun i kv => (Pos.of_nat (3 + i), ArrayCell (snd kv)))
                  headers)));
     bodyType := format;
     multipartBoundary := boundary;
     events := [] |}.

Definition param (name value : String.string) : Param.t :=
  Param.mk (js name) (js value).

Definition miner (attack : AttackType.t) (contentLength autopilot : bool)
  (path : option jsstring) : ParamMiner.t :=
  ParamMiner.mk (Config.mk attack false false contentLength autopilot path)
    (js "miner-1").

End Example.

(** A world built by [Example.world] holds its request. *)
Ltac example_holds :=
  eexists; split; [vm_compute; reflexivity|];
  split; [vm_compute; reflexivity|];
  split; [apply map_Forall_to_list; vm_compute; repeat constructor; eexists; reflexivity
         |vm_compute; reflexivity].


(** * The claims *)

Section Claims.

Context {host : Host}.
Variable paramMiner : ParamMiner.t.

(** The world after a list of body-surface injection calls, each on a
    request and a batch of its own, whether a call returns or throws. *)
Definition afterCalls (calls : list (loc * list Param.t)) (w : World) : World :=
  fold_left
    (fun w call => snd (handleBodyParameters paramMiner (fst call) (snd call) w))
    calls w.

Lemma afterCalls_keeps_format calls : forall w f,
  bodyType w = Some f -> bodyType (afterCalls calls w) = Some f.
Proof.
  induction calls as [|[request parameters] calls IH]; intros w f Hf; simpl.
  - exact Hf.
  - apply IH. apply handleBodyParameters_keeps_format. exact Hf.
Qed.

(** C1. Within one engine instance the body format is determined at most
    once and is immutable thereafter.  A body-surface call that finds no
    cached format runs the detector on the body and the declared
    content-type of its request; when the detector answers a format, that
    format is stored (and logged) before the encoder runs, so it stays
    stored whatever the encoder does.  A call that finds a format stored is
    the encoder of that format and nothing else: the detector is not run,
    whatever the body of the new request would detect as; and after any
    further calls, on any requests, the stored format is still the same. *)
Theorem body_format_determined_once w request r hs parameters :
  Holds w request r hs ->
  (bodyType w = None ->
   exists d,
     Detects (declaredContentType hs) (Request.body r) d
     /\ handleBodyParameters paramMiner request parameters w
        = match d with
          | Some f =>
              encodeAs paramMiner f request parameters (Request.body r)
                (determined paramMiner f w)
          | None => (Throw UnsupportedBodyTypeDetected, w)
          end
     /\ forall f, d = Some f ->
          bodyType (snd (handleBodyParameters paramMiner request parameters w))
          = Some f)
  /\ (forall f, bodyType w = Some f ->
      handleBodyParameters paramMiner request parameters w
      = encodeAs paramMiner f request parameters (Request.body r) w
      /\ forall calls, bodyType (afterCalls calls w) = Some f).
Proof.
  intros H. split.
  - intros Hn.
    destruct (handleBodyParameters_uncached paramMiner w request r hs parameters H Hn)
      as (d & Hd & E).
    exists d. split; [exact Hd|]. split; [exact E|].
    intros f ->. rewrite E.
    apply (keeps_bodyType_encodeAs paramMiner f request parameters (Request.body r)
             (determined paramMiner f w)).
  - intros f Hf. split.
    + apply (handleBodyParameters_cached paramMiner w request r hs parameters f H Hf).
    + intros calls. apply afterCalls_keeps_format. exact Hf.
Qed.

(** C2. The format detector, run with nothing cached on a body and the
    declared content-type (lower-cased, as [handleBodyParameters] passes
    it), answers what [Detects] says: the declared content-type is matched
    first, in any letter case, against application/json (json),
    application/x-www-form-urlencoded (url-encoded), multipart/form-data
    (multipart), application/xml or text/xml (xml), the earlier pattern
    winning; only when none is mentioned, or nothing is declared, the body
    is sniffed: a strict JSON parse that succeeds gives json, else the
    grammar of key=value pairs gives url-encoded (the empty string is one of
    its sentences), else the XML-like shape gives xml, else the detector
    fails with UnsupportedFormat and stores nothing. *)
Theorem format_detector_priority w body declared :
  bodyType w = None ->
  exists r,
    Detects declared body r
    /\ determineBodyType paramMiner body (JS.toLowerCase <$> declared) w
       = detection paramMiner r w.
Proof. apply determineBodyType_spec. Qed.


(** C7. The dispatcher never mutates what the caller passed in.  Every
    object that is in the store before a call of [sendRequestWithParams]
    is the same object after it, whether the call returns or throws: the
    request, its header object, every header value sequence.  So the
    caller's request holds the same fields and the same headers.  All
    writes go to the copy, its header object and arrays made during the
    call. *)
Theorem caller_request_untouched w request parameters context :
  let w' :=
    snd (sendRequestWithParams paramMiner request parameters context w) in
  (forall l c, store w !! l = Some c -> store w' !! l = Some c)
  /\ (forall r hs, Holds w request r hs -> Holds w' request r hs).
Proof.
  intros w'.
  assert (Hp : forall l c, store w !! l = Some c -> store w' !! l = Some c).
  { intros l c Hl. apply sendRequestWithParams_preserves. exact Hl. }
  split; [exact Hp|].
  intros r hs (h & Hr & Hh & Hwf & ->).
  assert (Harr : forall k a, h !! k = Some a -> arrayAt w' a = arrayAt w a).
  { intros k a Ha. destruct (Hwf _ _ Ha) as [vs Hvs]. unfold arrayAt in *.
    destruct (store w !! a) as [c|] eqn:Ea; [|discriminate].
    rewrite (Hp _ _ Ea). reflexivity. }
  exists h. split; [apply Hp; exact Hr|]. split; [apply Hp; exact Hh|]. split.
  - intros k a Ha. rewrite (Harr k a Ha). eapply Hwf; eauto.
  - unfold headersOf. apply map_eq. intros k. rewrite !lookup_omap.
    destruct (h !! k) as [a|] eqn:Ea; simpl; [|reflexivity].
    symmetry. eapply Harr; eauto.
Qed.

(** C10. The declared content-type is read from the header key spelled
    exactly [Content-Type].  A request that has no header under that key,
    whatever it has under other spellings such as [content-type], declares
    nothing: detection is run as with no content-type, and the multipart
    encoder fails with MissingContentType.  The JSON and URL-encoded
    encoders write the content-type they force under the lower-case key
    [content-type] and leave the other headers alone: a request that had a
    [Content-Type] header has both entries afterwards.  The URL-encoded
    encoder does return on such a request whenever the batch can be
    encoded, and the JSON encoder whenever the body parses and the
    parameters can be written. *)
Theorem content_type_key_is_case_sensitive w request r hs parameters :
  Holds w request r hs ->
  (hs !! js "Content-Type" = None ->
   headerFirst request (js "Content-Type") w = (Return None, w)
   /\ handleMultipartBody request parameters (Request.body r) w
      = (Throw MissingContentTypeHeader, w)
   /\ (bodyType w = None ->
       exists d,
         Detects None (Request.body r) d
         /\ handleBodyParameters paramMiner request parameters w
            = match d with
              | Some f =>
                  encodeAs paramMiner f request parameters (Request.body r)
                    (determined paramMiner f w)
              | None => (Throw UnsupportedBodyTypeDetected, w)
              end))
  /\ (forall values,
        hs !! js "Content-Type" = Some values ->
        (forall bodyObj bodyObj',
           parseBody (Request.body r) = Some bodyObj ->
           injectJSON paramMiner bodyObj parameters = inr bodyObj' ->
           exists w' hs',
             handleJSONBody paramMiner request parameters (Request.body r) w
             = (Return tt, w')
             /\ Holds w' request
                  (Request.set_body (JSON.stringify numberToString bodyObj') r) hs'
             /\ hs' !! js "Content-Type" = Some values
             /\ hs' !! js "content-type" = Some [js "application/json"])
        /\ (forall pairs,
              encodePairs parameters = Some pairs ->
              exists w' hs',
                handleQueryBody request parameters (Request.body r) w
                = (Return tt, w')
                /\ Holds w' request
                     (Request.set_body (queryBody (Request.body r) pairs) r) hs'
                /\ hs' !! js "Content-Type" = Some values
                /\ hs' !! js "content-type"
                   = Some [js "application/x-www-form-urlencoded"])
        /\ forall w',
             (handleJSONBody paramMiner request parameters (Request.body r) w
              = (Return tt, w') ->
              exists r' hs',
                Holds w' request r' hs'
                /\ hs' !! js "Content-Type" = Some values
                /\ hs' !! js "content-type" = Some [js "application/json"])
             /\ (handleQueryBody request parameters (Request.body r) w
                 = (Return tt, w') ->
                 exists r' hs',
                   Holds w' request r' hs'
                   /\ hs' !! js "Content-Type" = Some values
                   /\ hs' !! js "content-type"
                      = Some [js "application/x-www-form-urlencoded"])).
Proof.
  intros H. split.
  - intros Hn.
    assert (Hd : declaredContentType hs = None).
    { unfold declaredContentType. rewrite Hn. reflexivity. }
    split; [|split].
    + rewrite (headerFirst_Holds _ _ _ _ (js "Content-Type") H), Hn. reflexivity.
    + pose proof (handleMultipartBody_Holds w request r hs parameters
                    (Request.body r) H) as Hrun.
      rewrite Hn in Hrun. exact Hrun.
    + intros Hbt.
      destruct (handleBodyParameters_uncached paramMiner w request r hs
                  parameters H Hbt) as (d & Hdet & E).
      rewrite Hd in Hdet. eauto.
  - assert (Hkey : js "content-type" <> js "Content-Type").
    { intros E. vm_compute in E. discriminate E. }
    intros values Hv. split; [|split; [|intros w'; split]].
    + intros bodyObj bodyObj' Ep Ei.
      pose proof (handleJSONBody_Holds paramMiner w request r hs parameters
                    (Request.body r) H) as Hrun.
      rewrite Ep, Ei in Hrun. destruct Hrun as (w1 & E1 & H1 & _).
      eexists w1, _. split; [exact E1|]. split; [exact H1|]. split.
      * rewrite lookup_insert_ne by exact Hkey. exact Hv.
      * apply lookup_insert_eq.
    + intros pairs Ep.
      pose proof (handleQueryBody_Holds w request r hs parameters
                    (Request.body r) H) as Hrun.
      rewrite Ep in Hrun. destruct Hrun as (w1 & E1 & H1 & _).
      eexists w1, _. split; [exact E1|]. split; [exact H1|]. split.
      * rewrite lookup_insert_ne by exact Hkey. exact Hv.
      * apply lookup_insert_eq.
    + intros Erun.
      pose proof (handleJSONBody_Holds paramMiner w request r hs parameters
                    (Request.body r) H) as Hrun.
      destruct (parseBody (Request.body r)) as [bodyObj|];
        [|rewrite Hrun in Erun; discriminate Erun].
      destruct (injectJSON paramMiner bodyObj parameters) as [e|bodyObj'];
        [rewrite Hrun in Erun; discriminate Erun|].
      destruct Hrun as (w1 & E1 & H1 & _). rewrite E1 in Erun.
      injection Erun as <-. eexists _, _. split; [exact H1|]. split.
      * rewrite lookup_insert_ne by exact Hkey. exact Hv.
      * apply lookup_insert_eq.
    + intros Erun.
      pose proof (handleQueryBody_Holds w request r hs parameters
                    (Request.body r) H) as Hrun.
      destruct (encodePairs parameters) as [pairs|];
        [|rewrite Hrun in Erun; discriminate Erun].
      destruct Hrun as (w1 & E1 & H1 & _). rewrite E1 in Erun.
      injection Erun as <-. eexists _, _. split; [exact H1|]. split.
      * rewrite lookup_insert_ne by exact Hkey. exact Hv.
      * apply lookup_insert_eq.
Qed.

(** An encoder never ends with the error of the detector. *)
Lemma encodeAs_error f w request r hs parameters e w' :
  Holds w request r hs ->
  encodeAs paramMiner f request parameters (Request.body r) w = (Throw e, w') ->
  e <> UnsupportedBodyTypeDetected.
Proof.
  intros H E. destruct f; simpl in E.
  - pose proof (handleJSONBody_Holds paramMiner w request r hs parameters
                  (Request.body r) H) as Hrun.
    destruct (parseBody (Request.body r)) as [bodyObj|];
      [|rewrite Hrun in E; injection E as <- _; discriminate].
    destruct (injectJSON paramMiner bodyObj parameters) as [x|bodyObj'];
      [rewrite Hrun in E; injection E as <- _; discriminate|].
    destruct Hrun as (w1 & E1 & _). rewrite E1 in E. discriminate E.
  - pose proof (handleQueryBody_Holds w request r hs parameters
                  (Request.body r) H) as Hrun.
    destruct (encodePairs parameters) as [pairs|];
      [|rewrite Hrun in E; injection E as <- _; discriminate].
    destruct Hrun as (w1 & E1 & _). rewrite E1 in E. discriminate E.
  - pose proof (handleMultipartBody_Holds w request r hs parameters
                  (Request.body r) H) as Hrun.
    destruct (hs !! js "Content-Type" ≫= head) as [ct|];
      [|rewrite Hrun in E; injection E as <- _; discriminate].
    destruct (negb (truthy ct));
      [rewrite Hrun in E; injection E as <- _; discriminate|].
    destruct (boundaryMatch ct) as [b|];
      [|rewrite Hrun in E; injection E as <- _; discriminate].
    destruct (JS.indexOf _ _) as [i|];
      [|rewrite Hrun in E; injection E as <- _; discriminate].
    destruct Hrun as (w1 & E1 & _). rewrite E1 in E. discriminate E.
  - injection E as <- _. discriminate.
Qed.

(** C9, as amended.  A body-surface injection call that fails leaves the
    cached multipart boundary as it was, and leaves the cached format as it
    was when a format was cached before the call or when it is the detector
    that failed.  When no format was cached and the detector answered one,
    that format is stored although the call then fails in the encoder or
    for want of one. *)
Theorem failed_injection_and_the_cache w request r hs parameters e w' :
  Holds w request r hs ->
  handleBodyParameters paramMiner request parameters w = (Throw e, w') ->
  multipartBoundary w' = multipartBoundary w
  /\ (is_Some (bodyType w) -> bodyType w' = bodyType w)
  /\ (bodyType w = None ->
      (e = UnsupportedBodyTypeDetected /\ w' = w)
      \/ (e <> UnsupportedBodyTypeDetected
          /\ exists f,
               Detects (declaredContentType hs) (Request.body r) (Some f)
               /\ bodyType w' = Some f)).
Proof.
  intros H E. split; [|split].
  - eapply handleBodyParameters_throw_boundary. exact E.
  - intros [f Hf]. rewrite Hf.
    pose proof (handleBodyParameters_keeps_format paramMiner w request parameters f Hf)
      as Hk.
    rewrite E in Hk. exact Hk.
  - intros Hn.
    destruct (handleBodyParameters_uncached paramMiner w request r hs parameters H Hn)
      as (d & Hd & Erun).
    rewrite E in Erun. destruct d as [f|].
    + right. symmetry in Erun. split.
      * eapply (encodeAs_error f (determined paramMiner f w)); [|exact Erun].
        eapply Holds_store; [|exact H]. reflexivity.
      * exists f. split; [exact Hd|].
        pose proof (keeps_bodyType_encodeAs paramMiner f request parameters
                      (Request.body r) (determined paramMiner f w)) as Hk.
        rewrite Erun in Hk. exact Hk.
    + left. injection Erun as -> ->. auto.
Qed.

(** C8, as amended.  The events a call of the dispatcher adds contain the
    decision callback exactly when the call gets as far as the transport,
    the autopilot toggle is on and the caller passed the discovery label
    itself.  When the call returns, the request that went out is tagged with
    the label the caller passed, or with discovery when the caller passed
    none; that default does not open the gate of the callback. *)
Theorem decision_callback_gate w request parameters context res w' :
  sendRequestWithParams paramMiner request parameters context w = (res, w') ->
  exists new,
    events w' = events w ++ new
    /\ (existsb isDecision new = true <->
        (exists response, res = Return response)
        /\ Config.autopilotEnabled (config paramMiner) = true
        /\ context = Some discovery)
    /\ forall response, res = Return response ->
         exists before outgoing,
           new = before ++ SendRequest outgoing
                 :: decisionEvents paramMiner context response
                      (events w ++ before ++ [SendRequest outgoing])
           /\ existsb isDecision before = false
           /\ Request.context (sent outgoing) = Some (default discovery context).
Proof.
  intros E.
  assert (Hquiet : forall new e,
            existsb isDecision new = false -> res = Throw e ->
            (existsb isDecision new = true <->
             (exists response, res = Return response)
             /\ Config.autopilotEnabled (config paramMiner) = true
             /\ context = Some discovery)
            /\ forall response, res = Return response ->
                 exists before outgoing,
                   new = before ++ SendRequest outgoing
                         :: decisionEvents paramMiner context response
                              (events w ++ before ++ [SendRequest outgoing])
                   /\ existsb isDecision before = false
                   /\ Request.context (sent outgoing)
                      = Some (default discovery context)).
  { intros new e Hq ->. split.
    - rewrite Hq. split; [discriminate|]. intros [[? [=]] _].
    - intros ? [=]. }
  pose proof (sendRequestWithParams_copy paramMiner w request parameters context)
    as Hcopy.
  destruct (store w !! request) as [[r|h0|a0]|] eqn:Er;
    try (rewrite Hcopy in E; injection E as <- <-; exists [];
         split; [rewrite app_nil_r; reflexivity|];
         eapply Hquiet; reflexivity).
  destruct (store w !! Request.headers r) as [[r0|h|a0]|] eqn:Eh;
    try (rewrite Hcopy in E; injection E as <- <-; exists [GenerateID];
         split; [reflexivity|]; eapply Hquiet; reflexivity).
  pose proof (requestAt_copied w r h context) as Hat.
  destruct (copied w r h context) as [rc w1] eqn:Ec.
  assert (Ev1 : events w1 = events w ++ [GenerateID]).
  { unfold copied in Ec. injection Ec as _ <-. reflexivity. }
  rewrite Hcopy in E. clear Hcopy.
  pose proof (addsQuietly_prepare paramMiner rc parameters w1) as (evs & Ev2 & Hq).
  pose proof (writesOnly_prepare paramMiner rc _ _ parameters w1 Hat) as (Hat2 & _).
  unfold bind in E.
  destruct (prepare paramMiner rc parameters w1) as [[[]|e] w2] eqn:Ep;
    cbn [snd] in Ev2, Hat2.
  - pose proof (sendAndDecide_run paramMiner w2 rc context) as Hsend.
    destruct (snapshot rc w2) as [[outgoing|e] w3] eqn:Es.
    + cbv zeta in Hsend. rewrite Hsend in E. injection E as <- <-.
      cbn [events]. rewrite Ev2, Ev1.
      exists (([GenerateID] ++ evs) ++ SendRequest outgoing
              :: decisionEvents paramMiner context
                   (sendRequest outgoing ((events w ++ [GenerateID]) ++ evs))
                   ((events w ++ ([GenerateID] ++ evs)) ++ [SendRequest outgoing])).
      split; [|split].
      * rewrite <- !app_assoc. reflexivity.
      * rewrite existsb_app. cbn [existsb app isDecision]. rewrite Hq.
        cbn [orb]. unfold decisionEvents.
        destruct (Config.autopilotEnabled (config paramMiner)); cbn [andb].
        2:{ split; [discriminate|]. intros (_ & [=] & _). }
        destruct (bool_decide (context = Some discovery)) eqn:Ed.
        -- apply bool_decide_eq_true in Ed. cbn [existsb isDecision orb].
           split; [|reflexivity]. intros _. eauto.
        -- apply bool_decide_eq_false in Ed. cbn [existsb].
           split; [discriminate|]. intros (_ & _ & ?). contradiction.
      * intros response [= <-]. exists ([GenerateID] ++ evs), outgoing.
        split; [|split].
        -- rewrite <- !app_assoc. reflexivity.
        -- exact Hq.
        -- destruct Hat2 as (r2 & Hr2 & _ & Hf).
           rewrite (snapshot_sent _ _ _ _ _ Es Hr2).
           unfold fixedFields in Hf. congruence.
    + rewrite Hsend in E. injection E as <- <-. rewrite Ev2, Ev1.
      exists ([GenerateID] ++ evs). split; [rewrite app_assoc; reflexivity|].
      eapply Hquiet; [|reflexivity]. exact Hq.
  - injection E as <- <-. rewrite Ev2, Ev1.
    exists ([GenerateID] ++ evs). split; [rewrite app_assoc; reflexivity|].
    eapply Hquiet; [|reflexivity]. exact Hq.
Qed.

(** *** Encoding, then detecting afresh *)

(** An engine that has cached nothing. *)
Definition freshEngine : World :=
  {| store := ∅; bodyType := None; multipartBoundary := None; events := [] |}.

(** What a fresh detector stores for a body and a declared content-type;
    [None] when it fails. *)
Definition redetected (body : jsstring) (declared : option jsstring)
  : option BodyType.t :=
  bodyType
    (snd (determineBodyType paramMiner body (JS.toLowerCase <$> declared)
            freshEngine)).

Lemma redetected_Detects body declared r :
  Detects declared body r <-> redetected body declared = r.
Proof.
  unfold redetected.
  destruct (determineBodyType_spec paramMiner freshEngine body declared eq_refl)
    as (r0 & H0 & E).
  rewrite E. assert (bodyType (snd (detection paramMiner r0 freshEngine)) = r0) as ->.
  { destruct r0; reflexivity. }
  split.
  - intros H. eapply Detects_functional; eauto.
  - intros <-. exact H0.
Qed.

(** The header key under which an encoder leaves its content-type. *)
Definition contentTypeKey (f : BodyType.t) : jsstring :=
  match f with
  | BodyType.multipart => js "Content-Type"
  | _ => js "content-type"
  end.

(** What a fresh detector stores for the request at a reference, reading
    its content-type under [key]. *)
Definition redetectIn (w : World) (request : loc) (key : jsstring)
  : option BodyType.t :=
  match fst (readRequest request w), fst (headerFirst request key w) with
  | Return r, Return declared => redetected (Request.body r) declared
  | _, _ => None
  end.

Lemma redetectIn_Holds w request r hs key :
  Holds w request r hs ->
  redetectIn w request key = redetected (Request.body r) (hs !! key ≫= head).
Proof.
  intros H. unfold redetectIn.
  rewrite (readRequest_Holds _ _ _ _ H), (headerFirst_Holds _ _ _ _ key H).
  reflexivity.
Qed.

Lemma mentions_self (p : jsstring) : JS.toLowerCase p = p -> mentions p p.
Proof. intros H. exists [], p, []. rewrite app_nil_r. auto. Qed.

(** C5, as amended.  A body produced by the JSON or by the URL-encoded
    encoder, with the content-type that encoder set, is classified as json,
    respectively url-encoded, by a fresh detector.  A body produced by the
    multipart encoder, with the content-type it preserved, is classified as
    multipart exactly when that content-type mentions multipart/form-data
    and mentions neither application/json nor
    application/x-www-form-urlencoded, which the detector looks for first. *)
Theorem encode_then_detect w request r hs parameters f w' :
  Holds w request r hs ->
  encodeAs paramMiner f request parameters (Request.body r) w = (Return tt, w') ->
  (f = BodyType.json \/ f = BodyType.query ->
   redetectIn w' request (contentTypeKey f) = Some f)
  /\ (f = BodyType.multipart ->
      exists contentType,
        declaredContentType hs = Some contentType
        /\ (redetectIn w' request (contentTypeKey f) = Some BodyType.multipart <->
            mentions contentType (js "multipart/form-data")
            /\ ~ mentions contentType (js "application/json")
            /\ ~ mentions contentType (js "application/x-www-form-urlencoded"))).
Proof.
  intros H E. split.
  - intros [-> | ->]; simpl in E.
    + pose proof (handleJSONBody_Holds paramMiner w request r hs parameters
                    (Request.body r) H) as Hrun.
      destruct (parseBody (Request.body r)) as [bodyObj|];
        [|rewrite Hrun in E; discriminate E].
      destruct (injectJSON paramMiner bodyObj parameters) as [x|bodyObj'];
        [rewrite Hrun in E; discriminate E|].
      destruct Hrun as (w1 & E1 & H1 & _). rewrite E1 in E. injection E as <-.
      rewrite (redetectIn_Holds _ _ _ _ _ H1). cbn [contentTypeKey].
      rewrite lookup_insert_eq. apply redetected_Detects.
      eapply Detects_json; [reflexivity|]. apply mentions_self. reflexivity.
    + pose proof (handleQueryBody_Holds w request r hs parameters
                    (Request.body r) H) as Hrun.
      destruct (encodePairs parameters) as [pairs|];
        [|rewrite Hrun in E; discriminate E].
      destruct Hrun as (w1 & E1 & H1 & _). rewrite E1 in E. injection E as <-.
      rewrite (redetectIn_Holds _ _ _ _ _ H1). cbn [contentTypeKey].
      rewrite lookup_insert_eq. apply redetected_Detects.
      eapply Detects_urlencoded; [reflexivity| |].
      * apply includes_false. reflexivity.
      * apply mentions_self. reflexivity.
  - intros ->. simpl in E.
    pose proof (handleMultipartBody_Holds w request r hs parameters
                  (Request.body r) H) as Hrun.
    fold (declaredContentType hs) in Hrun.
    destruct (declaredContentType hs) as [ct|];
      [|rewrite Hrun in E; discriminate E].
    destruct (negb (truthy ct)); [rewrite Hrun in E; discriminate E|].
    destruct (boundaryMatch ct) as [b|]; [|rewrite Hrun in E; discriminate E].
    destruct (JS.indexOf _ _) as [i|]; [|rewrite Hrun in E; discriminate E].
    destruct Hrun as (w1 & E1 & H1 & _). rewrite E1 in E. injection E as <-.
    exists ct. split; [reflexivity|].
    assert (H1' : Holds (withBoundary b w1) request
                    (Request.set_body
                       (multipartBody (Request.body r) b i parameters) r)
                    (<[js "Content-Type" := [ct]]> hs)).
    { eapply Holds_store; [|exact H1]. reflexivity. }
    rewrite (redetectIn_Holds _ _ _ _ _ H1'). cbn [contentTypeKey].
    rewrite lookup_insert_eq. cbn [mbind option_bind head].
    rewrite <- redetected_Detects. split.
    + intros Hd. inversion Hd as [c Ec|c Ec|c Ec Hj Hu Hm|c Ec|? Hu Hs]; subst.
      * injection Ec as <-. auto.
      * inversion Hs.
    + intros (Hm & Hj & Hu). eapply Detects_multipart; eauto.
Qed.


End Claims.
(** * The claims at concrete inputs *)

Module Witness.

Import Example.

Definition crlf : jsstring := [13; 10]%N.

(** A miner that attacks the body, with no target path. *)
Definition bodyMiner : ParamMiner.t := miner AttackType.body false false None.

(** C1 at a concrete input: json is cached, the body of the request would
    detect as url-encoded, the call is the JSON encoder, and two more calls
    leave json cached. *)
Lemma body_format_determined_once_witness :
  let w := world (js "a=b") [] (Some BodyType.json) None in
  let parameters := [param "x" "1"] in
  Holds w 1 (request (js "a=b")) ∅
  /\ handleBodyParameters (host := ExampleHost.host false) bodyMiner 1 parameters w
     = encodeAs (host := ExampleHost.host false) bodyMiner BodyType.json 1
         parameters (js "a=b") w
  /\ bodyType (afterCalls (host := ExampleHost.host false) bodyMiner
                 [(1%positive, parameters); (1%positive, [])] w)
     = Some BodyType.json.
Proof.
  cbv zeta.
  assert (H : Holds (world (js "a=b") [] (Some BodyType.json) None) 1
                (request (js "a=b")) ∅) by example_holds.
  split; [exact H|].
  destruct (body_format_determined_once (host := ExampleHost.host false)
              bodyMiner _ _ _ _ [param "x" "1"] H) as [_ Hc].
  destruct (Hc BodyType.json eq_refl) as [E C].
  split; [exact E|apply C].
Defined.

(** C2 at a concrete input: nothing declared, a body of key=value pairs. *)
Lemma format_detector_priority_witness :
  let w := world (js "a=b&c=d") [] None None in
  bodyType w = None
  /\ exists r,
       Detects None (js "a=b&c=d") r
       /\ determineBodyType bodyMiner (js "a=b&c=d") (JS.toLowerCase <$> None) w
          = detection bodyMiner r w.
Proof.
  cbv zeta. split; [reflexivity|].
  apply (format_detector_priority bodyMiner
           (world (js "a=b&c=d") [] None None) (js "a=b&c=d") None).
  reflexivity.
Defined.

(** C4 at a concrete input: boundary X, one part, one parameter. *)
Definition multipartExample : jsstring :=
  js "--X" ++ crlf ++ js "Content-Disposition: form-data; name=" ++ [34%N]
  ++ js "f" ++ [34%N] ++ crlf ++ crlf ++ js "1" ++ crlf ++ js "--X--".



(** C10 at two concrete inputs: a request that spells the header
    [content-type] declares nothing to the engine; on a request that has
    [Content-Type: text/plain], the URL-encoded and the JSON encoder return
    and the request then has both entries. *)
Lemma content_type_key_is_case_sensitive_witness :
  let hs := [(js "content-type", [js "application/json"])] in
  let w := world (js "a=b") hs None None in
  let hs2 := [(js "Content-Type", [js "text/plain"])] in
  let w2 := world (js "a=b") hs2 None None in
  let w3 := world (js "{}") hs2 None None in
  (Holds w 1 (request (js "a=b")) (list_to_map hs)
   /\ headerFirst 1 (js "Content-Type") w = (Return None, w)
   /\ handleMultipartBody 1 [] (js "a=b") w = (Throw MissingContentTypeHeader, w))
  /\ (Holds w2 1 (request (js "a=b")) (list_to_map hs2)
      /\ exists w' hs',
           handleQueryBody 1 [param "c" "d"] (js "a=b") w2 = (Return tt, w')
           /\ Holds w' 1 (Request.set_body (js "a=b&c=d") (request (js "a=b"))) hs'
           /\ hs' !! js "Content-Type" = Some [js "text/plain"]
           /\ hs' !! js "content-type"
              = Some [js "application/x-www-form-urlencoded"])
  /\ (Holds w3 1 (request (js "{}")) (list_to_map hs2)
      /\ exists w' hs',
           handleJSONBody (host := ExampleHost.host false) bodyMiner 1
             [param "c" "d"] (js "{}") w3 = (Return tt, w')
           /\ Holds w' 1
                (Request.set_body
                   (js "{" ++ [34%N] ++ js "c" ++ [34%N] ++ js ":" ++ [34%N]
                    ++ js "d" ++ [34%N] ++ js "}") (request (js "{}"))) hs'
           /\ hs' !! js "Content-Type" = Some [js "text/plain"]
           /\ hs' !! js "content-type" = Some [js "application/json"]).
Proof.
  cbv zeta.
  set (hs := [(js "content-type", [js "application/json"])]).
  set (w := world (js "a=b") hs None None).
  set (hs2 := [(js "Content-Type", [js "text/plain"])]).
  set (w2 := world (js "a=b") hs2 None None).
  set (w3 := world (js "{}") hs2 None None).
  assert (H : Holds w 1 (request (js "a=b")) (list_to_map hs)) by example_holds.
  assert (H2 : Holds w2 1 (request (js "a=b")) (list_to_map hs2)) by example_holds.
  assert (H3 : Holds w3 1 (request (js "{}")) (list_to_map hs2)) by example_holds.
  split; [|split].
  - split; [exact H|].
    destruct (content_type_key_is_case_sensitive
                (host := ExampleHost.host false) bodyMiner w 1 _ _ [] H)
      as [Hc _].
    destruct Hc as (E1 & E2 & _); [reflexivity|].
    split; [exact E1|exact E2].
  - split; [exact H2|].
    destruct (content_type_key_is_case_sensitive
                (host := ExampleHost.host false) bodyMiner w2 1 _ _
                [param "c" "d"] H2) as [_ Hc].
    destruct (Hc [js "text/plain"] eq_refl) as (_ & Hq & _).
    exact (Hq [js "c=d"] eq_refl).
  - split; [exact H3|].
    destruct (content_type_key_is_case_sensitive
                (host := ExampleHost.host false) bodyMiner w3 1 _ _
                [param "c" "d"] H3) as [_ Hc].
    destruct (Hc [js "text/plain"] eq_refl) as (Hj & _).
    exact (Hj (JObject []) (JObject [(js "c", JString (js "d"))])
             eq_refl eq_refl).
Defined.




(** C5 at a concrete input: the JSON encoder on [{}]. *)
Lemma encode_then_detect_witness :
  let w := world (js "{}") [] (Some BodyType.json) None in
  let run :=
    encodeAs (host := ExampleHost.host false) bodyMiner BodyType.json 1
      [param "a" "1"] (js "{}") w in
  Holds w 1 (request (js "{}")) ∅
  /\ run = (Return tt, snd run)
  /\ redetectIn bodyMiner (snd run) 1 (js "content-type") = Some BodyType.json.
Proof.
  cbv zeta.
  set (w := world (js "{}") [] (Some BodyType.json) None).
  assert (H : Holds w 1 (request (js "{}")) ∅) by example_holds.
  assert (E : encodeAs (host := ExampleHost.host false) bodyMiner BodyType.json 1
                [param "a" "1"] (Request.body (request (js "{}"))) w
              = (Return tt,
                 snd (encodeAs (host := ExampleHost.host false) bodyMiner
                        BodyType.json 1 [param "a" "1"] (js "{}") w)))
    by (vm_compute; reflexivity).
  split; [exact H|]. split; [exact E|].
  destruct (encode_then_detect (host := ExampleHost.host false) bodyMiner
              w 1 _ _ [param "a" "1"] BodyType.json _ H E) as [Hc _].
  apply Hc. left. reflexivity.
Defined.

(** C5 as stated fails: the boundary of a multipart request may spell
    [application/json]; the detector looks for that pattern first, and
    classifies what the multipart encoder produced as json. *)
Definition jsonBoundaryBody : jsstring :=
  js "--application/json" ++ crlf
  ++ js "Content-Disposition: form-data; name=" ++ [34%N] ++ js "f" ++ [34%N]
  ++ crlf ++ crlf ++ js "1" ++ crlf ++ js "--application/json--".

Lemma multipart_output_redetected_as_json :
  let contentType := js "multipart/form-data; boundary=application/json" in
  let w := world jsonBoundaryBody [(js "Content-Type", [contentType])]
             (Some BodyType.multipart) None in
  let run :=
    encodeAs (host := ExampleHost.host false) bodyMiner BodyType.multipart 1
      [param "p" "v"] jsonBoundaryBody w in
  ~ (fst run = Return tt ->
     redetectIn bodyMiner (snd run) 1 (contentTypeKey BodyType.multipart)
     = Some BodyType.multipart).
Proof.
  cbv zeta. intros H. specialize (H ltac:(vm_compute; reflexivity)).
  vm_compute in H. discriminate H.
Qed.

(** C8 at a concrete input: the toggle is on, the caller passes the
    discovery label, the callback runs. *)
Lemma decision_callback_gate_witness :
  let pm := miner AttackType.query false true None in
  let w := world [] [] None None in
  let run :=
    sendRequestWithParams (host := ExampleHost.host true) pm 1
      [param "q" "1"] (Some discovery) w in
  run = (fst run, snd run)
  /\ exists new,
       events (snd run) = events w ++ new /\ existsb isDecision new = true.
Proof.
  cbv zeta. split; [apply surjective_pairing|].
  destruct (decision_callback_gate (host := ExampleHost.host true)
              (miner AttackType.query false true None)
              (world [] [] None None) 1 [param "q" "1"] (Some discovery) _ _
              (surjective_pairing _)) as (new & E & Hiff & _).
  exists new. split; [exact E|]. apply Hiff. split; [|split].
  - eexists. vm_compute. reflexivity.
  - reflexivity.
  - reflexivity.
Defined.

(** The contexts of the requests that went out, in order. *)
Definition sentContexts (evs : list Event) : list (option jsstring) :=
  omap (fun e => match e with
                 | SendRequest outgoing => Some (Request.context (sent outgoing))
                 | _ => None
                 end) evs.

(** C8 as stated fails: the caller passes no label, the request goes out
    tagged discovery, the toggle is on, and the callback does not run. *)
Lemma default_tag_does_not_open_the_gate :
  let pm := miner AttackType.query false true None in
  let w := world [] [] None None in
  let run :=
    sendRequestWithParams (host := ExampleHost.host true) pm 1
      [param "q" "1"] None w in
  ~ (existsb isDecision (events (snd run)) = true
     <-> Config.autopilotEnabled (config pm) = true
         /\ sentContexts (events (snd run)) = [Some discovery]).
Proof.
  cbv zeta. intros [_ H].
  assert (E : existsb isDecision
                (events
                   (snd (sendRequestWithParams (host := ExampleHost.host true)
                           (miner AttackType.query false true None) 1
                           [param "q" "1"] None (world [] [] None None))))
              = false) by (vm_compute; reflexivity).
  rewrite H in E; [discriminate E|].
  split; vm_compute; reflexivity.
Qed.

(** C9 at a concrete input: json is cached, the body does not parse, the
    call fails and the cache is as it was. *)
Lemma failed_injection_and_the_cache_witness :
  let w := world (js "a=b") [] (Some BodyType.json) (Some (js "X")) in
  let run :=
    handleBodyParameters (host := ExampleHost.host false) bodyMiner 1
      [param "x" "1"] w in
  Holds w 1 (request (js "a=b")) ∅
  /\ run = (Throw (FailedToHandleJSONBody (Exn SyntaxError)), snd run)
  /\ multipartBoundary (snd run) = Some (js "X")
  /\ bodyType (snd run) = Some BodyType.json.
Proof.
  cbv zeta.
  set (w := world (js "a=b") [] (Some BodyType.json) (Some (js "X"))).
  assert (H : Holds w 1 (request (js "a=b")) ∅) by example_holds.
  assert (E : handleBodyParameters (host := ExampleHost.host false) bodyMiner 1
                [param "x" "1"] w
              = (Throw (FailedToHandleJSONBody (Exn SyntaxError)),
                 snd (handleBodyParameters (host := ExampleHost.host false)
                        bodyMiner 1 [param "x" "1"] w)))
    by (vm_compute; reflexivity).
  split; [exact H|]. split; [exact E|].
  destruct (failed_injection_and_the_cache (host := ExampleHost.host false)
              bodyMiner w 1 _ _ [param "x" "1"] _ _ H E) as (Hb & Hf & _).
  split; [exact Hb|]. apply Hf. eexists. reflexivity.
Defined.

(** C9 as stated fails: nothing is cached, the body looks like XML; the
    detector stores xml, the call fails for want of an XML encoder, and
    the cache is no longer what it was. *)
Lemma failed_call_caches_xml :
  let w := world (js "<a>1</a>") [] None None in
  let run :=
    handleBodyParameters (host := ExampleHost.host false) bodyMiner 1
      [param "x" "1"] w in
  ~ ((exists e, fst run = Throw e) ->
     bodyType (snd run) = bodyType w
     /\ multipartBoundary (snd run) = multipartBoundary w).
Proof.
  cbv zeta. intros H. destruct H as [H _].
  - eexists. vm_compute. reflexivity.
  - vm_compute in H. discriminate H.
Qed.

(** C7 at a concrete input: a body-surface dispatch on a JSON request; the
    caller's request and its headers are what they were. *)
Lemma caller_request_untouched_witness :
  let w := world (js "{}") [(js "Content-Type", [js "application/json"])]
             None None in
  let hs : gmap jsstring (list jsstring) :=
    {[ js "Content-Type" := [js "application/json"] ]} in
  Holds w 1 (request (js "{}")) hs
  /\ Holds
       (snd (sendRequestWithParams (host := ExampleHost.host false)
               (miner AttackType.body true false None) 1 [param "a" "1"]
               None w))
       1 (request (js "{}")) hs.
Proof.
  cbv zeta.
  set (w := world (js "{}") [(js "Content-Type", [js "application/json"])]
              None None).
  assert (H : Holds w 1 (request (js "{}"))
                {[ js "Content-Type" := [js "application/json"] ]})
    by example_holds.
  split; [exact H|].
  apply (caller_request_untouched (host := ExampleHost.host false)
           (miner AttackType.body true false None) w 1 [param "a" "1"] None).
  exact H.
Defined.

(** The requests that went out, in order. *)
Definition sentRequests (evs : list Event) : list Snapshot :=
  omap (fun e => match e with
                 | SendRequest outgoing => Some outgoing
                 | _ => None
                 end) evs.

(** The JSON text [{"name":"é"}]: 12 code units, 13 bytes in UTF-8. *)
Definition accentBody : jsstring :=
  js "{" ++ [34%N] ++ js "name" ++ [34%N] ++ js ":" ++ [34%N; 233%N; 34%N]
  ++ js "}".

(** C6 at the failing input.  With the Content-Length update on, the
    dispatcher sends a body of 20 code units that takes 21 bytes on the
    wire, under a Content-Length of 20: the header counts UTF-16 code units,
    not bytes. *)
Lemma content_length_counts_code_units :
  let pm := miner AttackType.body true false None in
  let w := world accentBody [(js "Content-Type", [js "application/json"])]
             None None in
  let run :=
    sendRequestWithParams (host := ExampleHost.host false) pm 1
      [param "a" "1"] None w in
  List.map (fun outgoing =>
              (length (Request.body (sent outgoing)),
               JS.utf8_length (Request.body (sent outgoing)),
               sentHeaders outgoing !! js "Content-Length"))
    (sentRequests (events (snd run)))
  = [(20%nat, 21%nat, Some [js "20"])].
Proof. vm_compute. reflexivity. Qed.

End Witness.

(** * More of the engine

    The detectors behind [determineBodyType], the encoding of injected
    names and values, the query and header strategies and the dispatcher,
    from the request it copies to the request it sends. *)

(** ** The pattern of [isQueryBody] *)

(** A piece between two [&]: it holds a [=] and no [&]. *)
Definition piece (p : jsstring) : Prop := In 61%N p /\ ~ In 38%N p.

Lemma plain_app a b : plain a -> plain b -> plain (a ++ b).
Proof. apply Forall_app_2. Qed.

Lemma plain_no_amp s : plain s -> ~ In 38%N s.
Proof.
  intros H Hin. unfold plain in H. rewrite List.Forall_forall in H.
  destruct (H _ Hin) as [_ Hc]. apply Hc. reflexivity.
Qed.

Lemma join_cons_app (sep a p : jsstring) ps :
  JS.join sep ((a ++ p) :: ps) = a ++ JS.join sep (p :: ps).
Proof. destruct ps; simpl; rewrite <- ?app_assoc; reflexivity. Qed.

(** What may follow the last value of a run of pairs: nothing, or [&] and
    further pairs. *)
Definition pairsTail (tail : jsstring) : Prop :=
  tail = [] \/ exists rest, tail = 38%N :: rest /\ QueryGrammar rest.

Lemma QueryGrammar_value t tail :
  ~ In 38%N t -> pairsTail tail ->
  forall key value, plain key -> plain value ->
    QueryGrammar (key ++ [61%N] ++ value ++ t ++ tail).
Proof.
  intros Ht Htail. induction t as [|c t IH]; intros key value Hk Hv.
  - destruct Htail as [-> | (rest & -> & Hrest)]; simpl.
    + apply (QG_pair key value []); auto. constructor.
    + apply (QG_pair_amp key value rest); auto.
  - assert (Ht' : ~ In 38%N t) by (intros Hin; apply Ht; right; exact Hin).
    destruct (N.eq_dec c 61%N) as [-> | Hc].
    + apply (QG_pair key value); auto.
      apply (IH Ht' [] []); constructor.
    + replace (key ++ [61%N] ++ value ++ (c :: t) ++ tail)
        with (key ++ [61%N] ++ (value ++ [c]) ++ t ++ tail)
        by (rewrite <- !app_assoc; reflexivity).
      apply IH; auto. apply plain_app; auto. constructor; [|constructor].
      split; auto. intros ->. apply Ht. left. reflexivity.
Qed.

Lemma QueryGrammar_piece p tail :
  piece p -> pairsTail tail -> QueryGrammar (p ++ tail).
Proof.
  intros [Heq Hamp] Htail.
  assert (G : forall key, plain key -> QueryGrammar (key ++ p ++ tail)).
  { induction p as [|c p IH]; intros key Hk; [destruct Heq|].
    assert (Hamp' : ~ In 38%N p) by (intros Hin; apply Hamp; right; exact Hin).
    destruct (N.eq_dec c 61%N) as [-> | Hc].
    - apply (QueryGrammar_value p tail Hamp' Htail key []); auto. constructor.
    - replace (key ++ (c :: p) ++ tail) with ((key ++ [c]) ++ p ++ tail)
        by (rewrite <- !app_assoc; reflexivity).
      apply IH; auto.
      + destruct Heq as [-> | Hin]; [contradiction|exact Hin].
      + apply plain_app; auto. constructor; [|constructor].
        split; auto. intros ->. apply Hamp. left. reflexivity. }
  apply (G []). constructor.
Qed.

Lemma QueryGrammar_join pieces :
  Forall piece pieces ->
  QueryGrammar (JS.join [38%N] pieces)
  /\ (pieces <> [] -> QueryGrammar (JS.join [38%N] pieces ++ [38%N])).
Proof.
  induction 1 as [|p ps Hp Hps [IH1 IH2]].
  - split; [constructor|contradiction].
  - destruct ps as [|q ps].
    + simpl. split.
      * rewrite <- (app_nil_r p). apply QueryGrammar_piece; auto. left. reflexivity.
      * intros _. apply QueryGrammar_piece; auto. right. exists []. split; auto.
    + change (JS.join [38%N] (p :: q :: ps))
        with (p ++ [38%N] ++ JS.join [38%N] (q :: ps)).
      split.
      * apply QueryGrammar_piece; auto. right. eauto.
      * intros _. rewrite <- !app_assoc. apply QueryGrammar_piece; auto.
        right. eexists. split; [reflexivity|]. apply IH2. discriminate.
Qed.

Lemma pieces_of_QueryGrammar body :
  QueryGrammar body ->
  exists pieces,
    Forall piece pieces
    /\ (body = JS.join [38%N] pieces
        \/ (pieces <> [] /\ body = JS.join [38%N] pieces ++ [38%N])).
Proof.
  assert (Hpair : forall key value, plain key -> plain value ->
            piece (key ++ [61%N] ++ value)).
  { intros key value Hk Hv. split.
    - apply in_or_app. right. left. reflexivity.
    - intros Hin. apply in_app_or in Hin as [Hin|[Hin|Hin]].
      + exact (plain_no_amp _ Hk Hin).
      + discriminate Hin.
      + exact (plain_no_amp _ Hv Hin). }
  induction 1 as [|key value rest Hk Hv Hrest IH|key value rest Hk Hv Hrest IH].
  - exists []. split; [constructor|]. left. reflexivity.
  - destruct IH as (ps & Hps & Hbody). destruct ps as [|p ps].
    + exists [key ++ [61%N] ++ value]. split; [constructor; auto|].
      left. destruct Hbody as [-> | [Hne _]]; [|contradiction].
      simpl. rewrite app_nil_r. reflexivity.
    + exists (((key ++ [61%N] ++ value) ++ p) :: ps).
      apply Forall_cons_1 in Hps as [Hp Hps]. split.
      * constructor; auto. destruct Hp as [Hp1 Hp2]. split.
        -- apply in_or_app. right. exact Hp1.
        -- intros Hin. apply in_app_or in Hin as [Hin|Hin]; [|auto].
           exact (proj2 (Hpair key value Hk Hv) Hin).
      * rewrite join_cons_app.
        destruct Hbody as [-> | [_ ->]]; [left|right; split; [discriminate|]];
          rewrite <- !app_assoc; reflexivity.
  - destruct IH as (ps & Hps & Hbody).
    exists ((key ++ [61%N] ++ value) :: ps). split; [constructor; auto|].
    destruct ps as [|p ps].
    + right. split; [discriminate|].
      destruct Hbody as [-> | [Hne _]]; [|contradiction].
      simpl. rewrite <- ?app_assoc. reflexivity.
    + change (JS.join [38%N] ((key ++ [61%N] ++ value) :: p :: ps))
        with ((key ++ [61%N] ++ value) ++ [38%N] ++ JS.join [38%N] (p :: ps)).
      destruct Hbody as [-> | [_ ->]]; [left|right; split; [discriminate|]];
        rewrite <- !app_assoc; reflexivity.
Qed.

(** ** Markup is not JSON *)

Lemma lexStart_space c :
  JS.isWhiteSpace c = true ->
  JSON.lexStart c = Some (JSON.LStart, []) \/ JSON.lexStart c = None.
Proof.
  intros Hw. unfold JSON.lexStart.
  destruct (JSON.isJSONSpace c); [left; reflexivity|right].
  unfold JS.isWhiteSpace in Hw.
  rewrite !orb_true_iff, !andb_true_iff, !N.leb_le, !N.eqb_eq in Hw.
  unfold JSON.isDigit.
  repeat match goal with
         | |- context [N.eqb c ?k] =>
             destruct (N.eqb_spec c k) as [->|?]; [exfalso; lia|]
         end.
  destruct (N.leb_spec 48%N c); destruct (N.leb_spec c 57%N); simpl;
    try reflexivity; exfalso; lia.
Qed.

Lemma trimStart_suffix s : exists ws, s = ws ++ JS.trimStart s.
Proof.
  induction s as [|c s [ws IH]]; simpl.
  - exists []. reflexivity.
  - destruct (JS.isWhiteSpace c).
    + exists (c :: ws). simpl. congruence.
    + exists []. reflexivity.
Qed.

(** A text whose first code unit after white space is [<] is no JSON text. *)
Lemma lex_markup body rest :
  JS.trimStart body = 60%N :: rest -> JSON.lex body = None.
Proof.
  unfold JSON.lex. induction body as [|c body IH]; simpl; [discriminate|].
  destruct (JS.isWhiteSpace c) eqn:Ew.
  - intros H. destruct (lexStart_space c Ew) as [-> | ->]; [|reflexivity].
    rewrite (IH H). reflexivity.
  - intros [= -> _]. reflexivity.
Qed.

Lemma trim_head body c rest :
  JS.trim body = c :: rest -> exists rest', JS.trimStart body = c :: rest'.
Proof.
  unfold JS.trim. intros H.
  destruct (trimStart_suffix (rev (JS.trimStart body))) as [ws E].
  apply (f_equal (@rev N)) in E. rewrite rev_involutive, rev_app_distr, H in E.
  rewrite E. simpl. eauto.
Qed.

Lemma XMLShape_not_JSON body : XMLShape body -> ~ StrictJSON body.
Proof.
  intros [[(rest & H) | (c & rest & H & _)] _] [v Hv];
    apply trim_head in H as [rest' H];
    unfold JSON.parse in Hv; rewrite (lex_markup _ _ H) in Hv; discriminate Hv.
Qed.

(** ** [encodeURIComponent] *)

(** The recursion of [encodeURIComponent], as an induction principle: a
    surrogate pair is read in one step. *)
Lemma encodeURIComponent_cases (P : jsstring -> option jsstring -> Prop) :
  P [] (Some []) ->
  (forall c rest,
     JS.isUnreserved c = true -> P rest (JS.encodeURIComponent rest) ->
     P (c :: rest) ((c ::.) <$> JS.encodeURIComponent rest)) ->
  (forall c rest,
     JS.isUnreserved c = false -> JS.isLowSurrogate c = true ->
     P (c :: rest) None) ->
  (forall c,
     JS.isUnreserved c = false -> JS.isLowSurrogate c = false ->
     JS.isHighSurrogate c = true -> P [c] None) ->
  (forall c d rest,
     JS.isUnreserved c = false -> JS.isLowSurrogate c = false ->
     JS.isHighSurrogate c = true -> JS.isLowSurrogate d = false ->
     P (c :: d :: rest) None) ->
  (forall c d rest,
     JS.isUnreserved c = false -> JS.isLowSurrogate c = false ->
     JS.isHighSurrogate c = true -> JS.isLowSurrogate d = true ->
     P rest (JS.encodeURIComponent rest) ->
     P (c :: d :: rest)
       ((fun r => concat (List.map JS.percent (JS.utf8 (JS.codePoint c d))) ++ r)
          <$> JS.encodeURIComponent rest)) ->
  (forall c rest,
     JS.isUnreserved c = false -> JS.isLowSurrogate c = false ->
     JS.isHighSurrogate c = false -> P rest (JS.encodeURIComponent rest) ->
     P (c :: rest)
       ((fun r => concat (List.map JS.percent (JS.utf8 c)) ++ r)
          <$> JS.encodeURIComponent rest)) ->
  forall s, P s (JS.encodeURIComponent s).
Proof.
  intros Hnil Hun Hlow Hend Hlone Hpair Hunit.
  assert (H : forall s,
            P s (JS.encodeURIComponent s)
            /\ match s with
               | [] => True
               | _ :: s' => P s' (JS.encodeURIComponent s')
               end).
  { induction s as [|c s [IH1 IH2]]; [split; [exact Hnil|exact I]|].
    split; [|exact IH1]. simpl.
    destruct (JS.isUnreserved c) eqn:Eu; [apply Hun; auto|].
    destruct (JS.isLowSurrogate c) eqn:El; [apply Hlow; auto|].
    destruct (JS.isHighSurrogate c) eqn:Eh; [|apply Hunit; auto].
    destruct s as [|d s]; [apply Hend; auto|].
    destruct (JS.isLowSurrogate d) eqn:Ed; [apply Hpair; auto|apply Hlone; auto]. }
  intros s. apply H.
Qed.

Lemma hexDigit_plain n : JS.hexDigit n <> 61%N /\ JS.hexDigit n <> 38%N.
Proof. unfold JS.hexDigit. destruct (N.ltb_spec n 10%N); lia. Qed.

Lemma percent_plain bytes : plain (concat (List.map JS.percent bytes)).
Proof.
  induction bytes as [|b bytes IH]; simpl; [constructor|].
  repeat constructor; try discriminate; try apply hexDigit_plain. exact IH.
Qed.

Lemma isUnreserved_plain c : JS.isUnreserved c = true -> c <> 61%N /\ c <> 38%N.
Proof. intros H. split; intros ->; vm_compute in H; discriminate H. Qed.

(** An encoded name or value holds no [=] and no [&]. *)
Lemma encodeURIComponent_plain s :
  forall e, JS.encodeURIComponent s = Some e -> plain e.
Proof.
  apply (encodeURIComponent_cases (fun s r => forall e, r = Some e -> plain e));
    try (intros; discriminate).
  - intros e [= <-]. constructor.
  - intros c rest Hc IH e He.
    destruct (JS.encodeURIComponent rest) as [r|]; [|discriminate He].
    injection He as <-. constructor; [apply isUnreserved_plain; exact Hc|].
    apply IH. reflexivity.
  - intros c d rest _ _ _ _ IH e He.
    destruct (JS.encodeURIComponent rest) as [r|]; [|discriminate He].
    injection He as <-. apply plain_app; [apply percent_plain|]. apply IH. reflexivity.
  - intros c rest _ _ _ IH e He.
    destruct (JS.encodeURIComponent rest) as [r|]; [|discriminate He].
    injection He as <-. apply plain_app; [apply percent_plain|]. apply IH. reflexivity.
Qed.

(** Arithmetic over [N] with the divisions of the UTF-8 encoder. *)
Ltac nlia := zify; Z.to_euclidean_division_equations; lia.

(** A code unit [encodeURIComponent] may leave in its result: an unreserved
    character, or the percent sign of an escape. *)
Definition urlSafe (c : N) : bool := JS.isUnreserved c || (c =? 37)%N.

Lemma hexDigit_unreserved n : (n < 16)%N -> JS.isUnreserved (JS.hexDigit n) = true.
Proof.
  intros H. unfold JS.hexDigit, JS.isUnreserved.
  rewrite !orb_true_iff, !andb_true_iff, !N.leb_le, !N.eqb_eq.
  destruct (N.ltb_spec n 10%N); lia.
Qed.

Lemma percent_safe byte :
  (byte < 256)%N -> Forall (fun c => urlSafe c = true) (JS.percent byte).
Proof.
  intros H. unfold JS.percent, urlSafe. repeat constructor.
  - rewrite hexDigit_unreserved; [reflexivity|nlia].
  - rewrite hexDigit_unreserved; [reflexivity|nlia].
Qed.

Lemma utf8_bytes cp :
  (cp < 1114112)%N -> Forall (fun byte => (byte < 256)%N) (JS.utf8 cp).
Proof.
  intros H. unfold JS.utf8.
  destruct (N.ltb_spec cp 128%N); [repeat constructor; lia|].
  destruct (N.ltb_spec cp 2048%N); [repeat constructor; nlia|].
  destruct (N.ltb_spec cp 65536%N); repeat constructor; nlia.
Qed.

Lemma escape_safe cp r :
  (cp < 1114112)%N -> Forall (fun c => urlSafe c = true) r ->
  Forall (fun c => urlSafe c = true) (concat (List.map JS.percent (JS.utf8 cp)) ++ r).
Proof.
  intros H Hr. apply Forall_app. split; [|exact Hr].
  apply Forall_concat, Forall_map.
  eapply Forall_impl; [apply utf8_bytes; exact H|].
  intros byte Hb. apply percent_safe. exact Hb.
Qed.

Lemma surrogate_bounds c :
  (JS.isHighSurrogate c = true <-> (55296 <= c <= 56319)%N)
  /\ (JS.isLowSurrogate c = true <-> (56320 <= c <= 57343)%N).
Proof.
  unfold JS.isHighSurrogate, JS.isLowSurrogate.
  rewrite !andb_true_iff, !N.leb_le. tauto.
Qed.

Lemma codePoint_bound c d :
  JS.isHighSurrogate c = true -> JS.isLowSurrogate d = true ->
  (JS.codePoint c d < 1114112)%N.
Proof.
  intros Hc Hd. apply surrogate_bounds in Hc, Hd. unfold JS.codePoint. lia.
Qed.

Lemma unreserved_ascii c : JS.isUnreserved c = true -> (c < 128)%N.
Proof.
  unfold JS.isUnreserved.
  rewrite !orb_true_iff, !andb_true_iff, !N.leb_le, !N.eqb_eq. lia.
Qed.

(** What [encodeURIComponent] returns for a string of code units holds
    unreserved characters and percent signs only. *)
Lemma encodeURIComponent_safe s :
  Forall (fun c => (c < 65536)%N) s ->
  forall e, JS.encodeURIComponent s = Some e -> Forall (fun c => urlSafe c = true) e.
Proof.
  apply (encodeURIComponent_cases
           (fun s r => Forall (fun c => (c < 65536)%N) s ->
                       forall e, r = Some e -> Forall (fun c => urlSafe c = true) e));
    try (intros; discriminate).
  - intros _ e [= <-]. constructor.
  - intros c rest Hc IH Hs e He. apply Forall_cons_1 in Hs as [_ Hs].
    destruct (JS.encodeURIComponent rest) as [r|]; [|discriminate He].
    injection He as <-. constructor; [unfold urlSafe; rewrite Hc; reflexivity|].
    apply IH; auto.
  - intros c d rest _ _ Hc Hd IH Hs e He.
    apply Forall_cons_1 in Hs as [_ Hs]. apply Forall_cons_1 in Hs as [_ Hs].
    destruct (JS.encodeURIComponent rest) as [r|]; [|discriminate He].
    injection He as <-. apply escape_safe; [apply codePoint_bound; auto|].
    apply IH; auto.
  - intros c rest _ _ _ IH Hs e He. apply Forall_cons_1 in Hs as [Hc Hs].
    destruct (JS.encodeURIComponent rest) as [r|]; [|discriminate He].
    injection He as <-. apply escape_safe; [lia|]. apply IH; auto.
Qed.

(** Well-formed UTF-16: every surrogate is half of a pair, high then low. *)
Inductive WellFormed : jsstring -> Prop :=
| WF_nil : WellFormed []
| WF_unit c s :
    JS.isHighSurrogate c = false -> JS.isLowSurrogate c = false ->
    WellFormed s -> WellFormed (c :: s)
| WF_pair c d s :
    JS.isHighSurrogate c = true -> JS.isLowSurrogate d = true ->
    WellFormed s -> WellFormed (c :: d :: s).

Lemma unreserved_no_surrogate c :
  JS.isUnreserved c = true ->
  JS.isHighSurrogate c = false /\ JS.isLowSurrogate c = false.
Proof.
  intros H. apply unreserved_ascii in H.
  pose proof (surrogate_bounds c) as [Hh Hl].
  destruct (JS.isHighSurrogate c); [exfalso; apply proj1 in Hh; specialize (Hh eq_refl); lia|].
  destruct (JS.isLowSurrogate c); [exfalso; apply proj1 in Hl; specialize (Hl eq_refl); lia|].
  auto.
Qed.

Lemma high_not_low c :
  JS.isHighSurrogate c = true -> JS.isLowSurrogate c = true -> False.
Proof. intros H L. apply surrogate_bounds in H, L. lia. Qed.

(** [encodeURIComponent] returns exactly on well-formed strings; on any
    other it throws URIError. *)
Lemma encodeURIComponent_defined s :
  is_Some (JS.encodeURIComponent s) <-> WellFormed s.
Proof.
  apply (encodeURIComponent_cases (fun s r => is_Some r <-> WellFormed s)).
  - split; [constructor|eauto].
  - intros c rest Hc IH. destruct (unreserved_no_surrogate c Hc) as [Hh Hl].
    rewrite fmap_is_Some, IH. split.
    + intros H. apply WF_unit; auto.
    + intros H. inversion H; subst; auto. congruence.
  - intros c rest _ Hl. split; [intros [x [=]]|].
    intros H. inversion H; subst; [congruence|].
    exfalso. eapply high_not_low; eauto.
  - intros c _ _ Hh. split; [intros [x [=]]|].
    intros H. inversion H; subst. congruence.
  - intros c d rest _ _ Hh Hd. split; [intros [x [=]]|].
    intros H. inversion H; subst; congruence.
  - intros c d rest _ _ Hh Hd IH. rewrite fmap_is_Some, IH. split.
    + intros H. apply WF_pair; auto.
    + intros H. inversion H; subst; [congruence|auto].
  - intros c rest _ Hl Hh IH. rewrite fmap_is_Some, IH. split.
    + intros H. apply WF_unit; auto.
    + intros H. inversion H; subst; [auto|congruence].
Qed.

(** *** The pairs of a batch *)

(** A parameter whose name and value [encodeURIComponent] accepts. *)
Definition encodable (p : Param.t) : Prop :=
  WellFormed (Param.name p) /\ WellFormed (Param.value p).

Lemma encodePairs_defined parameters :
  is_Some (encodePairs parameters) <-> Forall encodable parameters.
Proof.
  induction parameters as [|p ps IH]; simpl.
  - split; [constructor|eauto].
  - rewrite Forall_cons. unfold encodable at 1.
    rewrite <- !encodeURIComponent_defined, <- IH.
    destruct (JS.encodeURIComponent (Param.name p)) as [n|];
      [|split; [intros [x [=]]|intros [[[x [=]] _] _]]].
    destruct (JS.encodeURIComponent (Param.value p)) as [v|];
      [|split; [intros [x [=]]|intros [[_ [x [=]]] _]]].
    destruct (encodePairs ps) as [pairs|];
      [|split; [intros [x [=]]|intros [_ [x [=]]]]].
    split; eauto.
Qed.

(** One encoded pair: a name and a value without [=] and [&], and the [=]
    between them. *)
Definition encodedPair (pair : jsstring) : Prop :=
  exists name value, plain name /\ plain value /\ pair = name ++ [61%N] ++ value.

Lemma encodePairs_pairs parameters :
  forall pairs, encodePairs parameters = Some pairs ->
    length pairs = length parameters /\ Forall encodedPair pairs.
Proof.
  induction parameters as [|p ps IH]; simpl; intros pairs.
  - intros [= <-]. split; [reflexivity|constructor].
  - destruct (JS.encodeURIComponent (Param.name p)) as [n|] eqn:En; [|discriminate].
    destruct (JS.encodeURIComponent (Param.value p)) as [v|] eqn:Ev; [|discriminate].
    destruct (encodePairs ps) as [pairs'|]; [|discriminate].
    intros [= <-]. destruct (IH pairs' eq_refl) as [L F]. split; [simpl; congruence|].
    constructor; [|exact F]. exists n, v.
    split; [eapply encodeURIComponent_plain; eauto|].
    split; [eapply encodeURIComponent_plain; eauto|reflexivity].
Qed.

Lemma encodedPair_piece pair : encodedPair pair -> piece pair.
Proof.
  intros (name & value & Hn & Hv & ->). split.
  - apply in_or_app. right. left. reflexivity.
  - intros Hin. apply in_app_or in Hin as [Hin|[Hin|Hin]].
    + exact (plain_no_amp _ Hn Hin).
    + discriminate Hin.
    + exact (plain_no_amp _ Hv Hin).
Qed.

(** How often a code unit occurs in a string. *)
Definition occurrences (c : N) (s : jsstring) : nat := count_occ N.eq_dec s c.

Lemma occurrences_app c a b :
  occurrences c (a ++ b) = (occurrences c a + occurrences c b)%nat.
Proof. apply count_occ_app. Qed.

Lemma occurrences_plain s :
  plain s -> occurrences 61%N s = 0%nat /\ occurrences 38%N s = 0%nat.
Proof.
  unfold occurrences. intros H. split; apply count_occ_not_In; intros Hin;
    unfold plain in H; rewrite List.Forall_forall in H;
    destruct (H _ Hin) as [H1 H2]; congruence.
Qed.

Lemma occurrences_pair pair :
  encodedPair pair ->
  occurrences 61%N pair = 1%nat /\ occurrences 38%N pair = 0%nat.
Proof.
  intros (name & value & Hn & Hv & ->).
  destruct (occurrences_plain _ Hn) as [N1 N2].
  destruct (occurrences_plain _ Hv) as [V1 V2].
  rewrite !occurrences_app, N1, N2, V1, V2. split; reflexivity.
Qed.

Lemma occurrences_join pairs :
  Forall encodedPair pairs ->
  occurrences 61%N (JS.join [38%N] pairs) = length pairs
  /\ occurrences 38%N (JS.join [38%N] pairs) = pred (length pairs).
Proof.
  induction 1 as [|p ps Hp Hps [IH1 IH2]]; [split; reflexivity|].
  destruct (occurrences_pair _ Hp) as [P1 P2].
  destruct ps as [|q ps].
  - simpl. rewrite P1, P2. split; reflexivity.
  - change (JS.join [38%N] (p :: q :: ps))
      with (p ++ [38%N] ++ JS.join [38%N] (q :: ps)).
    rewrite !occurrences_app, P1, P2, IH1, IH2. split; reflexivity.
Qed.

(** ** The bytes of a body *)

Lemma utf8_length_bounds s :
  (length s <= JS.utf8_length s)%nat
  /\ (JS.utf8_length s = length s <-> Forall (fun c => (c < 128)%N) s).
Proof.
  assert (H : forall s,
            ((length s <= JS.utf8_length s)%nat
             /\ (JS.utf8_length s = length s <-> Forall (fun c => (c < 128)%N) s))
            /\ match s with
               | [] => True
               | _ :: s' =>
                   (length s' <= JS.utf8_length s')%nat
                   /\ (JS.utf8_length s' = length s'
                       <-> Forall (fun c => (c < 128)%N) s')
               end).
  { clear s. induction s as [|c s [[IH1 IH2] IH3]].
    { split; [|exact I]. split; [reflexivity|]. split; [constructor|reflexivity]. }
    split; [|split; assumption].
    cbn [JS.utf8_length length]. rewrite Forall_cons.
    pose proof (surrogate_bounds c) as [Hh _].
    destruct (JS.isHighSurrogate c) eqn:Eh.
    - apply proj1 in Hh. specialize (Hh eq_refl).
      destruct s as [|d s]; [cbn; split; [lia|split; [lia|intros [? _]; lia]]|].
      destruct (JS.isLowSurrogate d).
      + destruct IH3 as [IH3 _]. cbn [length] in *.
        split; [lia|split; [lia|intros [? _]; lia]].
      + split; [lia|split; [lia|intros [? _]; lia]].
    - destruct (N.ltb_spec c 128%N).
      + split; [lia|]. rewrite <- IH2. split; [intros; split; [auto|lia]|intros [_ ?]; lia].
      + destruct (N.ltb c 2048); (split; [lia|split; [lia|intros [? _]; lia]]). }
  apply H.
Qed.

(** ** The boundary on a line *)

Lemma dotRun_line s :
  Forall (fun c => isLineTerminator c = false) s -> dotRun s = s.
Proof.
  induction 1 as [|c s Hc Hs IH]; simpl; [reflexivity|].
  rewrite Hc, IH. reflexivity.
Qed.

(** On a content-type of one line, the boundary is all that follows the
    first [boundary=], when something does. *)
Lemma boundaryMatch_line contentType : forall i,
  Forall (fun c => isLineTerminator c = false) contentType ->
  boundaryMatch contentType
  = match JS.indexOf_from contentType (js "boundary=") i with
    | Some j => match drop (j - i + 9) contentType with
                | [] => None
                | boundary => Some boundary
                end
    | None => None
    end.
Proof.
  induction contentType as [|c s IH]; intros i Hline;
    rewrite boundaryMatch_eq, indexOf_from_eq.
  - reflexivity.
  - destruct (JS.startsWith (c :: s) (js "boundary=")) eqn:E.
    + rewrite Nat.sub_diag. change (0 + 9)%nat with 9%nat.
      rewrite dotRun_line by (apply Forall_drop; exact Hline).
      destruct (drop 9 (c :: s)) as [|b0 b] eqn:Ed; [|reflexivity].
      apply boundaryMatch_None. intros before rest Hs.
      apply (f_equal (@length N)) in Ed, Hs. rewrite length_drop in Ed.
      rewrite !length_app in Hs. cbn [length] in Ed.
      change (length (js "boundary=")) with 9%nat in Hs. lia.
    + apply Forall_cons_1 in Hline as [_ Hline]. rewrite (IH (S i) Hline).
      destruct (JS.indexOf_from s (js "boundary=") (S i)) as [j|] eqn:Ej;
        [|reflexivity].
      apply indexOf_from_Some in Ej as (a & b & _ & ->).
      replace (S i + length a - i + 9)%nat with (S (S i + length a - S i + 9))
        by lia.
      reflexivity.
Qed.

(** *** The alphabet of the injected text *)

(** A string of UTF-16 code units. *)
Definition codeUnits (s : jsstring) : Prop := Forall (fun c => (c < 65536)%N) s.

(** A code unit of an injected text: one a component may hold, or one of
    the two separators. *)
Definition pairUnit (c : N) : bool := urlSafe c || (c =? 61)%N || (c =? 38)%N.

Lemma urlSafe_pairUnit s :
  Forall (fun c => urlSafe c = true) s -> Forall (fun c => pairUnit c = true) s.
Proof.
  intros H. eapply Forall_impl; [exact H|].
  intros c Hc. unfold pairUnit. rewrite Hc. reflexivity.
Qed.

Lemma encodePairs_alphabet parameters :
  Forall (fun p => codeUnits (Param.name p) /\ codeUnits (Param.value p)) parameters ->
  forall pairs, encodePairs parameters = Some pairs ->
    Forall (fun c => pairUnit c = true) (JS.join [38%N] pairs).
Proof.
  induction 1 as [|p ps [Hn Hv] Hps IH]; simpl; intros pairs.
  - intros [= <-]. constructor.
  - destruct (JS.encodeURIComponent (Param.name p)) as [n|] eqn:En; [|discriminate].
    destruct (JS.encodeURIComponent (Param.value p)) as [v|] eqn:Ev; [|discriminate].
    destruct (encodePairs ps) as [pairs'|]; [|discriminate].
    intros [= <-]. specialize (IH pairs' eq_refl).
    assert (Hpair : Forall (fun c => pairUnit c = true) (n ++ js "=" ++ v)).
    { apply Forall_app. split.
      - apply urlSafe_pairUnit. exact (encodeURIComponent_safe _ Hn _ En).
      - constructor; [reflexivity|].
        apply urlSafe_pairUnit. exact (encodeURIComponent_safe _ Hv _ Ev). }
    destruct pairs' as [|q pairs']; [exact Hpair|].
    change (JS.join [38%N] ((n ++ js "=" ++ v) :: q :: pairs'))
      with ((n ++ js "=" ++ v) ++ [38%N] ++ JS.join [38%N] (q :: pairs')).
    apply Forall_app. split; [exact Hpair|]. constructor; [reflexivity|exact IH].
Qed.

Lemma join_app (sep : jsstring) (a b : list jsstring) :
  a <> [] -> b <> [] ->
  JS.join sep (a ++ b) = JS.join sep a ++ sep ++ JS.join sep b.
Proof.
  intros Ha Hb. induction a as [|x a IH]; [contradiction|].
  destruct a as [|y a].
  - destruct b as [|z b]; [contradiction|]. reflexivity.
  - change (JS.join sep ((x :: y :: a) ++ b))
      with (x ++ sep ++ JS.join sep ((y :: a) ++ b)).
    rewrite IH by discriminate.
    change (JS.join sep (x :: y :: a)) with (x ++ sep ++ JS.join sep (y :: a)).
    rewrite <- !app_assoc. reflexivity.
Qed.

(** A joined run of pieces does not end in [&]. *)
Lemma join_pieces_end pieces :
  Forall piece pieces -> JS.endsWith (JS.join [38%N] pieces) [38%N] = false.
Proof.
  intros H. destruct (JS.endsWith _ _) eqn:E; [|reflexivity]. exfalso.
  apply endsWith_spec in E as [t E].
  induction H as [|p ps [Hp1 Hp2] Hps IH] in t, E |- *.
  - destruct t; discriminate E.
  - destruct ps as [|q ps].
    + simpl in E. apply Hp2. rewrite E. apply in_or_app. right. left. reflexivity.
    + change (JS.join [38%N] (p :: q :: ps))
        with (p ++ [38%N] ++ JS.join [38%N] (q :: ps)) in E.
      destruct (JS.join [38%N] (q :: ps)) as [|j0 j] eqn:Ej using rev_ind.
      * apply Forall_cons_1 in Hps as [[Hq _] _].
        destruct ps; simpl in Ej; [subst q; destruct Hq|].
        destruct q; [destruct Hq|discriminate Ej].
      * clear IHj. rewrite !app_assoc in E. apply app_inj_tail in E as [_ ->].
        apply (IH j). reflexivity.
Qed.

(** ** The first occurrence of a pattern *)

Lemma startsWith_prefix p : forall x y,
  JS.startsWith (x ++ y) p = true -> (length p <= length x)%nat ->
  JS.startsWith x p = true.
Proof.
  induction p as [|a p IH]; intros x y H L; [destruct x; reflexivity|].
  destruct x as [|b x]; [simpl in L; lia|]. simpl in *.
  apply andb_true_iff in H as [-> H]. apply (IH x y H). lia.
Qed.

Lemma indexOf_from_first (p : jsstring) before rest :
  p <> [] ->
  JS.includes (before ++ removelast p) p = false ->
  forall i, JS.indexOf_from (before ++ p ++ rest) p i = Some (i + length before)%nat.
Proof.
  intros Hp. induction before as [|c before IH]; intros Hnone i;
    rewrite indexOf_from_eq.
  - simpl. rewrite startsWith_app. f_equal. lia.
  - destruct (JS.startsWith ((c :: before) ++ p ++ rest) p) eqn:E.
    + exfalso.
      assert (Hlen : (length p <= length ((c :: before) ++ removelast p))%nat).
      { rewrite length_app. cbn [length].
        destruct p as [|a p] using rev_ind; [contradiction|].
        rewrite removelast_last, length_app. simpl. lia. }
      assert (Hs : JS.startsWith ((c :: before) ++ removelast p) p = true).
      { apply (startsWith_prefix p _ ([List.last p 0%N] ++ rest)); [|exact Hlen].
        rewrite <- app_assoc, (app_assoc (removelast p)).
        rewrite <- app_removelast_last by exact Hp. exact E. }
      apply startsWith_spec in Hs as [t Ht].
      assert (JS.includes ((c :: before) ++ removelast p) p = true)
        by (apply includes_spec; exists [], t; exact Ht).
      congruence.
    + cbn [app]. rewrite IH.
      * f_equal. simpl. lia.
      * destruct (JS.includes (before ++ removelast p) p) eqn:Ei; [|reflexivity].
        apply includes_spec in Ei as (a & b & Ei).
        assert (JS.includes ((c :: before) ++ removelast p) p = true).
        { apply includes_spec. exists (c :: a), b. simpl. rewrite Ei. reflexivity. }
        congruence.
Qed.

(** ** The strategies on a request of the store *)

(** A request whose header object has the header arrays of another world. *)
Lemma Holds_from w0 w request r h :
  store w !! request = Some (RequestCell r) ->
  store w !! Request.headers r = Some (HeadersCell h) ->
  (forall k a, h !! k = Some a ->
     is_Some (arrayAt w0 a) /\ arrayAt w a = arrayAt w0 a) ->
  Holds w request r (headersOf w0 h).
Proof.
  intros Hr Hh Harr. exists h. split; [exact Hr|]. split; [exact Hh|]. split.
  - intros k a Ha. destruct (Harr k a Ha) as [Hs ->]. exact Hs.
  - unfold headersOf. apply map_eq. intros k. rewrite !lookup_omap.
    destruct (h !! k) as [a|] eqn:Ea; simpl; [|reflexivity].
    symmetry. apply (Harr k a Ea).
Qed.

(** What is in the store stays: so does a request that is held. *)
Lemma Holds_preserved w w' request r hs :
  (forall l c, store w !! l = Some c -> store w' !! l = Some c) ->
  Holds w request r hs -> Holds w' request r hs.
Proof.
  intros Hp (h & Hr & Hh & Hwf & ->).
  apply Holds_from; auto.
  intros k a Ha. split; [eapply Hwf; eauto|].
  destruct (Hwf _ _ Ha) as [vs Hvs]. unfold arrayAt in *.
  destruct (store w !! a) as [c|] eqn:Ea; [|discriminate].
  rewrite (Hp _ _ Ea). reflexivity.
Qed.

Lemma Holds_alloc w request r hs c :
  Holds w request r hs -> Holds (snd (alloc c w)) request r hs.
Proof.
  apply Holds_preserved. intros l c' Hl. simpl.
  rewrite lookup_insert_ne; [exact Hl|].
  intros <-. assert (store w !! fresh (dom (store w)) = None)
    by apply not_elem_of_dom, is_fresh. congruence.
Qed.

(** [request.headers["__proto__"] = [value]] on a header object that has
    no own property of that name: the object gets none. *)
Lemma setHeader_proto_Holds w request r hs value :
  Holds w request r hs -> hs !! Assign.proto = None ->
  exists w', setHeader request Assign.proto value w = (Return tt, w')
    /\ Holds w' request r hs /\ sameEngine w w'.
Proof.
  intros H Hnone.
  pose proof (Holds_alloc w request r hs (ArrayCell [value]) H) as Ha.
  destruct H as (h & Hr & Hh & Hwf & ->).
  assert (Hh0 : h !! Assign.proto = None).
  { unfold headersOf in Hnone. rewrite lookup_omap in Hnone.
    destruct (h !! Assign.proto) as [l|] eqn:El; [|reflexivity].
    destruct (Hwf _ _ El) as [vs Hvs]. simpl in Hnone. congruence. }
  exists (snd (alloc (ArrayCell [value]) w)). split; [|split].
  - unfold setHeader.
    rewrite (bind_Return _ _ _ _ _ (readRequest_ok _ _ _ Hr)).
    rewrite (bind_Return _ _ _ _ _ (alloc_run _ _)).
    assert (Hh' : store (snd (alloc (ArrayCell [value]) w)) !! Request.headers r
                  = Some (HeadersCell h)).
    { cbn [snd alloc store]. rewrite lookup_insert_ne; [exact Hh|].
      intros E. assert (store w !! fresh (dom (store w)) = None)
        by apply not_elem_of_dom, is_fresh. congruence. }
    cbn [snd alloc] in Hh'.
    lazymatch goal with
    | |- context [bind (readHeaders ?l) ?k ?W] =>
        rewrite (bind_Return _ k W _ W (readHeaders_ok W l _ Hh'))
    end.
    rewrite eqb_refl, Hh0. reflexivity.
  - exact Ha.
  - repeat split.
Qed.

(** The own properties of a header object after [headers[name] = [value]]:
    the assignment is lost when the name is [__proto__] and the object has
    no own property of that name. *)
Definition assignHeader (name value : jsstring)
  (hs : gmap jsstring (list jsstring)) : gmap jsstring (list jsstring) :=
  match hs !! name with
  | None => if JS.eqb name Assign.proto then hs else <[name := [value]]> hs
  | Some _ => <[name := [value]]> hs
  end.

Lemma setHeader_assign_Holds w request r hs name value :
  Holds w request r hs ->
  exists w', setHeader request name value w = (Return tt, w')
    /\ Holds w' request r (assignHeader name value hs) /\ sameEngine w w'.
Proof.
  intros H. unfold assignHeader.
  destruct (hs !! name) as [vs|] eqn:Eown.
  - apply setHeader_written; [exact H|]. right. rewrite Eown. eauto.
  - destruct (JS.eqb name Assign.proto) eqn:Ep.
    + apply eqb_true in Ep. subst name. apply setHeader_proto_Holds; assumption.
    + apply setHeader_Holds; [exact H|]. apply not_proto. exact Ep.
Qed.

(** The query a strategy leaves: what was there, [&], and the addition; or
    the addition alone when there was no query. *)
Definition extendQuery (query addition : jsstring) : jsstring :=
  if truthy query then query ++ js "&" ++ addition else addition.

Lemma handleQueryParameters_Holds w request r hs parameters :
  Holds w request r hs ->
  match encodePairs parameters with
  | Some pairs =>
      exists w', handleQueryParameters request parameters w = (Return tt, w')
        /\ Holds w' request
             (Request.set_query
                (extendQuery (Request.query r) (JS.join (js "&") pairs)) r) hs
        /\ sameEngine w w'
  | None =>
      handleQueryParameters request parameters w = (Throw (Exn URIError), w)
  end.
Proof.
  intros H. unfold handleQueryParameters, encodeParams.
  destruct (encodePairs parameters) as [pairs|]; [|reflexivity].
  rewrite (bind_Return _ _ w (JS.join (js "&") pairs) w) by reflexivity.
  rewrite (bind_Return _ _ _ _ _ (readRequest_Holds _ _ _ _ H)).
  apply setQuery_Holds. exact H.
Qed.

(** The header map after the header strategy: each parameter, in batch
    order, replaces the value sequence under its name by its one value,
    unless the assignment is lost. *)
Definition headersWith (parameters : list Param.t)
  (hs : gmap jsstring (list jsstring)) : gmap jsstring (list jsstring) :=
  fold_left (fun hs p => assignHeader (Param.name p) (Param.value p) hs)
    parameters hs.

Lemma handleHeaderParameters_Holds parameters : forall w request r hs,
  Holds w request r hs ->
  exists w', handleHeaderParameters request parameters w = (Return tt, w')
    /\ Holds w' request r (headersWith parameters hs) /\ sameEngine w w'.
Proof.
  unfold handleHeaderParameters, headersWith.
  induction parameters as [|p ps IH]; intros w request r hs H; simpl.
  - exists w. split; [reflexivity|]. split; [exact H|apply sameEngine_refl].
  - destruct (setHeader_assign_Holds w request r hs (Param.name p)
                (Param.value p) H) as (w1 & E1 & H1 & S1).
    rewrite (bind_Return _ _ _ _ _ E1).
    destruct (IH w1 request r _ H1) as (w2 & E2 & H2 & S2).
    exists w2. split; [exact E2|]. split; [exact H2|].
    eapply sameEngine_trans; eauto.
Qed.

(** A name under which no assignment writes: [__proto__] on a header
    object without an own property of that name. *)
Definition lostName (hs : gmap jsstring (list jsstring)) (k : jsstring) : bool :=
  JS.eqb k Assign.proto && negb (bool_decide (is_Some (hs !! k))).

Lemma assignHeader_lost name value hs k :
  lostName (assignHeader name value hs) k = lostName hs k.
Proof.
  unfold lostName, assignHeader.
  destruct (JS.eqb k Assign.proto) eqn:Ek; [|reflexivity]. cbn [andb]. f_equal.
  apply eqb_true in Ek. subst k.
  destruct (decide (name = Assign.proto)) as [->|Hne].
  - destruct (hs !! Assign.proto) as [vs|] eqn:Eown.
    + rewrite lookup_insert_eq, !bool_decide_eq_true_2 by eauto. reflexivity.
    + rewrite eqb_refl, Eown. reflexivity.
  - assert (Elook : forall m : gmap jsstring (list jsstring),
              <[name := [value]]> m !! Assign.proto = m !! Assign.proto)
      by (intros m; apply lookup_insert_ne; exact Hne).
    destruct (hs !! name); [rewrite Elook; reflexivity|].
    destruct (JS.eqb name Assign.proto); [reflexivity|].
    rewrite Elook. reflexivity.
Qed.

Lemma headersWith_lookup parameters : forall hs k,
  headersWith parameters hs !! k
  = match lastParam parameters k with
    | Some v => if lostName hs k then None else Some [v]
    | None => hs !! k
    end.
Proof.
  unfold headersWith, lastParam.
  induction parameters as [|p ps IH]; intros hs k; simpl; [reflexivity|].
  rewrite IH, assignHeader_lost.
  destruct (lastValue _ k); [reflexivity|].
  unfold assignHeader, lostName.
  destruct (JS.eqb (Param.name p) k) eqn:Epk.
  - apply eqb_true in Epk. subst k.
    destruct (hs !! Param.name p) as [vs|] eqn:Eown.
    + rewrite lookup_insert_eq, bool_decide_eq_true_2, andb_false_r by eauto.
      reflexivity.
    + rewrite bool_decide_eq_false_2 by (intros [? ?]; discriminate).
      rewrite andb_true_r.
      destruct (JS.eqb (Param.name p) Assign.proto); [exact Eown|].
      apply lookup_insert_eq.
  - apply eqb_false in Epk.
    destruct (hs !! Param.name p);
      [rewrite lookup_insert_ne by exact Epk; reflexivity|].
    destruct (JS.eqb (Param.name p) Assign.proto); [reflexivity|].
    rewrite lookup_insert_ne by exact Epk. reflexivity.
Qed.

(** The world once events were added. *)
Definition withEvents (evs : list Event) (w : World) : World :=
  {| store := store w; bodyType := bodyType w;
     multipartBoundary := multipartBoundary w; events := events w ++ evs |}.

Lemma withEvents_nil w : withEvents [] w = w.
Proof. destruct w. unfold withEvents. simpl. rewrite app_nil_r. reflexivity. Qed.

Lemma withEvents_app a b w : withEvents b (withEvents a w) = withEvents (a ++ b) w.
Proof. unfold withEvents. simpl. rewrite app_assoc. reflexivity. Qed.

Section Strategies.

Context {host : Host}.
Variable paramMiner : ParamMiner.t.

(** The parameter the cache buster adds: [cb], the clock, [=], the clock
    read again. *)
Definition cacheBuster (before : list Event) : jsstring :=
  js "cb" ++ JS.Number_toString (Date_now before) ++ js "="
  ++ JS.Number_toString (Date_now (before ++ [DateNow])).

Lemma now_run w : now w = (Return (Date_now (events w)), withEvents [DateNow] w).
Proof. reflexivity. Qed.

Lemma handleCacheBusterParameter_Holds w request r hs :
  Holds w request r hs ->
  exists w',
    handleCacheBusterParameter request w = (Return tt, w')
    /\ Holds w' request
         (Request.set_query
            (extendQuery (Request.query r) (cacheBuster (events w))) r) hs
    /\ sameEngine (withEvents [DateNow; DateNow] w) w'.
Proof.
  intros H. unfold handleCacheBusterParameter.
  rewrite (bind_Return _ _ _ _ _ (now_run w)).
  rewrite (bind_Return _ _ _ _ _ (now_run _)).
  rewrite withEvents_app. cbn [events withEvents app].
  set (w2 := withEvents [DateNow; DateNow] w).
  assert (H2 : Holds w2 request r hs) by (eapply Holds_store; [|exact H]; reflexivity).
  rewrite (bind_Return _ _ _ _ _ (readRequest_Holds _ _ _ _ H2)).
  apply setQuery_Holds. exact H2.
Qed.

(** *** A body-surface call that returns *)

Lemma encodeAs_returns f w request r hs parameters originalBody w' :
  Holds w request r hs ->
  encodeAs paramMiner f request parameters originalBody w = (Return tt, w') ->
  exists body' hs',
    Holds w' request (Request.set_body body' r) hs'
    /\ events w' = events w /\ bodyType w' = bodyType w.
Proof.
  intros H E. destruct f; simpl in E.
  - pose proof (handleJSONBody_Holds paramMiner w request r hs parameters
                  originalBody H) as Hrun.
    destruct (parseBody originalBody) as [bodyObj|];
      [|rewrite Hrun in E; discriminate E].
    destruct (injectJSON paramMiner bodyObj parameters) as [x|bodyObj'];
      [rewrite Hrun in E; discriminate E|].
    destruct Hrun as (w1 & E1 & H1 & S1). rewrite E1 in E. injection E as <-.
    destruct S1 as (? & ? & ?). eauto 6.
  - pose proof (handleQueryBody_Holds w request r hs parameters originalBody H)
      as Hrun.
    destruct (encodePairs parameters) as [pairs|];
      [|rewrite Hrun in E; discriminate E].
    destruct Hrun as (w1 & E1 & H1 & S1). rewrite E1 in E. injection E as <-.
    destruct S1 as (? & ? & ?). eauto 6.
  - pose proof (handleMultipartBody_Holds w request r hs parameters originalBody H)
      as Hrun.
    destruct (hs !! js "Content-Type" ≫= head) as [ct|];
      [|rewrite Hrun in E; discriminate E].
    destruct (negb (truthy ct)); [rewrite Hrun in E; discriminate E|].
    destruct (boundaryMatch ct) as [b|]; [|rewrite Hrun in E; discriminate E].
    destruct (JS.indexOf _ _) as [i|]; [|rewrite Hrun in E; discriminate E].
    destruct Hrun as (w1 & E1 & H1 & S1). rewrite E1 in E. injection E as <-.
    destruct S1 as (? & ? & ?). eexists _, _. split; [|split; [simpl; eauto|simpl; eauto]].
    eapply Holds_store; [|exact H1]. reflexivity.
  - discriminate E.
Qed.

(** The log message of a detection. *)
Definition formatLogged (f : BodyType.t) : Event :=
  ApiSend (js "paramfinder:log") (ParamMiner.id paramMiner)
    (js "Determined body format: " ++ BodyType.toString f).

Lemma handleBodyParameters_returns w request r hs parameters w' :
  Holds w request r hs ->
  handleBodyParameters paramMiner request parameters w = (Return tt, w') ->
  exists body' hs' f,
    Holds w' request (Request.set_body body' r) hs'
    /\ bodyType w' = Some f
    /\ events w'
       = events w ++ match bodyType w with
                     | Some _ => []
                     | None => [formatLogged f]
                     end.
Proof.
  intros H E. destruct (bodyType w) as [f|] eqn:Ef.
  - rewrite (handleBodyParameters_cached paramMiner w request r hs parameters f H Ef)
      in E.
    destruct (encodeAs_returns f w request r hs parameters _ w' H E)
      as (body' & hs' & H' & Ev & Eb).
    exists body', hs', f. rewrite app_nil_r. split; [exact H'|].
    split; congruence.
  - destruct (handleBodyParameters_uncached paramMiner w request r hs parameters H Ef)
      as (d & _ & Erun).
    rewrite Erun in E. destruct d as [f|]; [|discriminate E].
    assert (Hd : Holds (determined paramMiner f w) request r hs)
      by (eapply Holds_store; [|exact H]; reflexivity).
    destruct (encodeAs_returns f _ request r hs parameters _ w' Hd E)
      as (body' & hs' & H' & Ev & Eb).
    exists body', hs', f. split; [exact H'|]. split; [exact Eb|exact Ev].
Qed.

(** *** The dispatcher, from the copy to the transport *)

(** The debug message of a dispatch. *)
Definition debugMessage (parameters : list Param.t) : Event :=
  Debug (js "[requester.ts] Sending request with "
         ++ JS.Number_toString (N.of_nat (length parameters))
         ++ js " parameters... (requestCopy has "
         ++ JS.Number_toString requestCopyKeys ++ js " parameters)").

(** The [switch] of the dispatcher. *)
Definition inject (requestCopy : loc) (parameters : list Param.t) : M unit :=
  match Config.attackType (config paramMiner) with
  | AttackType.query =>
      handleQueryParameters requestCopy parameters ;;
      if Config.cacheBusterParameter (config paramMiner)
         || Config.addCacheBusterParameter (config paramMiner)
      then handleCacheBusterParameter requestCopy
      else ret tt
  | AttackType.headers =>
      handleHeaderParameters requestCopy parameters ;;
      if Config.cacheBusterParameter (config paramMiner)
         || Config.addCacheBusterParameter (config paramMiner)
      then handleCacheBusterParameter requestCopy
      else ret tt
  | AttackType.body => handleBodyParameters paramMiner requestCopy parameters
  | AttackType.other => ret tt
  end.

(** The header map once the Content-Length update ran, if it is on. *)
Definition lengthUpdated (r : Request.t) (hs : gmap jsstring (list jsstring))
  : gmap jsstring (list jsstring) :=
  if Config.updateContentLength (config paramMiner) then
    if (length (Request.body r) =? 0)%nat then delete (js "Content-Length") hs
    else <[js "Content-Length" :=
             [JS.Number_toString (N.of_nat (length (Request.body r)))]]> hs
  else hs.

Lemma prepare_inject requestCopy parameters w :
  prepare paramMiner requestCopy parameters w
  = bind (inject requestCopy parameters)
      (fun _ => if Config.updateContentLength (config paramMiner)
                then updateContentLength requestCopy else ret tt)
      (withEvents [debugMessage parameters] w).
Proof.
  unfold prepare. rewrite (bind_Return _ _ _ _ _ (emit_run _ _)). reflexivity.
Qed.

(** Injection went well: the Content-Length update and nothing else is
    left to do before the request goes out. *)
Lemma prepare_returns requestCopy parameters w w1 r1 hs1 :
  inject requestCopy parameters (withEvents [debugMessage parameters] w)
  = (Return tt, w1) ->
  Holds w1 requestCopy r1 hs1 ->
  exists w2,
    prepare paramMiner requestCopy parameters w = (Return tt, w2)
    /\ Holds w2 requestCopy r1 (lengthUpdated r1 hs1)
    /\ sameEngine w1 w2.
Proof.
  intros E H. rewrite prepare_inject, (bind_Return _ _ _ _ _ E).
  unfold lengthUpdated.
  destruct (Config.updateContentLength (config paramMiner)).
  - apply updateContentLength_Holds. exact H.
  - exists w1. split; [reflexivity|]. split; [exact H|apply sameEngine_refl].
Qed.

Lemma prepare_throws requestCopy parameters w e w1 :
  inject requestCopy parameters (withEvents [debugMessage parameters] w)
  = (Throw e, w1) ->
  prepare paramMiner requestCopy parameters w = (Throw e, w1).
Proof. intros E. rewrite prepare_inject. apply bind_Throw. exact E. Qed.

Lemma snapshot_Holds w request r hs :
  Holds w request r hs ->
  snapshot request w = (Return {| sent := r; sentHeaders := hs |}, w).
Proof.
  intros (h & Hr & Hh & _ & ->). unfold snapshot.
  rewrite (bind_Return _ _ _ _ _ (readRequest_ok _ _ _ Hr)).
  rewrite (bind_Return _ _ _ _ _ (readHeaders_ok _ _ _ Hh)).
  reflexivity.
Qed.

(** What the transport and the decision callback add to the events. *)
Definition sendEvents (context : option jsstring) (outgoing : Snapshot)
  (before : list Event) : list Event :=
  SendRequest outgoing
  :: decisionEvents paramMiner context (sendRequest outgoing before)
       (before ++ [SendRequest outgoing]).

Lemma sendAndDecide_Holds w requestCopy r hs context :
  Holds w requestCopy r hs ->
  let outgoing := {| sent := r; sentHeaders := hs |} in
  sendAndDecide paramMiner requestCopy context w
  = (Return (sendRequest outgoing (events w)),
     withEvents (sendEvents context outgoing (events w)) w).
Proof.
  intros H outgoing.
  pose proof (sendAndDecide_run paramMiner w requestCopy context) as Hrun.
  rewrite (snapshot_Holds _ _ _ _ H) in Hrun. cbv zeta in Hrun.
  rewrite Hrun. unfold withEvents, sendEvents. fold outgoing.
  rewrite <- app_assoc. reflexivity.
Qed.

(** The copy is in the store, with the headers of the original. *)
Lemma copied_Holds w request r hs context :
  Holds w request r hs ->
  exists h requestCopy w1,
    store w !! request = Some (RequestCell r)
    /\ store w !! Request.headers r = Some (HeadersCell h)
    /\ copied w r h context = (requestCopy, w1)
    /\ Holds w1 requestCopy (copyOf w r context) hs
    /\ sameEngine (withEvents [GenerateID] w) w1.
Proof.
  intros (h & Hr & Hh & Hwf & ->).
  exists h. unfold copied.
  set (hc := fresh (dom (store w))).
  set (s1 := <[hc := HeadersCell h]> (store w)).
  set (rc := fresh (dom s1)).
  assert (Hhc : store w !! hc = None) by apply not_elem_of_dom, is_fresh.
  assert (Hrc : s1 !! rc = None) by apply not_elem_of_dom, is_fresh.
  assert (Hne : rc <> hc).
  { intros E. rewrite E in Hrc. unfold s1 in Hrc.
    rewrite lookup_insert_eq in Hrc. discriminate Hrc. }
  eexists _, _. split; [exact Hr|]. split; [exact Hh|]. split; [reflexivity|].
  split; [|repeat split].
  apply Holds_from.
  - cbn [store]. apply lookup_insert_eq.
  - cbn [store copyOf Request.headers]. fold hc.
    rewrite lookup_insert_ne by auto. apply lookup_insert_eq.
  - intros k a Ha. split; [eapply Hwf; eauto|].
    destruct (Hwf _ _ Ha) as [vs Hvs]. unfold arrayAt in *. cbn [store].
    destruct (store w !! a) as [c|] eqn:Ea; [|discriminate].
    assert (a <> hc) by congruence.
    assert (s1 !! a = Some c) by (unfold s1; rewrite lookup_insert_ne; auto).
    rewrite lookup_insert_ne by congruence. rewrite H0. reflexivity.
Qed.

(** A dispatch on a request of the store: the copy is made, and the call
    is what injection, the Content-Length update, the transport and the
    decision callback make of the copy. *)
Lemma dispatch_copy w request r hs parameters context :
  Holds w request r hs ->
  exists requestCopy w1,
    Holds w1 requestCopy (copyOf w r context) hs
    /\ sameEngine (withEvents [GenerateID] w) w1
    /\ sendRequestWithParams paramMiner request parameters context w
       = bind (prepare paramMiner requestCopy parameters)
           (fun _ => sendAndDecide paramMiner requestCopy context) w1.
Proof.
  intros H.
  destruct (copied_Holds w request r hs context H)
    as (h & rc & w1 & Hr & Hh & Ec & H1 & S1).
  exists rc, w1. split; [exact H1|]. split; [exact S1|].
  pose proof (sendRequestWithParams_copy paramMiner w request parameters context)
    as Hcopy.
  rewrite Hr, Hh, Ec in Hcopy. exact Hcopy.
Qed.

(** A dispatch whose injection goes well. *)
Lemma dispatch_returns w request parameters context requestCopy w1 w2 r2 hs2 :
  sendRequestWithParams paramMiner request parameters context w
  = bind (prepare paramMiner requestCopy parameters)
      (fun _ => sendAndDecide paramMiner requestCopy context) w1 ->
  inject requestCopy parameters (withEvents [debugMessage parameters] w1)
  = (Return tt, w2) ->
  Holds w2 requestCopy r2 hs2 ->
  let outgoing := {| sent := r2; sentHeaders := lengthUpdated r2 hs2 |} in
  exists w3,
    sameEngine w2 w3
    /\ sendRequestWithParams paramMiner request parameters context w
       = (Return (sendRequest outgoing (events w2)),
          withEvents (sendEvents context outgoing (events w2)) w3).
Proof.
  intros E Ei H2 outgoing.
  destruct (prepare_returns requestCopy parameters w1 w2 r2 hs2 Ei H2)
    as (w3 & E3 & H3 & S3).
  exists w3. split; [exact S3|].
  rewrite E, (bind_Return _ _ _ _ _ E3).
  rewrite (sendAndDecide_Holds w3 requestCopy r2 _ context H3).
  destruct S3 as (_ & _ & ->). reflexivity.
Qed.

End Strategies.

(** ** What a dispatch does before it sends *)

(** The events that stay inside the plugin: the identifier, the debug and
    log messages, the clock. *)
Definition isLocal (e : Event) : bool :=
  match e with
  | Debug _ | ApiSend _ _ _ | GenerateID | DateNow => true
  | _ => false
  end.

(** [addsLocal]: the events grow at the end, by local events. *)
Definition addsLocal (w w' : World) : Prop :=
  exists evs, events w' = events w ++ evs /\ forallb isLocal evs = true.

#[global] Instance addsLocal_preorder : PreOrder addsLocal.
Proof.
  split.
  - intros w. exists []. rewrite app_nil_r. auto.
  - intros w1 w2 w3 (e1 & E1 & Q1) (e2 & E2 & Q2). exists (e1 ++ e2).
    rewrite E2, E1, <- app_assoc, forallb_app, Q1, Q2. auto.
Qed.

Lemma addsLocal_same_events {A} (m : M A) :
  (forall w, events (snd (m w)) = events w) -> frame addsLocal m.
Proof. intros H w. exists []. rewrite H, app_nil_r. auto. Qed.

Lemma addsLocal_emit e : isLocal e = true -> frame addsLocal (emit e).
Proof. intros H w. exists [e]. simpl. rewrite H. auto. Qed.

Lemma addsLocal_setStore s : frame addsLocal (setStore s).
Proof. apply addsLocal_same_events. reflexivity. Qed.
Lemma addsLocal_alloc c : frame addsLocal (alloc c).
Proof. apply addsLocal_same_events. reflexivity. Qed.
Lemma addsLocal_setBodyType b : frame addsLocal (setBodyType b).
Proof. apply addsLocal_same_events. reflexivity. Qed.
Lemma addsLocal_setMultipartBoundary b : frame addsLocal (setMultipartBoundary b).
Proof. apply addsLocal_same_events. reflexivity. Qed.

#[global] Hint Resolve addsLocal_emit addsLocal_setStore addsLocal_alloc
  addsLocal_setBodyType addsLocal_setMultipartBoundary : frames.

Lemma addsLocal_setBody l b : frame addsLocal (setBody l b).
Proof. unfold setBody, write. frames. Qed.
Lemma addsLocal_setQuery l q : frame addsLocal (setQuery l q).
Proof. unfold setQuery, write. frames. Qed.
Lemma addsLocal_setHeader l n v : frame addsLocal (setHeader l n v).
Proof. unfold setHeader, write. frames. Qed.
Lemma addsLocal_deleteHeader l n : frame addsLocal (deleteHeader l n).
Proof. unfold deleteHeader, write. frames. Qed.

#[global] Hint Resolve addsLocal_setBody addsLocal_setQuery
  addsLocal_setHeader addsLocal_deleteHeader : frames.

Section BeforeSending.

Context {host : Host}.
Variable paramMiner : ParamMiner.t.

Lemma addsLocal_inject l parameters :
  frame addsLocal (inject paramMiner l parameters).
Proof.
  unfold inject, handleQueryParameters, handleCacheBusterParameter, now,
    handleHeaderParameters, handleBodyParameters, determineBodyType,
    handleJSONBody, handleQueryBody, handleMultipartBody.
  frames.
Qed.

Lemma addsLocal_prepare l parameters :
  frame addsLocal (prepare paramMiner l parameters).
Proof.
  unfold prepare, handleQueryParameters, handleCacheBusterParameter, now,
    handleHeaderParameters, handleBodyParameters, determineBodyType,
    handleJSONBody, handleQueryBody, handleMultipartBody, updateContentLength.
  frames.
Qed.

(** Injection that returns leaves the copy a request of the store. *)
Lemma inject_returns l parameters w w' r hs :
  Holds w l r hs ->
  inject paramMiner l parameters w = (Return tt, w') ->
  exists r' hs', Holds w' l r' hs'.
Proof.
  intros H E. unfold inject in E.
  destruct (Config.attackType (config paramMiner)).
  - pose proof (handleQueryParameters_Holds w l r hs parameters H) as Hq.
    destruct (encodePairs parameters) as [pairs|];
      [|rewrite (bind_Throw _ _ _ _ _ Hq) in E; discriminate E].
    destruct Hq as (w1 & E1 & H1 & _). rewrite (bind_Return _ _ _ _ _ E1) in E.
    destruct (_ || _).
    + destruct (handleCacheBusterParameter_Holds w1 l _ _ H1) as (w2 & E2 & H2 & _).
      rewrite E2 in E. injection E as <-. eauto.
    + injection E as <-. eauto.
  - destruct (handleHeaderParameters_Holds parameters w l r hs H) as (w1 & E1 & H1 & _).
    rewrite (bind_Return _ _ _ _ _ E1) in E.
    destruct (_ || _).
    + destruct (handleCacheBusterParameter_Holds w1 l _ _ H1) as (w2 & E2 & H2 & _).
      rewrite E2 in E. injection E as <-. eauto.
    + injection E as <-. eauto.
  - destruct (handleBodyParameters_returns paramMiner w l r hs parameters w' H E)
      as (body' & hs' & f & H' & _). eauto.
  - injection E as <-. eauto.
Qed.

(** A dispatch that is not on the body surface leaves the two fields of the
    engine alone. *)
Lemma keeps_cache_off_body {X} (field : World -> X) request parameters context :
  (forall e, frame (keeps field) (emit e)) ->
  (forall s, frame (keeps field) (setStore s)) ->
  (forall c, frame (keeps field) (alloc c)) ->
  Config.attackType (config paramMiner) <> AttackType.body ->
  frame (keeps field) (sendRequestWithParams paramMiner request parameters context).
Proof.
  intros He Hs Ha Hattack.
  destruct (keeps_assignments field Hs Ha) as (Hb & Hq & Hh & Hd).
  unfold sendRequestWithParams, handleQueryParameters,
    handleCacheBusterParameter, now, handleHeaderParameters, updateContentLength.
  destruct (Config.attackType (config paramMiner)); [| |contradiction|];
    repeat first [ apply He | apply Ha | apply Hb | apply Hq | apply Hh | apply Hd
                 | frame_step ].
Qed.

End BeforeSending.

(** ** What the encoded text tells about the batch *)

(** The escape of a code point: [%XX] for each byte of its UTF-8 form. *)
Definition escape (cp : N) : jsstring := concat (List.map JS.percent (JS.utf8 cp)).

Lemma hexDigit_inj x y :
  (x < 16)%N -> (y < 16)%N -> JS.hexDigit x = JS.hexDigit y -> x = y.
Proof.
  unfold JS.hexDigit. intros Hx Hy.
  destruct (N.ltb_spec x 10%N), (N.ltb_spec y 10%N); lia.
Qed.

Lemma escape_head cp : exists t, escape cp = 37%N :: t.
Proof.
  unfold escape, JS.utf8.
  destruct (cp <? 128)%N; [simpl; eauto|].
  destruct (cp <? 2048)%N; [simpl; eauto|].
  destruct (cp <? 65536)%N; simpl; eauto.
Qed.

Lemma percent_inj b1 b2 :
  (b1 < 256)%N -> (b2 < 256)%N -> JS.percent b1 = JS.percent b2 -> b1 = b2.
Proof.
  intros H1 H2 E. injection E as Ea Eb.
  apply hexDigit_inj in Ea; [|nlia|nlia].
  apply hexDigit_inj in Eb; [|nlia|nlia]. nlia.
Qed.

Lemma blocks_inj bs1 : forall bs2 r1 r2,
  Forall (fun b => (b < 256)%N) bs1 -> Forall (fun b => (b < 256)%N) bs2 ->
  length bs1 = length bs2 ->
  concat (List.map JS.percent bs1) ++ r1 = concat (List.map JS.percent bs2) ++ r2 ->
  bs1 = bs2 /\ r1 = r2.
Proof.
  induction bs1 as [|b1 bs1 IH]; intros [|b2 bs2] r1 r2 F1 F2 L E;
    try discriminate L.
  - auto.
  - apply Forall_cons_1 in F1 as [Hb1 F1]. apply Forall_cons_1 in F2 as [Hb2 F2].
    cbn [List.map concat] in E. rewrite <- !app_assoc in E.
    assert (Eb : JS.percent b1 = JS.percent b2).
    { unfold JS.percent in *. cbn [app] in E. injection E as -> -> _. reflexivity. }
    apply percent_inj in Eb; auto. subst b2.
    apply app_inv_head in E.
    destruct (IH bs2 r1 r2 F1 F2) as [-> ->]; auto.
Qed.

Lemma utf8_cons cp :
  (cp < 1114112)%N ->
  exists b bs,
    JS.utf8 cp = b :: bs
    /\ Forall (fun b => (b < 256)%N) (b :: bs)
    /\ length bs = (if (b <? 128)%N then 0 else if (b <? 224)%N then 1
                    else if (b <? 240)%N then 2 else 3)%nat.
Proof.
  intros H. unfold JS.utf8.
  destruct (N.ltb_spec cp 128%N) as [C1|C1];
    [|destruct (N.ltb_spec cp 2048%N) as [C2|C2];
      [|destruct (N.ltb_spec cp 65536%N) as [C3|C3]]];
    eexists _, _; (split; [reflexivity|]); (split; [repeat constructor; nlia|]).
  - destruct (N.ltb_spec cp 128%N); [reflexivity|lia].
  - destruct (N.ltb_spec (192 + cp / 64) 128%N); [exfalso; nlia|].
    destruct (N.ltb_spec (192 + cp / 64) 224%N); [reflexivity|exfalso; nlia].
  - destruct (N.ltb_spec (224 + cp / 4096) 128%N); [exfalso; nlia|].
    destruct (N.ltb_spec (224 + cp / 4096) 224%N); [exfalso; nlia|].
    destruct (N.ltb_spec (224 + cp / 4096) 240%N); [reflexivity|exfalso; nlia].
  - destruct (N.ltb_spec (240 + cp / 262144) 128%N); [exfalso; nlia|].
    destruct (N.ltb_spec (240 + cp / 262144) 224%N); [exfalso; nlia|].
    destruct (N.ltb_spec (240 + cp / 262144) 240%N); [exfalso; nlia|reflexivity].
Qed.

Lemma utf8_inj cp1 cp2 :
  (cp1 < 1114112)%N -> (cp2 < 1114112)%N -> JS.utf8 cp1 = JS.utf8 cp2 -> cp1 = cp2.
Proof.
  intros H1 H2. unfold JS.utf8.
  destruct (N.ltb_spec cp1 128%N); [|destruct (N.ltb_spec cp1 2048%N);
                                       [|destruct (N.ltb_spec cp1 65536%N)]];
    (destruct (N.ltb_spec cp2 128%N); [|destruct (N.ltb_spec cp2 2048%N);
                                          [|destruct (N.ltb_spec cp2 65536%N)]]);
    intros E; try discriminate E; injection E; intros; nlia.
Qed.

Lemma escape_inj cp1 cp2 r1 r2 :
  (cp1 < 1114112)%N -> (cp2 < 1114112)%N ->
  escape cp1 ++ r1 = escape cp2 ++ r2 -> cp1 = cp2 /\ r1 = r2.
Proof.
  intros H1 H2. unfold escape.
  destruct (utf8_cons cp1 H1) as (b1 & bs1 & E1 & F1 & L1).
  destruct (utf8_cons cp2 H2) as (b2 & bs2 & E2 & F2 & L2).
  intros E. assert (Eu : JS.utf8 cp1 = JS.utf8 cp2 /\ r1 = r2).
  { rewrite E1, E2 in *.
    assert (Eb : JS.percent b1 = JS.percent b2).
    { cbn [List.map concat] in E. rewrite <- !app_assoc in E.
      unfold JS.percent in *. cbn [app] in E. injection E as -> -> _. reflexivity. }
    apply percent_inj in Eb;
      [|apply Forall_cons_1 in F1 as [? _]; assumption
       |apply Forall_cons_1 in F2 as [? _]; assumption].
    subst b2. apply blocks_inj; auto. simpl. congruence. }
  destruct Eu as [Eu ->]. split; [|reflexivity]. apply utf8_inj; auto.
Qed.

Lemma encode_head b e :
  JS.encodeURIComponent b = Some e ->
  match b with
  | [] => e = []
  | c :: rest =>
      if JS.isUnreserved c then
        exists e', JS.encodeURIComponent rest = Some e' /\ e = c :: e'
      else
        JS.isLowSurrogate c = false
        /\ if JS.isHighSurrogate c then
             match rest with
             | d :: rest' =>
                 JS.isLowSurrogate d = true
                 /\ exists e', JS.encodeURIComponent rest' = Some e'
                               /\ e = escape (JS.codePoint c d) ++ e'
             | [] => False
             end
           else exists e', JS.encodeURIComponent rest = Some e'
                           /\ e = escape c ++ e'
  end.
Proof.
  destruct b as [|c rest]; simpl; [intros [= <-]; reflexivity|].
  destruct (JS.isUnreserved c).
  { destruct (JS.encodeURIComponent rest) as [e'|]; [|discriminate].
    intros [= <-]. eauto. }
  destruct (JS.isLowSurrogate c); [discriminate|]. split; [reflexivity|].
  destruct (JS.isHighSurrogate c).
  - destruct rest as [|d rest']; [discriminate|].
    destruct (JS.isLowSurrogate d); [|discriminate]. split; [reflexivity|].
    destruct (JS.encodeURIComponent rest') as [e'|]; [|discriminate H].
    injection H as <-. eauto.
  - destruct (JS.encodeURIComponent rest) as [e'|]; [|discriminate H].
    injection H as <-. eauto.
Qed.

Lemma codePoint_inj c d c' d' :
  JS.isHighSurrogate c = true -> JS.isLowSurrogate d = true ->
  JS.isHighSurrogate c' = true -> JS.isLowSurrogate d' = true ->
  JS.codePoint c d = JS.codePoint c' d' -> c = c' /\ d = d'.
Proof.
  intros Hc Hd Hc' Hd'. apply surrogate_bounds in Hc, Hd, Hc', Hd'.
  unfold JS.codePoint. lia.
Qed.

Lemma codePoint_astral c d :
  JS.isHighSurrogate c = true -> JS.isLowSurrogate d = true ->
  (65536 <= JS.codePoint c d)%N.
Proof. intros _ _. unfold JS.codePoint. lia. Qed.

(** [encodeURIComponent] is one-to-one: the encoded text tells the string. *)
Lemma encodeURIComponent_inj a :
  forall b e, codeUnits a -> codeUnits b ->
    JS.encodeURIComponent a = Some e -> JS.encodeURIComponent b = Some e -> a = b.
Proof.
  apply (encodeURIComponent_cases
           (fun a r => forall b e, codeUnits a -> codeUnits b ->
                         r = Some e -> JS.encodeURIComponent b = Some e -> a = b));
    try (intros; discriminate).
  - intros b e _ _ [= <-] Hb. apply encode_head in Hb.
    destruct b as [|d restb]; [reflexivity|].
    destruct (JS.isUnreserved d); [destruct Hb as (? & _ & [=])|].
    destruct Hb as [_ Hb]. destruct (JS.isHighSurrogate d).
    + destruct restb as [|d' restb]; [destruct Hb|].
      destruct Hb as (_ & e' & _ & Hb).
      destruct (escape_head (JS.codePoint d d')) as [t Ht]. rewrite Ht in Hb.
      discriminate Hb.
    + destruct Hb as (e' & _ & Hb).
      destruct (escape_head d) as [t Ht]. rewrite Ht in Hb. discriminate Hb.
  - intros c rest Hc IH b e Ha Hb Ea Eb.
    apply Forall_cons_1 in Ha as [_ Ha].
    destruct (JS.encodeURIComponent rest) as [e0|]; [|discriminate Ea].
    injection Ea as <-. apply encode_head in Eb.
    destruct b as [|d restb]; [discriminate Eb|].
    apply Forall_cons_1 in Hb as [_ Hb].
    destruct (JS.isUnreserved d) eqn:Ed.
    + destruct Eb as (e' & Eb & [= <- <-]). f_equal. eapply IH; eauto.
    + exfalso. destruct Eb as [_ Eb]. destruct (JS.isHighSurrogate d).
      * destruct restb as [|d' restb]; [destruct Eb|].
        destruct Eb as (_ & e' & _ & Eb).
        destruct (escape_head (JS.codePoint d d')) as [t Ht]. rewrite Ht in Eb.
        injection Eb as -> _. discriminate Hc.
      * destruct Eb as (e' & _ & Eb).
        destruct (escape_head d) as [t Ht]. rewrite Ht in Eb.
        injection Eb as -> _. discriminate Hc.
  - intros c d rest Hcu _ Hc Hd IH b e Ha Hb Ea Eb.
    apply Forall_cons_1 in Ha as [_ Ha]. apply Forall_cons_1 in Ha as [_ Ha].
    destruct (JS.encodeURIComponent rest) as [e0|]; [|discriminate Ea].
    injection Ea as <-. fold (escape (JS.codePoint c d)) in Eb.
    apply encode_head in Eb.
    destruct b as [|c' restb]; [|].
    { destruct (escape_head (JS.codePoint c d)) as [t Ht]. rewrite Ht in Eb.
      discriminate Eb. }
    apply Forall_cons_1 in Hb as [Hc'u Hb].
    destruct (JS.isUnreserved c') eqn:Ec'.
    { exfalso. destruct Eb as (e' & _ & Eb).
      destruct (escape_head (JS.codePoint c d)) as [t Ht]. rewrite Ht in Eb.
      injection Eb as <- _. discriminate Ec'. }
    destruct Eb as [_ Eb]. destruct (JS.isHighSurrogate c') eqn:Eh'.
    + destruct restb as [|d' restb]; [destruct Eb|].
      apply Forall_cons_1 in Hb as [_ Hb].
      destruct Eb as (Hd' & e' & Eb & E).
      apply escape_inj in E as [E <-]; try (apply codePoint_bound; assumption).
      apply codePoint_inj in E as [-> ->]; auto.
      do 2 f_equal. eapply IH; eauto.
    + exfalso. destruct Eb as (e' & _ & E).
      apply escape_inj in E as [E _]; [|apply codePoint_bound; assumption|lia].
      pose proof (codePoint_astral c d Hc Hd). lia.
  - intros c rest Hcu Hl Hh IH b e Ha Hb Ea Eb.
    apply Forall_cons_1 in Ha as [Hc Ha].
    destruct (JS.encodeURIComponent rest) as [e0|]; [|discriminate Ea].
    injection Ea as <-. fold (escape c) in Eb.
    apply encode_head in Eb.
    destruct b as [|c' restb]; [|].
    { destruct (escape_head c) as [t Ht]. rewrite Ht in Eb. discriminate Eb. }
    apply Forall_cons_1 in Hb as [Hc'u Hb].
    destruct (JS.isUnreserved c') eqn:Ec'.
    { exfalso. destruct Eb as (e' & _ & Eb).
      destruct (escape_head c) as [t Ht]. rewrite Ht in Eb.
      injection Eb as <- _. discriminate Ec'. }
    destruct Eb as [_ Eb]. destruct (JS.isHighSurrogate c') eqn:Eh'.
    + exfalso. destruct restb as [|d' restb]; [destruct Eb|].
      destruct Eb as (Hd' & e' & _ & E).
      apply escape_inj in E as [E _]; [|lia|apply codePoint_bound; assumption].
      pose proof (codePoint_astral c' d' Eh' Hd'). lia.
    + destruct Eb as (e' & Eb & E).
      apply escape_inj in E as [-> <-]; [|lia|lia].
      f_equal. eapply IH; eauto.
Qed.

(** The first [=] of a pair parts the name from the value, the first [&]
    of a text a piece from the rest. *)
Lemma split_at_first (c : N) a : forall b x y,
  ~ In c a -> ~ In c b -> a ++ c :: x = b ++ c :: y -> a = b /\ x = y.
Proof.
  induction a as [|a0 a IH]; intros [|b0 b] x y Ha Hb E; simpl in E.
  - injection E as ->. auto.
  - injection E as <- _. exfalso. apply Hb. left. reflexivity.
  - injection E as -> _. exfalso. apply Ha. left. reflexivity.
  - injection E as -> E. destruct (IH b x y) as [-> ->]; auto.
    + intros Hin. apply Ha. right. exact Hin.
    + intros Hin. apply Hb. right. exact Hin.
Qed.

Lemma plain_no_eq s : plain s -> ~ In 61%N s.
Proof.
  intros H Hin. unfold plain in H. rewrite List.Forall_forall in H.
  destruct (H _ Hin) as [Hc _]. apply Hc. reflexivity.
Qed.

Lemma piece_not_nil p : piece p -> p <> [].
Proof. intros [H _] ->. destruct H. Qed.

Lemma join_pieces_inj ps : forall qs,
  Forall piece ps -> Forall piece qs ->
  JS.join [38%N] ps = JS.join [38%N] qs -> ps = qs.
Proof.
  induction ps as [|p ps IH]; intros qs Hps Hqs E.
  - destruct qs as [|q qs]; [reflexivity|]. exfalso.
    apply Forall_cons_1 in Hqs as [Hq _]. apply (piece_not_nil q Hq).
    destruct qs; simpl in E.
    + congruence.
    + symmetry in E. apply app_eq_nil in E as [-> _]. reflexivity.
  - apply Forall_cons_1 in Hps as [Hp Hps].
    destruct qs as [|q qs].
    { exfalso. apply (piece_not_nil p Hp). destruct ps; simpl in E.
      - congruence.
      - apply app_eq_nil in E as [-> _]. reflexivity. }
    apply Forall_cons_1 in Hqs as [Hq Hqs].
    destruct ps as [|p2 ps]; destruct qs as [|q2 qs].
    + simpl in E. congruence.
    + exfalso. change (JS.join [38%N] (q :: q2 :: qs))
        with (q ++ 38%N :: JS.join [38%N] (q2 :: qs)) in E.
      simpl in E. apply (proj2 Hp). rewrite E. apply in_elt.
    + exfalso. change (JS.join [38%N] (p :: p2 :: ps))
        with (p ++ 38%N :: JS.join [38%N] (p2 :: ps)) in E.
      simpl in E. apply (proj2 Hq). rewrite <- E. apply in_elt.
    + change (JS.join [38%N] (p :: p2 :: ps))
        with (p ++ 38%N :: JS.join [38%N] (p2 :: ps)) in E.
      change (JS.join [38%N] (q :: q2 :: qs))
        with (q ++ 38%N :: JS.join [38%N] (q2 :: qs)) in E.
      apply split_at_first in E as [-> E]; [|apply Hp|apply Hq].
      f_equal. apply IH; auto.
Qed.

Lemma encodePairs_inj parameters : forall others pairs,
  Forall (fun p => codeUnits (Param.name p) /\ codeUnits (Param.value p)) parameters ->
  Forall (fun p => codeUnits (Param.name p) /\ codeUnits (Param.value p)) others ->
  encodePairs parameters = Some pairs -> encodePairs others = Some pairs ->
  parameters = others.
Proof.
  induction parameters as [|p ps IH]; intros [|q qs] pairs Hp Hq Ep Eq; simpl in *.
  - reflexivity.
  - injection Ep as <-.
    destruct (JS.encodeURIComponent (Param.name q)); [|discriminate].
    destruct (JS.encodeURIComponent (Param.value q)); [|discriminate].
    destruct (encodePairs qs); discriminate.
  - injection Eq as <-.
    destruct (JS.encodeURIComponent (Param.name p)); [|discriminate].
    destruct (JS.encodeURIComponent (Param.value p)); [|discriminate].
    destruct (encodePairs ps); discriminate.
  - apply Forall_cons_1 in Hp as [[Hpn Hpv] Hp].
    apply Forall_cons_1 in Hq as [[Hqn Hqv] Hq].
    destruct (JS.encodeURIComponent (Param.name p)) as [n|] eqn:En; [|discriminate].
    destruct (JS.encodeURIComponent (Param.value p)) as [v|] eqn:Ev; [|discriminate].
    destruct (encodePairs ps) as [pairs1|] eqn:Eps; [|discriminate].
    destruct (JS.encodeURIComponent (Param.name q)) as [n'|] eqn:En'; [|discriminate].
    destruct (JS.encodeURIComponent (Param.value q)) as [v'|] eqn:Ev'; [|discriminate].
    destruct (encodePairs qs) as [pairs2|] eqn:Eqs; [|discriminate].
    injection Ep as <-. injection Eq as E1 E2. subst pairs2.
    change (js "=") with [61%N] in E1.
    apply split_at_first in E1 as [-> ->];
      [|apply plain_no_eq; eapply encodeURIComponent_plain; eauto
       |apply plain_no_eq; eapply encodeURIComponent_plain; eauto].
    assert (Param.name p = Param.name q)
      by (eapply encodeURIComponent_inj; [| |exact En|exact En']; assumption).
    assert (Param.value p = Param.value q)
      by (eapply encodeURIComponent_inj; [| |exact Ev|exact Ev']; assumption).
    f_equal.
    + destruct p, q; simpl in *; congruence.
    + eapply IH; eauto.
Qed.

(** ** A target that is an array *)

Lemma replace_same ps k child :
  JSON.get ps k = Some child -> JSON.replace k child ps = ps.
Proof.
  induction ps as [|[k0 v0] ps IH]; simpl; [reflexivity|].
  destruct (JS.eqb k0 k).
  - intros [= ->]. reflexivity.
  - intros H. rewrite (IH H). reflexivity.
Qed.

(** Writing back what is at a path changes nothing. *)
Lemma update_path_same path : forall v x,
  Assign.at_path v path = Some x -> Assign.update_path v path x = v.
Proof.
  induction path as [|k path IH]; intros v x H;
    cbn [Assign.at_path Assign.update_path] in *; [congruence|].
  destruct v as [| | | |es|ps]; try discriminate.
  - destruct (JSON.isArrayIndex k) as [i|]; [|reflexivity].
    destruct (es !! N.to_nat i) as [child|] eqn:Ec; [|reflexivity].
    rewrite (IH _ _ H), list_insert_id by exact Ec. reflexivity.
  - destruct (JSON.get ps k) as [child|] eqn:Ec; [|reflexivity].
    rewrite (IH _ _ H), replace_same by exact Ec. reflexivity.
Qed.

(** A name an array has no use for: neither an index nor [length]. *)
Definition plainName (k : jsstring) : Prop :=
  JSON.isArrayIndex k = None /\ k <> js "length".

Lemma assign_array toLength es source :
  Forall (fun kv => plainName (fst kv)) source ->
  Assign.assign toLength (JArray es) source = inr (JArray es).
Proof.
  induction 1 as [|[k v] source [Hi Hl] Hs IH]; simpl; [reflexivity|].
  simpl in Hi, Hl. rewrite Hi.
  assert (JS.eqb k (js "length") = false) as -> by (apply eqb_false; exact Hl).
  exact IH.
Qed.

Lemma gathered_keys (P : jsstring -> Prop) parameters : forall acc,
  Forall (fun p => P (Param.name p)) parameters ->
  Forall P (List.map fst acc) ->
  Forall P (List.map fst (gathered parameters acc)).
Proof.
  induction parameters as [|p ps IH]; intros acc Hp Hacc; simpl; [exact Hacc|].
  apply Forall_cons_1 in Hp as [Hp Hps].
  apply IH; [exact Hps|]. rewrite keys_put.
  destruct (JSON.hasOwn acc (Param.name p)); [exact Hacc|].
  constructor; assumption.
Qed.

Lemma paramsToInject_keys (P : jsstring -> Prop) parameters :
  Forall (fun p => P (Param.name p)) parameters ->
  Forall (fun kv => P (fst kv)) (paramsToInject parameters).
Proof.
  intros Hp. unfold paramsToInject. fold (gathered parameters []).
  pose proof (gathered_keys P parameters [] Hp (Forall_nil_2 _)) as Hk.
  induction (gathered parameters []) as [|[k j] props IH]; [constructor|].
  simpl in Hk. apply Forall_cons_1 in Hk as [Hk Hks].
  unfold omap in *. simpl. destruct j; simpl; auto.
Qed.

Section ArrayTarget.

Context {host : Host}.
Variable paramMiner : ParamMiner.t.

Lemma injectJSON_array bodyObj parameters jsonPath target es :
  configuredPath paramMiner = Some jsonPath ->
  JSONPath (effectivePath jsonPath) bodyObj = inr target ->
  targetValue bodyObj target = Some (JArray es) ->
  Forall (fun p => plainName (Param.name p)) parameters ->
  injectJSON paramMiner bodyObj parameters = inr bodyObj.
Proof.
  intros Hp Ht Hv Hn. unfold injectJSON, configuredPath in *.
  destruct (Config.jsonBodyPath (config paramMiner)) as [p|]; [|discriminate].
  cbn [from_option id]. destruct (truthy p) eqn:Et; [|discriminate].
  injection Hp as ->. fold (effectivePath jsonPath). rewrite Ht, Hv.
  cbn [isObject from_option id].
  rewrite (assign_array _ _ _ (paramsToInject_keys plainName parameters Hn)).
  f_equal. destruct target as [|path|values]; cbn [assigned]; [reflexivity| |reflexivity].
  apply update_path_same. exact Hv.
Qed.

End ArrayTarget.

(** * Further properties of the engine *)

Section Further.

Context {host : Host}.
Variable paramMiner : ParamMiner.t.

(** X1. What [isQueryBody] accepts.  The pattern accepts a body exactly
    when the body is a run of pieces joined by [&], followed or not by one
    more [&], where every piece holds at least one [=] and no [&].  So the
    empty body is accepted, and so is [a=b=c]; a body with an empty piece
    (one that starts with [&], or holds two [&] in a row) or with a piece
    without [=] is not. *)
Theorem query_shape body :
  isQueryBody body = true <->
  exists pieces,
    Forall piece pieces
    /\ (body = JS.join (js "&") pieces
        \/ (pieces <> [] /\ body = JS.join (js "&") pieces ++ js "&")).
Proof.
  rewrite isQueryBody_spec. change (js "&") with [38%N]. split.
  - apply pieces_of_QueryGrammar.
  - intros (pieces & Hp & [-> | [Hne ->]]).
    + apply QueryGrammar_join. exact Hp.
    + apply QueryGrammar_join; assumption.
Qed.

(** X2. Markup with an attribute is sniffed as url-encoded.  When the
    content-type names no known format, a body of XML shape that holds a
    [=] and no [&] (an XML declaration with its version, an element with an
    attribute) is not JSON and matches the pattern of pairs, which the
    detector tries before the XML shape: the detector stores url-encoded,
    although [isXMLBody] accepts the body. *)
Theorem markup_with_equals_is_urlencoded w body declared :
  bodyType w = None -> undeclared declared -> XMLShape body ->
  In 61%N body -> ~ In 38%N body ->
  isXMLBody body = true
  /\ determineBodyType paramMiner body (JS.toLowerCase <$> declared) w
     = (Return tt, determined paramMiner BodyType.query w).
Proof.
  intros Hw Hu Hx Heq Hamp. split; [apply isXMLBody_spec; exact Hx|].
  destruct (determineBodyType_spec paramMiner w body declared Hw) as (d & Hd & ->).
  assert (Hq : Detects declared body (Some BodyType.query)).
  { apply Detects_sniffed; [exact Hu|]. apply Sniffs_query.
    - apply XMLShape_not_JSON. exact Hx.
    - rewrite <- (app_nil_r body). apply QueryGrammar_piece.
      + split; assumption.
      + left. reflexivity. }
  rewrite (Detects_functional _ _ _ _ Hd Hq). reflexivity.
Qed.

(** X3. The text injected into a query string or a url-encoded body.  The
    encoded pairs of a batch, joined by [&], hold one [=] per parameter and
    one [&] between two parameters, neither more nor less, whatever the
    names and values are; the text matches the pattern of [isQueryBody];
    and when names and values are strings of UTF-16 code units, the text
    holds unreserved characters, [%], [=] and [&] only. *)
Theorem injected_pairs_keep_their_shape parameters pairs :
  encodePairs parameters = Some pairs ->
  let text := JS.join (js "&") pairs in
  occurrences 61%N text = length parameters
  /\ occurrences 38%N text = pred (length parameters)
  /\ isQueryBody text = true
  /\ (Forall (fun p => codeUnits (Param.name p) /\ codeUnits (Param.value p))
        parameters ->
      Forall (fun c => pairUnit c = true) text).
Proof.
  intros E text. unfold text. change (js "&") with [38%N].
  destruct (encodePairs_pairs parameters pairs E) as [L F].
  destruct (occurrences_join pairs F) as [O1 O2]. rewrite <- L.
  split; [exact O1|]. split; [exact O2|]. split.
  - apply isQueryBody_spec, QueryGrammar_join.
    eapply Forall_impl; [exact F|]. apply encodedPair_piece.
  - intros Hcu. exact (encodePairs_alphabet parameters Hcu pairs E).
Qed.

(** X4. The query strategy.  When every name and value is well-formed
    UTF-16, [handleQueryParameters] returns: the query of the request is
    what it was, then [&] if it was not empty, then the encoded pairs joined
    by [&]; the body, the headers and the fields of the engine are
    untouched.  Otherwise it throws URIError and has written nothing.  With
    an empty batch and a query that is not empty, the query gets a lone
    [&] at its end. *)
Theorem query_strategy w request r hs parameters :
  Holds w request r hs ->
  (Forall encodable parameters ->
   exists pairs w',
     encodePairs parameters = Some pairs
     /\ handleQueryParameters request parameters w = (Return tt, w')
     /\ Holds w' request
          (Request.set_query
             (extendQuery (Request.query r) (JS.join (js "&") pairs)) r) hs
     /\ sameEngine w w'
     /\ exists added,
          extendQuery (Request.query r) (JS.join (js "&") pairs)
          = Request.query r ++ added)
  /\ (~ Forall encodable parameters ->
      handleQueryParameters request parameters w = (Throw (Exn URIError), w))
  /\ (parameters = [] -> Request.query r <> [] ->
      exists w',
        handleQueryParameters request parameters w = (Return tt, w')
        /\ Holds w' request
             (Request.set_query (Request.query r ++ js "&") r) hs).
Proof.
  intros H.
  pose proof (handleQueryParameters_Holds w request r hs parameters H) as Hrun.
  pose proof (encodePairs_defined parameters) as Hdef.
  split; [|split].
  - intros Hwf. apply Hdef in Hwf as [pairs E]. rewrite E in Hrun.
    destruct Hrun as (w' & E' & H' & S').
    exists pairs, w'. repeat (split; [assumption|]).
    unfold extendQuery. destruct (truthy (Request.query r)) eqn:Et; [eauto|].
    apply negb_false_iff, eqb_true in Et. rewrite Et. eauto.
  - intros Hwf. destruct (encodePairs parameters) as [pairs|]; [|exact Hrun].
    exfalso. apply Hwf, Hdef. eauto.
  - intros -> Hq. simpl in Hrun. destruct Hrun as (w' & E' & H' & _).
    exists w'. split; [exact E'|].
    unfold extendQuery in H'.
    assert (truthy (Request.query r) = true) as Et
      by (apply negb_true_iff, eqb_false; exact Hq).
    rewrite Et, app_nil_r in H'. exact H'.
Qed.

(** X5. The header strategy.  [handleHeaderParameters] never throws.  It
    leaves the query, the body and the fields of the engine alone.  Under
    each parameter name the request then has the one-value sequence of the
    last parameter of that name, whatever it had there before; every other
    header is what it was, a header whose name differs in letter case
    only included.  The name [__proto__] is the exception: a parameter of
    that name replaces the header of that name when the header object has
    one as an own property, and adds no header when it has none. *)
Theorem header_strategy w request r hs parameters :
  Holds w request r hs ->
  exists w' hs',
    handleHeaderParameters request parameters w = (Return tt, w')
    /\ Holds w' request r hs'
    /\ sameEngine w w'
    /\ forall name,
         hs' !! name
         = match lastParam parameters name with
           | Some value =>
               if JS.eqb name Assign.proto
                  && negb (bool_decide (is_Some (hs !! name)))
               then None
               else Some [value]
           | None => hs !! name
           end.
Proof.
  intros H.
  destruct (handleHeaderParameters_Holds parameters w request r hs H)
    as (w' & E & H' & S).
  exists w', (headersWith parameters hs). repeat (split; [assumption|]).
  intros name. apply headersWith_lookup.
Qed.

(** X6. A url-encoded body stays url-encoded.  When the original body
    matches the pattern of [isQueryBody] and does not end in [&], and the
    batch can be encoded, [handleQueryBody] returns, the new body starts
    with the original body, and it matches the pattern again. *)
Theorem urlencoded_body_stays_urlencoded w request r hs parameters originalBody pairs :
  Holds w request r hs ->
  encodePairs parameters = Some pairs ->
  isQueryBody originalBody = true ->
  JS.endsWith originalBody (js "&") = false ->
  exists w',
    handleQueryBody request parameters originalBody w = (Return tt, w')
    /\ Holds w' request (Request.set_body (queryBody originalBody pairs) r)
         (<[js "content-type" := [js "application/x-www-form-urlencoded"]]> hs)
    /\ (exists added, queryBody originalBody pairs = originalBody ++ added)
    /\ isQueryBody (queryBody originalBody pairs) = true.
Proof.
  intros H E Hq Hend.
  pose proof (handleQueryBody_Holds w request r hs parameters originalBody H) as Hrun.
  rewrite E in Hrun. destruct Hrun as (w' & E' & H' & _).
  exists w'. split; [exact E'|]. split; [exact H'|].
  destruct (encodePairs_pairs parameters pairs E) as [_ F].
  assert (Fp : Forall piece pairs)
    by (eapply Forall_impl; [exact F|]; apply encodedPair_piece).
  unfold queryBody. change (js "&") with [38%N] in *.
  destruct (truthy originalBody) eqn:Et.
  2:{ apply negb_false_iff, eqb_true in Et. subst originalBody.
      split; [eexists; reflexivity|].
      apply isQueryBody_spec, QueryGrammar_join. exact Fp. }
  split; [rewrite <- app_assoc; eauto|].
  apply negb_true_iff, eqb_false in Et.
  apply isQueryBody_spec, pieces_of_QueryGrammar in Hq
    as (ps & Hps & [-> | [_ ->]]).
  2:{ assert (JS.endsWith (JS.join [38%N] ps ++ [38%N]) [38%N] = true)
        by (apply endsWith_spec; eauto).
      congruence. }
  assert (Hne : ps <> []) by (intros ->; apply Et; reflexivity).
  apply isQueryBody_spec. destruct pairs as [|q pairs].
  - simpl. rewrite app_nil_r. apply QueryGrammar_join; assumption.
  - rewrite <- app_assoc, <- join_app by (auto; discriminate).
    apply QueryGrammar_join. apply Forall_app. auto.
Qed.

(** X7. Content-Length and the bytes of the body.  On a body that is not
    empty, [updateContentLength] sets [Content-Length] to the decimal
    numeral of the number of UTF-16 code units of the body.  That number is
    never more than the number of bytes the body takes in UTF-8, and it is
    that number of bytes exactly when every code unit of the body is
    ASCII. *)
Theorem content_length_and_the_bytes w request r hs :
  Holds w request r hs -> Request.body r <> [] ->
  let units := length (Request.body r) in
  exists w',
    updateContentLength request w = (Return tt, w')
    /\ Holds w' request r
         (<[js "Content-Length" := [JS.Number_toString (N.of_nat units)]]> hs)
    /\ sameEngine w w'
    /\ (units <= JS.utf8_length (Request.body r))%nat
    /\ (JS.utf8_length (Request.body r) = units
        <-> Forall (fun c => (c < 128)%N) (Request.body r)).
Proof.
  intros H Hne units.
  destruct (updateContentLength_Holds w request r hs H) as (w' & E & H' & S).
  exists w'. split; [exact E|].
  assert ((length (Request.body r) =? 0)%nat = false) as E0.
  { apply Nat.eqb_neq. destruct (Request.body r); [contradiction|discriminate]. }
  rewrite E0 in H'. split; [exact H'|]. split; [exact S|].
  apply utf8_length_bounds.
Qed.

(** X8. The boundary runs to the end of the line.  When the content-type
    is one line and [boundary=] occurs in it for the first time before a
    text that is not empty, that whole text is the boundary the multipart
    encoder takes: a parameter after the boundary, or the quotes around
    it, are part of it.  The encoder then throws "Invalid multipart body:
    cannot find final boundary" unless the body holds the final marker
    made of that text. *)
Theorem boundary_runs_to_the_end_of_the_line
    w request r hs parameters originalBody before boundary :
  Holds w request r hs ->
  declaredContentType hs = Some (before ++ js "boundary=" ++ boundary) ->
  boundary <> [] ->
  Forall (fun c => isLineTerminator c = false)
    (before ++ js "boundary=" ++ boundary) ->
  JS.includes (before ++ js "boundary") (js "boundary=") = false ->
  boundaryMatch (before ++ js "boundary=" ++ boundary) = Some boundary
  /\ (JS.includes originalBody (js "--" ++ boundary ++ js "--") = false ->
      handleMultipartBody request parameters originalBody w
      = (Throw InvalidMultipartBody, w)).
Proof.
  intros H Hct Hne Hline Hfirst.
  assert (Hb : boundaryMatch (before ++ js "boundary=" ++ boundary) = Some boundary).
  { rewrite (boundaryMatch_line _ 0 Hline).
    rewrite (indexOf_from_first (js "boundary=") before boundary);
      [|discriminate|exact Hfirst].
    rewrite Nat.sub_0_r, Nat.add_0_l, drop_app_add.
    change (drop 9 (js "boundary=" ++ boundary)) with boundary.
    destruct boundary; [contradiction|reflexivity]. }
  split; [exact Hb|]. intros Hbody.
  pose proof (handleMultipartBody_Holds w request r hs parameters originalBody H)
    as Hrun.
  fold (declaredContentType hs) in Hrun. rewrite Hct in Hrun.
  assert (truthy (before ++ js "boundary=" ++ boundary) = true) as Et.
  { apply negb_true_iff, eqb_false. intros E. apply app_eq_nil in E as [_ E].
    discriminate E. }
  rewrite Et, Hb in Hrun. cbn [negb] in Hrun.
  unfold JS.includes in Hbody.
  destruct (JS.indexOf originalBody (js "--" ++ boundary ++ js "--"));
    [discriminate Hbody|exact Hrun].
Qed.

(** X9. A dispatch off the body surface leaves the cache alone.  When the
    attack type is not the body, [sendRequestWithParams] leaves the cached
    format and the cached boundary as they were, whether it returns or
    throws. *)
Theorem cache_untouched_off_the_body_surface w request parameters context :
  Config.attackType (config paramMiner) <> AttackType.body ->
  let w' := snd (sendRequestWithParams paramMiner request parameters context w) in
  bodyType w' = bodyType w /\ multipartBoundary w' = multipartBoundary w.
Proof.
  intros Hattack. split.
  - apply (keeps_cache_off_body paramMiner bodyType); auto with frames.
  - apply (keeps_cache_off_body paramMiner multipartBoundary); auto with frames.
Qed.

(** *** The dispatcher, end to end *)

Lemma copy_events w w1 parameters :
  sameEngine (withEvents [GenerateID] w) w1 ->
  events (withEvents [debugMessage parameters] w1)
  = events w ++ [GenerateID; debugMessage parameters].
Proof.
  intros (_ & _ & E). cbn [events withEvents] in *. rewrite E, <- app_assoc.
  reflexivity.
Qed.

Lemma copy_cache w w1 parameters :
  sameEngine (withEvents [GenerateID] w) w1 ->
  bodyType (withEvents [debugMessage parameters] w1) = bodyType w
  /\ multipartBoundary (withEvents [debugMessage parameters] w1)
     = multipartBoundary w.
Proof. intros (Eb & Em & _). split; assumption. Qed.

(** X10. A dispatch on the query surface, from the call to the wire.  On
    a request of the store, with a batch that can be encoded, the call
    returns what the transport answers to one request: the copy of the
    caller's request (new identifier, the context label or discovery, the
    same URL, body and headers) whose query is the caller's query extended
    by the encoded pairs and then, when one of the two cache-buster
    settings is on, by [cb], the clock, [=] and the clock read again; its
    Content-Length is updated when that setting is on.  The events of the
    call are the identifier, the debug message, the two clock reads if any,
    the request, and what the decision callback adds; the cache of the
    engine is untouched. *)
Theorem query_dispatch w request r hs parameters context pairs :
  Holds w request r hs ->
  Config.attackType (config paramMiner) = AttackType.query ->
  encodePairs parameters = Some pairs ->
  let busting := Config.cacheBusterParameter (config paramMiner)
                 || Config.addCacheBusterParameter (config paramMiner) in
  let before := events w ++ [GenerateID; debugMessage parameters] in
  let injected := extendQuery (Request.query r) (JS.join (js "&") pairs) in
  let query := if busting then extendQuery injected (cacheBuster before)
               else injected in
  let clock := if busting then [DateNow; DateNow] else [] in
  let outgoing := {| sent := Request.set_query query (copyOf w r context);
                     sentHeaders := lengthUpdated paramMiner r hs |} in
  exists w',
    sendRequestWithParams paramMiner request parameters context w
    = (Return (sendRequest outgoing (before ++ clock)), w')
    /\ events w'
       = (before ++ clock)
         ++ sendEvents paramMiner context outgoing (before ++ clock)
    /\ bodyType w' = bodyType w
    /\ multipartBoundary w' = multipartBoundary w.
Proof.
  intros H Hattack E. cbv zeta.
  destruct (dispatch_copy paramMiner w request r hs parameters context H)
    as (rc & w1 & H1 & S1 & Erun).
  set (wd := withEvents [debugMessage parameters] w1).
  assert (Hd : Holds wd rc (copyOf w r context) hs)
    by (eapply Holds_store; [|exact H1]; reflexivity).
  pose proof (copy_events w w1 parameters S1) as Ed. fold wd in Ed.
  destruct (copy_cache w w1 parameters S1) as [Eb Em]. fold wd in Eb, Em.
  pose proof (handleQueryParameters_Holds wd rc _ hs parameters Hd) as Hq.
  rewrite E in Hq. destruct Hq as (w2 & E2 & H2 & (Eb2 & Em2 & Ee2)).
  destruct (Config.cacheBusterParameter (config paramMiner)
            || Config.addCacheBusterParameter (config paramMiner)) eqn:Ebust.
  - destruct (handleCacheBusterParameter_Holds w2 rc _ _ H2)
      as (w3 & E3 & H3 & (Eb3 & Em3 & Ee3)).
    assert (Ei : inject paramMiner rc parameters wd = (Return tt, w3)).
    { unfold inject. rewrite Hattack, (bind_Return _ _ _ _ _ E2), Ebust. exact E3. }
    destruct (dispatch_returns paramMiner w request parameters context rc w1 w3
                _ _ Erun Ei H3) as (w4 & (Eb4 & Em4 & Ee4) & Efinal).
    cbn [events withEvents bodyType multipartBoundary] in Ee3, Eb3, Em3.
    rewrite Ee2, Ed in Ee3. rewrite Ee2, Ed in Efinal, H3. rewrite Ee3 in Efinal.
    eexists. split; [exact Efinal|].
    cbn [events withEvents bodyType multipartBoundary].
    rewrite Ee4, Ee3, Eb4, Em4, Eb3, Em3, Eb2, Em2.
    split; [reflexivity|]. split; assumption.
  - assert (Ei : inject paramMiner rc parameters wd = (Return tt, w2)).
    { unfold inject. rewrite Hattack, (bind_Return _ _ _ _ _ E2), Ebust.
      reflexivity. }
    destruct (dispatch_returns paramMiner w request parameters context rc w1 w2
                _ _ Erun Ei H2) as (w4 & (Eb4 & Em4 & Ee4) & Efinal).
    rewrite Ee2, Ed in Efinal. rewrite app_nil_r.
    eexists. split; [exact Efinal|].
    cbn [events withEvents bodyType multipartBoundary].
    rewrite Ee4, Ee2, Ed, Eb4, Em4, Eb2, Em2.
    split; [reflexivity|]. split; assumption.
Qed.

(** X11. A dispatch on the header surface, from the call to the wire.  On
    a request of the store the call always returns what the transport
    answers to one request: the copy of the caller's request whose headers
    are the caller's with, under each parameter name, the one value of the
    last parameter of that name (a parameter named [__proto__] is lost
    when the caller's header object has no own property of that name), and
    then the Content-Length update when that setting is on; whose body is
    the caller's; and whose query is the caller's, extended by the cache
    buster when one of the two cache-buster settings is on.  The cache of
    the engine is untouched. *)
Theorem header_dispatch w request r hs parameters context :
  Holds w request r hs ->
  Config.attackType (config paramMiner) = AttackType.headers ->
  let busting := Config.cacheBusterParameter (config paramMiner)
                 || Config.addCacheBusterParameter (config paramMiner) in
  let before := events w ++ [GenerateID; debugMessage parameters] in
  let query := if busting
               then extendQuery (Request.query r) (cacheBuster before)
               else Request.query r in
  let clock := if busting then [DateNow; DateNow] else [] in
  let outgoing :=
    {| sent := Request.set_query query (copyOf w r context);
       sentHeaders := lengthUpdated paramMiner r (headersWith parameters hs) |} in
  exists w',
    sendRequestWithParams paramMiner request parameters context w
    = (Return (sendRequest outgoing (before ++ clock)), w')
    /\ events w'
       = (before ++ clock)
         ++ sendEvents paramMiner context outgoing (before ++ clock)
    /\ bodyType w' = bodyType w
    /\ multipartBoundary w' = multipartBoundary w.
Proof.
  intros H Hattack. cbv zeta.
  destruct (dispatch_copy paramMiner w request r hs parameters context H)
    as (rc & w1 & H1 & S1 & Erun).
  set (wd := withEvents [debugMessage parameters] w1).
  assert (Hd : Holds wd rc (copyOf w r context) hs)
    by (eapply Holds_store; [|exact H1]; reflexivity).
  pose proof (copy_events w w1 parameters S1) as Ed. fold wd in Ed.
  destruct (copy_cache w w1 parameters S1) as [Eb Em]. fold wd in Eb, Em.
  destruct (handleHeaderParameters_Holds parameters wd rc _ hs Hd)
    as (w2 & E2 & H2 & (Eb2 & Em2 & Ee2)).
  destruct (Config.cacheBusterParameter (config paramMiner)
            || Config.addCacheBusterParameter (config paramMiner)) eqn:Ebust.
  - destruct (handleCacheBusterParameter_Holds w2 rc _ _ H2)
      as (w3 & E3 & H3 & (Eb3 & Em3 & Ee3)).
    assert (Ei : inject paramMiner rc parameters wd = (Return tt, w3)).
    { unfold inject. rewrite Hattack, (bind_Return _ _ _ _ _ E2), Ebust. exact E3. }
    destruct (dispatch_returns paramMiner w request parameters context rc w1 w3
                _ _ Erun Ei H3) as (w4 & (Eb4 & Em4 & Ee4) & Efinal).
    cbn [events withEvents bodyType multipartBoundary] in Ee3, Eb3, Em3.
    rewrite Ee2, Ed in Ee3. rewrite Ee2, Ed in Efinal, H3. rewrite Ee3 in Efinal.
    eexists. split; [exact Efinal|].
    cbn [events withEvents bodyType multipartBoundary].
    rewrite Ee4, Ee3, Eb4, Em4, Eb3, Em3, Eb2, Em2.
    split; [reflexivity|]. split; assumption.
  - assert (Ei : inject paramMiner rc parameters wd = (Return tt, w2)).
    { unfold inject. rewrite Hattack, (bind_Return _ _ _ _ _ E2), Ebust.
      reflexivity. }
    destruct (dispatch_returns paramMiner w request parameters context rc w1 w2
                _ _ Erun Ei H2) as (w4 & (Eb4 & Em4 & Ee4) & Efinal).
    rewrite Ee2, Ed in Efinal. rewrite app_nil_r.
    eexists. split; [exact Efinal|].
    cbn [events withEvents bodyType multipartBoundary].
    rewrite Ee4, Ee2, Ed, Eb4, Em4, Eb2, Em2.
    split; [reflexivity|]. split; assumption.
Qed.

(** X12. One request for a dispatch that returns, none for one that
    throws.  Whatever the attack type and the request, the events a call of
    [sendRequestWithParams] adds start with events that stay inside the
    plugin (the identifier, the debug message, the log of a detection, the
    clock).  A call that throws adds nothing else: no request went out and
    the decision callback did not run.  A call that returns adds one
    request after them, then what the decision callback adds, and returns
    what the transport answered to that request. *)
Theorem one_request_per_dispatch w request parameters context res w' :
  sendRequestWithParams paramMiner request parameters context w = (res, w') ->
  exists before,
    forallb isLocal before = true
    /\ match res with
       | Return response =>
           exists outgoing,
             events w'
             = events w ++ before
               ++ sendEvents paramMiner context outgoing (events w ++ before)
             /\ response = sendRequest outgoing (events w ++ before)
       | Throw _ => events w' = events w ++ before
       end.
Proof.
  intros E.
  pose proof (sendRequestWithParams_copy paramMiner w request parameters context)
    as Hcopy.
  destruct (store w !! request) as [[r|h0|a0]|] eqn:Er;
    try (rewrite Hcopy in E; injection E as <- <-; exists [];
         split; [reflexivity|]; rewrite app_nil_r; reflexivity).
  destruct (store w !! Request.headers r) as [[r0|h|a0]|] eqn:Eh;
    try (rewrite Hcopy in E; injection E as <- <-; exists [GenerateID];
         split; reflexivity).
  destruct (copied w r h context) as [rc w1] eqn:Ec.
  assert (Ev1 : events w1 = events w ++ [GenerateID]).
  { unfold copied in Ec. injection Ec as _ <-. reflexivity. }
  rewrite Hcopy in E. clear Hcopy.
  pose proof (addsLocal_prepare paramMiner rc parameters w1) as (evs & Ev2 & Hl).
  unfold bind in E.
  destruct (prepare paramMiner rc parameters w1) as [[[]|e] w2] eqn:Ep;
    cbn [snd] in Ev2.
  - pose proof (sendAndDecide_run paramMiner w2 rc context) as Hsend.
    destruct (snapshot rc w2) as [[outgoing|e] w3] eqn:Es.
    + cbv zeta in Hsend. rewrite Hsend in E. injection E as <- <-.
      exists (GenerateID :: evs). split; [exact Hl|].
      exists outgoing. cbn [events]. rewrite Ev2, Ev1. unfold sendEvents.
      rewrite <- !app_assoc. split; reflexivity.
    + rewrite Hsend in E. injection E as <- <-. rewrite Ev2, Ev1.
      exists (GenerateID :: evs). split; [exact Hl|].
      rewrite <- app_assoc. reflexivity.
  - injection E as <- <-. rewrite Ev2, Ev1.
    exists (GenerateID :: evs). split; [exact Hl|].
    rewrite <- app_assoc. reflexivity.
Qed.

(** X13. The Content-Length that goes out.  With the Content-Length
    update on, every dispatch that returns, on whatever surface, sends a
    request whose [Content-Length] header is absent when the body it
    carries is empty, and is otherwise the decimal numeral of the number of
    UTF-16 code units of the body it carries: the body as injection left
    it, not the caller's. *)
Theorem content_length_of_what_is_sent w request r hs parameters context response w' :
  Holds w request r hs ->
  Config.updateContentLength (config paramMiner) = true ->
  sendRequestWithParams paramMiner request parameters context w
  = (Return response, w') ->
  exists before outgoing,
    events w'
    = events w ++ before
      ++ sendEvents paramMiner context outgoing (events w ++ before)
    /\ forallb isLocal before = true
    /\ sentHeaders outgoing !! js "Content-Length"
       = if (length (Request.body (sent outgoing)) =? 0)%nat then None
         else Some [JS.Number_toString
                      (N.of_nat (length (Request.body (sent outgoing))))].
Proof.
  intros H Hon E.
  destruct (dispatch_copy paramMiner w request r hs parameters context H)
    as (rc & w1 & H1 & S1 & Erun).
  set (wd := withEvents [debugMessage parameters] w1).
  assert (Hd : Holds wd rc (copyOf w r context) hs)
    by (eapply Holds_store; [|exact H1]; reflexivity).
  pose proof (copy_events w w1 parameters S1) as Ed. fold wd in Ed.
  pose proof (addsLocal_inject paramMiner rc parameters wd) as (evs & Ev & Hl).
  destruct (inject paramMiner rc parameters wd) as [[[]|e] w2] eqn:Ei.
  2:{ rewrite Erun, (bind_Throw _ _ _ _ _ (prepare_throws _ _ _ _ _ _ Ei)) in E.
      discriminate E. }
  cbn [snd] in Ev.
  destruct (inject_returns paramMiner rc parameters wd w2 _ _ Hd Ei)
    as (r2 & hs2 & H2).
  destruct (dispatch_returns paramMiner w request parameters context rc w1 w2
              r2 hs2 Erun Ei H2) as (w3 & (_ & _ & Ee3) & Efinal).
  rewrite Efinal in E. injection E as _ <-.
  exists ([GenerateID; debugMessage parameters] ++ evs).
  exists {| sent := r2; sentHeaders := lengthUpdated paramMiner r2 hs2 |}.
  split; [|split].
  - cbn [events withEvents]. rewrite Ee3, Ev, Ed, <- !app_assoc. reflexivity.
  - exact Hl.
  - cbn [sentHeaders sent]. unfold lengthUpdated. rewrite Hon.
    destruct (length (Request.body r2) =? 0)%nat.
    + apply lookup_delete_eq.
    + apply lookup_insert_eq.
Qed.

(** X14. A dispatch on the body surface changes the body and the headers
    only.  When the call returns, the request that went out is the copy of
    the caller's request with a new body: identifier, context, URL and
    query are those of the copy; a format is cached afterwards; and the
    events before the request are the identifier, the debug message and,
    when no format was cached, the log of the detection. *)
Theorem body_dispatch_keeps_the_target w request r hs parameters context response w' :
  Holds w request r hs ->
  Config.attackType (config paramMiner) = AttackType.body ->
  sendRequestWithParams paramMiner request parameters context w
  = (Return response, w') ->
  exists outgoing body' f,
    let before :=
      events w ++ GenerateID :: debugMessage parameters
                  :: match bodyType w with
                     | Some _ => []
                     | None => [formatLogged paramMiner f]
                     end in
    events w' = before ++ sendEvents paramMiner context outgoing before
    /\ response = sendRequest outgoing before
    /\ sent outgoing = Request.set_body body' (copyOf w r context)
    /\ bodyType w' = Some f.
Proof.
  intros H Hattack E.
  destruct (dispatch_copy paramMiner w request r hs parameters context H)
    as (rc & w1 & H1 & S1 & Erun).
  set (wd := withEvents [debugMessage parameters] w1).
  assert (Hd : Holds wd rc (copyOf w r context) hs)
    by (eapply Holds_store; [|exact H1]; reflexivity).
  pose proof (copy_events w w1 parameters S1) as Ed. fold wd in Ed.
  destruct (copy_cache w w1 parameters S1) as [Eb _]. fold wd in Eb.
  destruct (inject paramMiner rc parameters wd) as [[[]|e] w2] eqn:Ei.
  2:{ rewrite Erun, (bind_Throw _ _ _ _ _ (prepare_throws _ _ _ _ _ _ Ei)) in E.
      discriminate E. }
  assert (Eh : handleBodyParameters paramMiner rc parameters wd = (Return tt, w2)).
  { unfold inject in Ei. rewrite Hattack in Ei. exact Ei. }
  destruct (handleBodyParameters_returns paramMiner wd rc _ hs parameters w2 Hd Eh)
    as (body' & hs' & f & H2 & Ef & Ev).
  destruct (dispatch_returns paramMiner w request parameters context rc w1 w2
              _ _ Erun Ei H2) as (w3 & (Eb3 & _ & Ee3) & Efinal).
  rewrite Efinal in E. injection E as <- <-.
  rewrite Eb, Ed in Ev.
  eexists _, body', f. cbv zeta.
  assert (Ebefore : events w2
                    = events w ++ GenerateID :: debugMessage parameters
                      :: match bodyType w with
                         | Some _ => []
                         | None => [formatLogged paramMiner f]
                         end).
  { rewrite Ev, <- app_assoc. reflexivity. }
  cbn [events withEvents bodyType sent]. rewrite Ee3, Eb3, Ebefore.
  repeat split. exact Ef.
Qed.

(** X15. The injected text tells the batch.  Two batches of parameters,
    all of whose names and values are strings of UTF-16 code units, that
    are encoded to the same text are the same batch: same parameters, in
    the same order, with the same names and values.  No two names and no
    two values are merged by the encoding, and no pair is split or
    joined. *)
Theorem injected_text_determines_the_batch parameters others pairs pairs' :
  Forall (fun p => codeUnits (Param.name p) /\ codeUnits (Param.value p)) parameters ->
  Forall (fun p => codeUnits (Param.name p) /\ codeUnits (Param.value p)) others ->
  encodePairs parameters = Some pairs ->
  encodePairs others = Some pairs' ->
  JS.join (js "&") pairs = JS.join (js "&") pairs' ->
  parameters = others.
Proof.
  intros Hp Ho Ep Eo E. change (js "&") with [38%N] in E.
  destruct (encodePairs_pairs parameters pairs Ep) as [_ Fp].
  destruct (encodePairs_pairs others pairs' Eo) as [_ Fo].
  apply join_pieces_inj in E.
  - subst pairs'. eapply encodePairs_inj; eauto.
  - eapply Forall_impl; [exact Fp|]. apply encodedPair_piece.
  - eapply Forall_impl; [exact Fo|]. apply encodedPair_piece.
Qed.

(** X16. A target that is an array takes no named parameter.  When the
    target path resolves to an array (one array of the body, or the array
    of several matches that the library returns), and no parameter name is
    an array index or [length], the JSON encoder returns and the body it
    writes is the body as parsed, serialised again: nothing of the batch is
    in it. *)
Theorem array_target_takes_no_named_parameter
    w request r hs parameters originalBody bodyObj jsonPath target elements :
  Holds w request r hs ->
  parseBody originalBody = Some bodyObj ->
  configuredPath paramMiner = Some jsonPath ->
  JSONPath (effectivePath jsonPath) bodyObj = inr target ->
  targetValue bodyObj target = Some (JArray elements) ->
  Forall (fun p => plainName (Param.name p)) parameters ->
  exists w',
    handleJSONBody paramMiner request parameters originalBody w = (Return tt, w')
    /\ Holds w' request
         (Request.set_body (JSON.stringify numberToString bodyObj) r)
         (<[js "content-type" := [js "application/json"]]> hs)
    /\ sameEngine w w'.
Proof.
  intros H Ep Hp Ht Hv Hn.
  pose proof (handleJSONBody_Holds paramMiner w request r hs parameters
                originalBody H) as Hrun.
  rewrite Ep, (injectJSON_array paramMiner bodyObj parameters jsonPath target
                 elements Hp Ht Hv Hn) in Hrun.
  exact Hrun.
Qed.

(** X17. XML is detected and never encoded.  On an engine whose cached
    format is xml, every body-surface injection throws "Unsupported body
    type." and writes nothing.  On an engine with nothing cached, a request
    that is detected as xml makes the call throw the same error after xml
    was cached and logged; from then on every body-surface injection of
    that engine, on whatever request, throws it. *)
Theorem xml_is_detected_and_never_encoded w request r hs parameters :
  Holds w request r hs ->
  (bodyType w = Some BodyType.xml ->
   handleBodyParameters paramMiner request parameters w
   = (Throw UnsupportedBodyType, w))
  /\ (bodyType w = None ->
      Detects (declaredContentType hs) (Request.body r) (Some BodyType.xml) ->
      let w1 := determined paramMiner BodyType.xml w in
      handleBodyParameters paramMiner request parameters w
      = (Throw UnsupportedBodyType, w1)
      /\ forall request' r' hs' parameters',
           Holds w1 request' r' hs' ->
           handleBodyParameters paramMiner request' parameters' w1
           = (Throw UnsupportedBodyType, w1)).
Proof.
  intros H. split.
  - intros Hx.
    rewrite (handleBodyParameters_cached paramMiner w request r hs parameters
               BodyType.xml H Hx). reflexivity.
  - intros Hn Hd w1. split.
    + destruct (handleBodyParameters_uncached paramMiner w request r hs
                  parameters H Hn) as (d & Hd' & ->).
      rewrite (Detects_functional _ _ _ _ Hd' Hd). reflexivity.
    + intros request' r' hs' parameters' H'.
      rewrite (handleBodyParameters_cached paramMiner w1 request' r' hs'
                 parameters' BodyType.xml H' eq_refl). reflexivity.
Qed.

End Further.

(** * The further properties at concrete inputs *)

Module FurtherWitness.

Import Example.

(** A well-formed literal. *)
Ltac wellformed := apply encodeURIComponent_defined; vm_compute; eauto.

(** A string of code units, given by its literal. *)
Ltac codeunits := unfold codeUnits; vm_compute; repeat constructor.

(** The XML declaration and an empty element. *)
Definition declaration : jsstring :=
  js "<?xml version=" ++ [34%N] ++ js "1.0" ++ [34%N] ++ js "?><a/>".

(** X2 at a concrete input. *)
Lemma markup_with_equals_is_urlencoded_witness :
  let w := world declaration [] None None in
  XMLShape declaration
  /\ isXMLBody declaration = true
  /\ determineBodyType (Witness.bodyMiner) declaration None w
     = (Return tt, determined Witness.bodyMiner BodyType.query w).
Proof.
  cbv zeta.
  assert (Hx : XMLShape declaration) by (apply isXMLBody_spec; vm_compute; reflexivity).
  split; [exact Hx|].
  apply (markup_with_equals_is_urlencoded Witness.bodyMiner
           (world declaration [] None None) declaration None).
  - reflexivity.
  - intros ct [=].
  - exact Hx.
  - apply includes_unit. vm_compute. reflexivity.
  - intros Hin. apply includes_unit in Hin. vm_compute in Hin. discriminate Hin.
Defined.

(** X3 at a concrete input: a name with a space, values with [&] and [=]. *)
Lemma injected_pairs_keep_their_shape_witness :
  let parameters := [param "a b" "1&2"; param "c" "d=e"] in
  let pairs := [js "a%20b=1%262"; js "c=d%3De"] in
  encodePairs parameters = Some pairs
  /\ occurrences 61%N (JS.join (js "&") pairs) = 2%nat
  /\ occurrences 38%N (JS.join (js "&") pairs) = 1%nat
  /\ isQueryBody (JS.join (js "&") pairs) = true.
Proof.
  cbv zeta.
  assert (E : encodePairs [param "a b" "1&2"; param "c" "d=e"]
              = Some [js "a%20b=1%262"; js "c=d%3De"]) by (vm_compute; reflexivity).
  split; [exact E|].
  destruct (injected_pairs_keep_their_shape _ _ E) as (H1 & H2 & H3 & _).
  auto.
Defined.

(** A request with a query, at reference 1; its header object, at 2, is
    empty. *)
Definition queried (query body : jsstring) : Request.t :=
  Request.mk (js "original") None (js "https://target.example/api") query body 2.

Definition queriedWorld (query body : jsstring) : World :=
  {| store := <[1%positive := RequestCell (queried query body)]>
                (<[2%positive := HeadersCell ∅]> ∅);
     bodyType := None; multipartBoundary := None; events := [] |}.

(** X4 at a concrete input. *)
Lemma query_strategy_witness :
  let w := queriedWorld (js "q=1") [] in
  let parameters := [param "a" "1"] in
  Holds w 1 (queried (js "q=1") []) ∅
  /\ Forall encodable parameters
  /\ exists pairs w',
       encodePairs parameters = Some pairs
       /\ handleQueryParameters 1 parameters w = (Return tt, w')
       /\ Holds w' 1
            (Request.set_query
               (extendQuery (js "q=1") (JS.join (js "&") pairs))
               (queried (js "q=1") [])) ∅.
Proof.
  cbv zeta.
  assert (H : Holds (queriedWorld (js "q=1") []) 1 (queried (js "q=1") []) ∅)
    by example_holds.
  assert (F : Forall encodable [param "a" "1"])
    by (repeat constructor; wellformed).
  split; [exact H|]. split; [exact F|].
  destruct (query_strategy _ _ _ _ [param "a" "1"] H) as [Hok _].
  destruct (Hok F) as (pairs & w' & E & Erun & H' & _).
  exists pairs, w'. auto.
Defined.

(** X5 at two concrete inputs: a name given twice and [__proto__] on a
    header object without that own property; [__proto__] on a header
    object that has it. *)
Lemma header_strategy_witness :
  let w := world [] [(js "X-A", [js "0"; js "9"])] None None in
  let hs : gmap jsstring (list jsstring) := {[ js "X-A" := [js "0"; js "9"] ]} in
  let parameters := [param "X-A" "1"; param "X-A" "2"; param "__proto__" "x"] in
  let w2 := world [] [(js "__proto__", [js "a"])] None None in
  let hs2 : gmap jsstring (list jsstring) := {[ js "__proto__" := [js "a"] ]} in
  (Holds w 1 (request []) hs
   /\ exists w' hs',
        handleHeaderParameters 1 parameters w = (Return tt, w')
        /\ Holds w' 1 (request []) hs'
        /\ hs' !! js "X-A" = Some [js "2"]
        /\ hs' !! js "__proto__" = None)
  /\ (Holds w2 1 (request []) hs2
      /\ exists w' hs',
           handleHeaderParameters 1 [param "__proto__" "x"] w2 = (Return tt, w')
           /\ Holds w' 1 (request []) hs'
           /\ hs' !! js "__proto__" = Some [js "x"]).
Proof.
  cbv zeta.
  set (w := world [] [(js "X-A", [js "0"; js "9"])] None None).
  set (w2 := world [] [(js "__proto__", [js "a"])] None None).
  assert (H : Holds w 1 (request []) {[ js "X-A" := [js "0"; js "9"] ]})
    by example_holds.
  assert (H2 : Holds w2 1 (request []) {[ js "__proto__" := [js "a"] ]})
    by example_holds.
  split.
  - split; [exact H|].
    destruct (header_strategy _ _ _ _
                [param "X-A" "1"; param "X-A" "2"; param "__proto__" "x"] H)
      as (w' & hs' & E & H' & _ & Hl).
    exists w', hs'. split; [exact E|]. split; [exact H'|]. split.
    + rewrite (Hl (js "X-A")). vm_compute. reflexivity.
    + rewrite (Hl (js "__proto__")). vm_compute. reflexivity.
  - split; [exact H2|].
    destruct (header_strategy _ _ _ _ [param "__proto__" "x"] H2)
      as (w' & hs' & E & H' & _ & Hl).
    exists w', hs'. split; [exact E|]. split; [exact H'|].
    rewrite (Hl (js "__proto__")). vm_compute. reflexivity.
Defined.

(** X6 at a concrete input. *)
Lemma urlencoded_body_stays_urlencoded_witness :
  let w := world (js "a=1") [] None None in
  let parameters := [param "b" "2"] in
  Holds w 1 (request (js "a=1")) ∅
  /\ encodePairs parameters = Some [js "b=2"]
  /\ exists w',
       handleQueryBody 1 parameters (js "a=1") w = (Return tt, w')
       /\ isQueryBody (queryBody (js "a=1") [js "b=2"]) = true.
Proof.
  cbv zeta.
  set (w := world (js "a=1") [] None None).
  assert (H : Holds w 1 (request (js "a=1")) ∅) by example_holds.
  assert (E : encodePairs [param "b" "2"] = Some [js "b=2"])
    by (vm_compute; reflexivity).
  split; [exact H|]. split; [exact E|].
  destruct (urlencoded_body_stays_urlencoded w 1 _ _ [param "b" "2"] (js "a=1")
              [js "b=2"] H E)
    as (w' & Erun & _ & _ & Hq); [vm_compute; reflexivity|vm_compute; reflexivity|].
  exists w'. auto.
Defined.

(** X7 at a concrete input. *)
Lemma content_length_and_the_bytes_witness :
  let w := world (js "abc") [] None None in
  Holds w 1 (request (js "abc")) ∅
  /\ exists w',
       updateContentLength 1 w = (Return tt, w')
       /\ Holds w' 1 (request (js "abc"))
            (<[js "Content-Length" :=
                 [JS.Number_toString (N.of_nat (length (js "abc")))]]> ∅)
       /\ JS.utf8_length (js "abc") = length (js "abc").
Proof.
  cbv zeta.
  set (w := world (js "abc") [] None None).
  assert (H : Holds w 1 (request (js "abc")) ∅) by example_holds.
  split; [exact H|].
  destruct (content_length_and_the_bytes w 1 _ _ H) as (w' & E & H' & _ & _ & Hb);
    [discriminate|].
  exists w'. split; [exact E|]. split; [exact H'|].
  apply Hb. vm_compute. repeat constructor.
Defined.

(** A content-type whose boundary is quoted, and a body whose final marker
    is not. *)
Definition quotedBoundary : jsstring := [34%N] ++ js "X" ++ [34%N].

Definition quotedContentType : jsstring :=
  js "multipart/form-data; " ++ js "boundary=" ++ quotedBoundary.

(** X8 at a concrete input. *)
Lemma boundary_runs_to_the_end_of_the_line_witness :
  let w := world Witness.multipartExample
             [(js "Content-Type", [quotedContentType])] None None in
  let hs : gmap jsstring (list jsstring) :=
    {[ js "Content-Type" := [quotedContentType] ]} in
  Holds w 1 (request Witness.multipartExample) hs
  /\ boundaryMatch quotedContentType = Some quotedBoundary
  /\ handleMultipartBody 1 [param "p" "v"] Witness.multipartExample w
     = (Throw InvalidMultipartBody, w).
Proof.
  cbv zeta.
  set (w := world Witness.multipartExample
              [(js "Content-Type", [quotedContentType])] None None).
  assert (H : Holds w 1 (request Witness.multipartExample)
                {[ js "Content-Type" := [quotedContentType] ]}) by example_holds.
  split; [exact H|].
  destruct (boundary_runs_to_the_end_of_the_line w 1 _ _ [param "p" "v"]
              Witness.multipartExample (js "multipart/form-data; ")
              quotedBoundary H) as [Hb Hrun].
  - vm_compute. reflexivity.
  - discriminate.
  - vm_compute. repeat constructor.
  - vm_compute. reflexivity.
  - split; [exact Hb|]. apply Hrun. vm_compute. reflexivity.
Defined.

(** A miner on the query surface with the cache buster on, and one on the
    header surface. *)
Definition bustingMiner (attack : AttackType.t) : ParamMiner.t :=
  ParamMiner.mk (Config.mk attack true false true false None) (js "miner-1").

(** X9 at a concrete input. *)
Lemma cache_untouched_off_the_body_surface_witness :
  let w := world (js "{}") [] (Some BodyType.json) (Some (js "X")) in
  let w' := snd (sendRequestWithParams (host := ExampleHost.host false)
                   (bustingMiner AttackType.query) 1 [param "a" "1"] None w) in
  Config.attackType (config (bustingMiner AttackType.query)) <> AttackType.body
  /\ bodyType w' = Some BodyType.json
  /\ multipartBoundary w' = Some (js "X").
Proof.
  cbv zeta.
  assert (Hq : Config.attackType (config (bustingMiner AttackType.query))
               <> AttackType.body) by discriminate.
  split; [exact Hq|].
  exact (cache_untouched_off_the_body_surface (host := ExampleHost.host false)
           (bustingMiner AttackType.query)
           (world (js "{}") [] (Some BodyType.json) (Some (js "X"))) 1
           [param "a" "1"] None Hq).
Defined.

(** X10 at a concrete input: a query, a batch, the cache buster. *)
Lemma query_dispatch_witness :
  let w := queriedWorld (js "q=1") (js "body") in
  Holds w 1 (queried (js "q=1") (js "body")) ∅
  /\ encodePairs [param "a" "1"] = Some [js "a=1"]
  /\ exists response w',
       sendRequestWithParams (host := ExampleHost.host false)
         (bustingMiner AttackType.query) 1 [param "a" "1"] None w
       = (Return response, w')
       /\ bodyType w' = None.
Proof.
  cbv zeta.
  assert (H : Holds (queriedWorld (js "q=1") (js "body")) 1
                (queried (js "q=1") (js "body")) ∅) by example_holds.
  assert (E : encodePairs [param "a" "1"] = Some [js "a=1"])
    by (vm_compute; reflexivity).
  split; [exact H|]. split; [exact E|].
  destruct (query_dispatch (host := ExampleHost.host false)
              (bustingMiner AttackType.query) _ 1 _ _ [param "a" "1"] None
              [js "a=1"] H eq_refl E) as (w' & Erun & _ & Hb & _).
  eexists _, w'. split; [exact Erun|exact Hb].
Defined.

(** X11 at two concrete inputs: a new header; and [__proto__] on a header
    object that has it as an own property, where the request sent carries
    the value of the parameter. *)
Lemma header_dispatch_witness :
  let w := queriedWorld (js "q=1") (js "body") in
  let w2 := world [] [(js "__proto__", [js "a"])] None None in
  let hs2 : gmap jsstring (list jsstring) := {[ js "__proto__" := [js "a"] ]} in
  (Holds w 1 (queried (js "q=1") (js "body")) ∅
   /\ exists response w',
        sendRequestWithParams (host := ExampleHost.host false)
          (bustingMiner AttackType.headers) 1 [param "X-A" "1"] None w
        = (Return response, w')
        /\ bodyType w' = None)
  /\ (Holds w2 1 (request []) hs2
      /\ exists response w' outgoing,
           sendRequestWithParams (host := ExampleHost.host false)
             (bustingMiner AttackType.headers) 1 [param "__proto__" "x"] None w2
           = (Return response, w')
           /\ In (SendRequest outgoing) (events w')
           /\ sentHeaders outgoing !! js "__proto__" = Some [js "x"]).
Proof.
  cbv zeta. split.
  - assert (H : Holds (queriedWorld (js "q=1") (js "body")) 1
                  (queried (js "q=1") (js "body")) ∅) by example_holds.
    split; [exact H|].
    destruct (header_dispatch (host := ExampleHost.host false)
                (bustingMiner AttackType.headers) _ 1 _ _ [param "X-A" "1"] None
                H eq_refl) as (w' & Erun & _ & Hb & _).
    eexists _, w'. split; [exact Erun|exact Hb].
  - set (w2 := world [] [(js "__proto__", [js "a"])] None None).
    assert (H2 : Holds w2 1 (request []) {[ js "__proto__" := [js "a"] ]})
      by example_holds.
    split; [exact H2|].
    destruct (header_dispatch (host := ExampleHost.host false)
                (bustingMiner AttackType.headers) _ 1 _ _
                [param "__proto__" "x"] None H2 eq_refl)
      as (w' & Erun & Eev & _).
    eexists _, w', _. split; [exact Erun|]. split.
    + rewrite Eev. apply in_or_app. right. left. reflexivity.
    + vm_compute. reflexivity.
Defined.

(** X12 at a concrete input: a body that no format fits. *)
Lemma one_request_per_dispatch_witness :
  let w := world (js "plain text") [] None None in
  let run :=
    sendRequestWithParams (host := ExampleHost.host false) Witness.bodyMiner 1
      [param "a" "1"] None w in
  run = (fst run, snd run)
  /\ exists before,
       forallb isLocal before = true
       /\ match fst run with
          | Return response =>
              exists outgoing,
                events (snd run)
                = events w ++ before
                  ++ sendEvents (host := ExampleHost.host false)
                       Witness.bodyMiner None outgoing (events w ++ before)
                /\ response
                   = sendRequest (Host := ExampleHost.host false) outgoing
                       (events w ++ before)
          | Throw _ => events (snd run) = events w ++ before
          end.
Proof.
  cbv zeta. split; [apply surjective_pairing|].
  exact (one_request_per_dispatch (host := ExampleHost.host false)
           Witness.bodyMiner (world (js "plain text") [] None None) 1
           [param "a" "1"] None _ _ (surjective_pairing _)).
Defined.

(** A miner on the body surface with the Content-Length update on. *)
Definition lengthMiner : ParamMiner.t := miner AttackType.body true false None.

(** X13 at a concrete input. *)
Lemma content_length_of_what_is_sent_witness :
  let w := world (js "{}") [(js "Content-Type", [js "application/json"])]
             None None in
  let hs : gmap jsstring (list jsstring) :=
    {[ js "Content-Type" := [js "application/json"] ]} in
  let run :=
    sendRequestWithParams (host := ExampleHost.host false) lengthMiner 1
      [param "a" "1"] None w in
  Holds w 1 (request (js "{}")) hs
  /\ Config.updateContentLength (config lengthMiner) = true
  /\ run = (Return {| raw := js "HTTP/1.1 200 OK" |}, snd run)
  /\ exists outgoing,
       In (SendRequest outgoing) (events (snd run))
       /\ sentHeaders outgoing !! js "Content-Length"
          = if (length (Request.body (sent outgoing)) =? 0)%nat then None
            else Some [JS.Number_toString
                         (N.of_nat (length (Request.body (sent outgoing))))].
Proof.
  cbv zeta.
  set (w := world (js "{}") [(js "Content-Type", [js "application/json"])]
              None None).
  assert (H : Holds w 1 (request (js "{}"))
                {[ js "Content-Type" := [js "application/json"] ]})
    by example_holds.
  assert (E : sendRequestWithParams (host := ExampleHost.host false) lengthMiner 1
                [param "a" "1"] None w
              = (Return {| raw := js "HTTP/1.1 200 OK" |},
                 snd (sendRequestWithParams (host := ExampleHost.host false)
                        lengthMiner 1 [param "a" "1"] None w)))
    by (vm_compute; reflexivity).
  split; [exact H|]. split; [reflexivity|]. split; [exact E|].
  destruct (content_length_of_what_is_sent (host := ExampleHost.host false)
              lengthMiner w 1 _ _ [param "a" "1"] None _ _ H eq_refl E)
    as (before & outgoing & Ev & _ & Hl).
  exists outgoing. split; [|exact Hl].
  rewrite Ev. apply in_or_app. right. apply in_or_app. right. left. reflexivity.
Defined.

(** X14 at a concrete input. *)
Lemma body_dispatch_keeps_the_target_witness :
  let w := world (js "{}") [] (Some BodyType.json) None in
  let run :=
    sendRequestWithParams (host := ExampleHost.host false) Witness.bodyMiner 1
      [param "a" "1"] None w in
  Holds w 1 (request (js "{}")) ∅
  /\ run = (Return {| raw := js "HTTP/1.1 200 OK" |}, snd run)
  /\ exists outgoing body',
       In (SendRequest outgoing) (events (snd run))
       /\ sent outgoing
          = Request.set_body body'
              (copyOf (host := ExampleHost.host false) w (request (js "{}")) None).
Proof.
  cbv zeta.
  set (w := world (js "{}") [] (Some BodyType.json) None).
  assert (H : Holds w 1 (request (js "{}")) ∅) by example_holds.
  assert (E : sendRequestWithParams (host := ExampleHost.host false)
                Witness.bodyMiner 1 [param "a" "1"] None w
              = (Return {| raw := js "HTTP/1.1 200 OK" |},
                 snd (sendRequestWithParams (host := ExampleHost.host false)
                        Witness.bodyMiner 1 [param "a" "1"] None w)))
    by (vm_compute; reflexivity).
  split; [exact H|]. split; [exact E|].
  destruct (body_dispatch_keeps_the_target (host := ExampleHost.host false)
              Witness.bodyMiner w 1 _ _ [param "a" "1"] None _ _ H eq_refl E)
    as (outgoing & body' & f & Ev & _ & Hs & _).
  exists outgoing, body'. split; [|exact Hs].
  rewrite Ev. apply in_or_app. right. left. reflexivity.
Defined.

(** X15 at a concrete input. *)
Lemma injected_text_determines_the_batch_witness :
  let parameters := [param "a b" "1&2"] in
  Forall (fun p => codeUnits (Param.name p) /\ codeUnits (Param.value p)) parameters
  /\ encodePairs parameters = Some [js "a%20b=1%262"]
  /\ parameters = parameters.
Proof.
  cbv zeta.
  assert (F : Forall (fun p => codeUnits (Param.name p) /\ codeUnits (Param.value p))
                [param "a b" "1&2"]).
  { constructor; [|constructor]. split; codeunits. }
  assert (E : encodePairs [param "a b" "1&2"] = Some [js "a%20b=1%262"])
    by (vm_compute; reflexivity).
  split; [exact F|]. split; [exact E|].
  exact (injected_text_determines_the_batch _ _ _ _ F F E E eq_refl).
Defined.

(** A body whose member [items] is an array, and a miner that targets it. *)
Definition itemsBody : jsstring :=
  js "{" ++ [34%N] ++ js "items" ++ [34%N] ++ js ":[1,2]}".

Definition itemsMiner : ParamMiner.t :=
  miner AttackType.body false false (Some (js "items")).

(** X16 at a concrete input. *)
Lemma array_target_takes_no_named_parameter_witness :
  let w := world itemsBody [] (Some BodyType.json) None in
  let bodyObj := JObject [(js "items", JArray [JNumber (js "1"); JNumber (js "2")])] in
  Holds w 1 (request itemsBody) ∅
  /\ Forall (fun p => plainName (Param.name p)) [param "a" "1"]
  /\ exists w',
       handleJSONBody (host := ExampleHost.host false) itemsMiner 1
         [param "a" "1"] itemsBody w = (Return tt, w')
       /\ Holds w' 1
            (Request.set_body
               (JSON.stringify (numberToString (Host := ExampleHost.host false))
                  bodyObj) (request itemsBody))
            (<[js "content-type" := [js "application/json"]]> ∅).
Proof.
  cbv zeta.
  set (w := world itemsBody [] (Some BodyType.json) None).
  assert (H : Holds w 1 (request itemsBody) ∅) by example_holds.
  assert (F : Forall (fun p => plainName (Param.name p)) [param "a" "1"]).
  { constructor; [|constructor]. split; [vm_compute; reflexivity|].
    intros E. vm_compute in E. discriminate E. }
  split; [exact H|]. split; [exact F|].
  destruct (array_target_takes_no_named_parameter (host := ExampleHost.host false)
              itemsMiner w 1 _ _ [param "a" "1"] itemsBody
              (JObject [(js "items", JArray [JNumber (js "1"); JNumber (js "2")])])
              (js "items") (Node [js "items"]) [JNumber (js "1"); JNumber (js "2")]
              H)
    as (w' & E & H' & _);
    [vm_compute; reflexivity|vm_compute; reflexivity|vm_compute; reflexivity
    |vm_compute; reflexivity|exact F|].
  exists w'. split; [exact E|exact H'].
Defined.

(** X17 at a concrete input. *)
Lemma xml_is_detected_and_never_encoded_witness :
  let w := world (js "{}") [] (Some BodyType.xml) None in
  Holds w 1 (request (js "{}")) ∅
  /\ handleBodyParameters (host := ExampleHost.host false) Witness.bodyMiner 1
       [param "a" "1"] w
     = (Throw UnsupportedBodyType, w).
Proof.
  cbv zeta.
  set (w := world (js "{}") [] (Some BodyType.xml) None).
  assert (H : Holds w 1 (request (js "{}")) ∅) by example_holds.
  split; [exact H|].
  destruct (xml_is_detected_and_never_encoded (host := ExampleHost.host false)
              Witness.bodyMiner w 1 _ _ [param "a" "1"] H) as [Hx _].
  apply Hx. reflexivity.
Defined.

End FurtherWitness.
